(** * PlasmaMind Chat: the response orchestration engine

    A shallow embedding of the model adapter ([services/aiAdapter.ts], in its
    two revisions), of the message repository ([services/chatService.ts]) and
    of the send orchestrator ([handleSendMessage] of [App.tsx]), with the
    properties the specification states about them.

    Conventions of the embedding.
    - A JavaScript string is a [string]: its characters are the code units,
      taken in the 8-bit range (ASCII and Latin-1), which covers model
      identifiers, data URLs and the fixed texts of the program.
    - A value that may be [undefined] or [null] is an [option].
    - The collaborators the program talks to (the generative provider, the
      network, the blob store, the clock and the random sources) are fields
      of one record [Env]: their answers are inputs of the model.
    - The remote message store is a small state machine, [Db]; it answers
      the requests in the order they are made.
    - [throw], [try] and [catch] are explicit: a computation ends in a
      value or in an exception [exn].
    - The state of the component is a record, and a setter changes it at
      once. The effect of the component on the identifier of the open
      conversation runs whenever a handler has changed that identifier:
      after the handler when it has nothing left to wait for, beside it
      when it goes on to a request. *)

From Stdlib Require Import String Ascii List Bool Arith Lia DecimalString.
Import ListNotations.
Local Open Scope string_scope.
Local Open Scope list_scope.

Set Implicit Arguments.

(* ===================================================================== *)
(** ** JavaScript string primitives used by the program *)
(* ===================================================================== *)

Module Js.

(** Truthiness of a string: every string but the empty one. *)
Definition truthy (s : string) : bool :=
  match s with EmptyString => false | String _ _ => true end.

(** Truthiness of a value that may be [undefined]. *)
Definition truthy_opt (o : option string) : bool :=
  match o with Some s => truthy s | None => false end.

(** [a || d] where [a] may be [undefined] and [d] is a string. *)
Definition or_else (a : option string) (d : string) : string :=
  match a with
  | Some s => if truthy s then s else d
  | None => d
  end.

(** [s.startsWith(p)]. *)
Fixpoint startsWith (s p : string) {struct p} : bool :=
  match p with
  | EmptyString => true
  | String a p1 =>
      match s with
      | EmptyString => false
      | String b s1 => Ascii.eqb a b && startsWith s1 p1
      end
  end.

(** [s.includes(sub)]. *)
Fixpoint includes (s sub : string) : bool :=
  startsWith s sub
  || match s with
     | EmptyString => false
     | String _ rest => includes rest sub
     end.

(** The characters of [s] before the first [sep] (all of [s] without one). *)
Fixpoint before (sep : ascii) (s : string) : string :=
  match s with
  | EmptyString => EmptyString
  | String c rest =>
      if Ascii.eqb c sep then EmptyString else String c (before sep rest)
  end.

(** The characters of [s] after the first [sep], when there is one. *)
Fixpoint after (sep : ascii) (s : string) : option string :=
  match s with
  | EmptyString => None
  | String c rest => if Ascii.eqb c sep then Some rest else after sep rest
  end.

(** [const [header, data] = s.split(',')]: the first two fields; the
    second one is [undefined] when [s] has no comma. *)
Definition split_comma (s : string) : string * option string :=
  (before "," s, option_map (before ",") (after "," s)).

(** [s.split('.').pop()]: the last field. *)
Fixpoint last_field (sep : ascii) (s : string) : string :=
  match s with
  | EmptyString => EmptyString
  | String _ rest =>
      match after sep s with
      | Some _ => last_field sep rest
      | None => s
      end
  end.

(** The characters the regular expression dot refuses. *)
Definition line_terminator (c : ascii) : bool :=
  Ascii.eqb c "010" || Ascii.eqb c "013".

(** The lazy group of [/:(.*?);/] started just after a colon: the
    characters up to the first semicolon, provided no line terminator comes
    before it. *)
Fixpoint lazy_until_semicolon (s : string) : option string :=
  match s with
  | EmptyString => None
  | String c rest =>
      if Ascii.eqb c ";" then Some EmptyString
      else if line_terminator c then None
      else option_map (String c) (lazy_until_semicolon rest)
  end.

(** [header.match(/:(.*?);/)?.[1]]: the group of the leftmost match. *)
Fixpoint match_mime (header : string) : option string :=
  match header with
  | EmptyString => None
  | String c rest =>
      if Ascii.eqb c ":"
      then match lazy_until_semicolon rest with
           | Some g => Some g
           | None => match_mime rest
           end
      else match_mime rest
  end.

(** [c.toLowerCase()] on one code unit of the 8-bit range. *)
Definition lower (c : ascii) : ascii :=
  let n := nat_of_ascii c in
  if ((65 <=? n) && (n <=? 90))%nat then ascii_of_nat (n + 32)
  else if ((192 <=? n) && (n <=? 222) && negb (n =? 215))%nat
       then ascii_of_nat (n + 32)
       else c.

(** [s.toLowerCase()]. *)
Fixpoint toLowerCase (s : string) : string :=
  match s with
  | EmptyString => EmptyString
  | String c rest => String (lower c) (toLowerCase rest)
  end.

(** [s.substring(0, n)]. *)
Definition substring0 (n : nat) (s : string) : string :=
  String.substring 0 n s.

(** How a template literal prints a value that may be [undefined]. *)
Definition show (o : option string) : string :=
  match o with Some s => s | None => "undefined" end.

End Js.

(* ===================================================================== *)
(** ** The data model ([types.ts]) *)
(* ===================================================================== *)

(** [type Role = 'user' | 'assistant' | 'system']. *)
Inductive Role : Type := user | assistant | system.

(** [type AICategory = 'CHAT' | 'IMAGE']. *)
Inductive AICategory : Type := CHAT | IMAGE.

(** [interface Message]. *)
Record Message : Type := mkMessage {
  msg_id : string;
  msg_conversation_id : string;
  msg_role : Role;
  msg_content : string;
  msg_image_url : option string;
  msg_attachments : option (list string);
  msg_created_at : string
}.

(** [Omit<Message, 'id' | 'created_at'>], the argument of [addMessage]. *)
Record NewMessage : Type := mkNewMessage {
  new_conversation_id : string;
  new_role : Role;
  new_content : string;
  new_image_url : option string;
  new_attachments : option (list string)
}.

(** [interface Conversation]. *)
Record Conversation : Type := mkConversation {
  conv_id : string;
  conv_user_id : string;
  conv_title : string;
  conv_created_at : string;
  conv_updated_at : string
}.

(** [interface AIProvider]; the store may hold no category and an empty
    model name, which is why the orchestrator supplies defaults. *)
Record AIProvider : Type := mkAIProvider {
  prov_id : string;
  prov_name : string;
  prov_api_key : option string;
  prov_endpoint : option string;
  prov_category : option AICategory;
  prov_model_name : string;
  prov_is_active : bool
}.

(** What a [throw] carries. [Error] is [new Error(message)], [TypeError] the
    exception of the runtime on a property read of [undefined], [Foreign] a
    value thrown or returned as an error by a collaborator. *)
Inductive exn : Type :=
| Error (message : string)
| TypeError (message : string)
| Foreign (message : string).

(** [err.message]. *)
Definition message_of (e : exn) : string :=
  match e with Error m | TypeError m | Foreign m => m end.

(** The outcome of a computation that may throw. *)
Inductive result (A : Type) : Type :=
| Ok (a : A)
| Throw (e : exn).
Arguments Ok {A} a.
Arguments Throw {A} e.

(* ===================================================================== *)
(** ** The provider boundary *)
(* ===================================================================== *)

(** One content part of a request: [{ text }] or [{ inlineData }]. The
    [data] of an inline part is [undefined] when it was split out of a string
    without a comma. *)
Inductive Part : Type :=
| TextPart (text : string)
| InlineDataPart (mimeType : string) (data : option string).

(** One historical turn of a request: [{ role, parts }]. *)
Record Turn : Type := mkTurn {
  turn_role : string;
  turn_parts : list Part
}.

(** What [chats.create] and [sendMessageStream] receive. *)
Record ChatRequest : Type := mkChatRequest {
  req_model : string;
  req_history : list Turn;
  req_message : list Part
}.

(** How a stream ends: the iterator is done, or it throws. *)
Inductive StreamEnd : Type :=
| Exhausted
| Broken (e : exn).

(** What the provider does with a chat request: it refuses it ([create]
    throws or [sendMessageStream] rejects), or it streams fragments, each
    with an optional text, up to the end of the stream. *)
Inductive ChatOutcome : Type :=
| Refused (e : exn)
| Streaming (fragments : list (option string)) (fin : StreamEnd).

(** An inline binary part of a response; both fields are optional there. *)
Record Blob : Type := mkBlob {
  blob_mimeType : option string;
  blob_data : option string
}.

(** One content part of a response. *)
Record ResponsePart : Type := mkResponsePart {
  part_text : option string;
  part_inlineData : option Blob
}.

(** The content of a candidate. *)
Record Content : Type := mkContent {
  content_parts : option (list ResponsePart)
}.

(** One candidate of a response. *)
Record Candidate : Type := mkCandidate {
  cand_content : option Content
}.

(** The response of [generateContent]. *)
Record ContentResponse : Type := mkContentResponse {
  resp_candidates : option (list Candidate)
}.

(** What a [fetch] of an attachment URL leads to: the request fails, the
    status is not a success, or the body is read and [FileReader] delivers
    its data URL ([null] when the read fails). *)
Inductive FetchOutcome : Type :=
| FetchRejects (e : exn)
| FetchStatus (statusText : string)
| FetchBody (blobType : string) (dataUrl : option string).

(** A [File]: its name and its bytes. *)
Record File : Type := mkFile {
  file_name : string;
  file_bytes : string
}.

(** What the blob store does with an upload: it stores the file, it answers
    with an error, or the call itself throws. *)
Inductive UploadOutcome : Type :=
| Uploaded
| UploadError (e : exn)
| UploadThrows (e : exn).

(** A configured adapter: the options handed to the provider client. *)
Record GeminiAdapter : Type := mkGeminiAdapter {
  adapter_apiKey : string;
  adapter_baseUrl : option string
}.

(** The collaborators of one send. *)
Record Env : Type := mkEnv {
  (** [process.env.API_KEY] *)
  env_API_KEY : option string;
  (** [fetch(url)] followed by the read of the body *)
  env_fetch : string -> FetchOutcome;
  (** [chats.create] and [sendMessageStream] *)
  env_chat : GeminiAdapter -> ChatRequest -> ChatOutcome;
  (** [models.generateImages]: the bytes of the first image, if any *)
  env_generateImages : GeminiAdapter -> string -> string -> result (option string);
  (** [models.generateContent] *)
  env_generateContent : GeminiAdapter -> string -> string -> result ContentResponse;
  (** [storage.upload(path, file)] *)
  env_upload : string -> File -> UploadOutcome;
  (** [storage.getPublicUrl(path)] *)
  env_publicUrl : string -> string;
  (** [Math.random()], printed *)
  env_random : string;
  (** [crypto.randomUUID()] *)
  env_randomUUID : string;
  (** [new Date().toISOString()] *)
  env_now : string;
  (** identifier and timestamp the store gives to its n-th row *)
  env_row_id : nat -> string;
  env_row_time : nat -> string
}.

(* ===================================================================== *)
(** ** The model adapter: [chatStream] ([services/aiAdapter.ts]) *)
(* ===================================================================== *)

Module AiAdapter.

(** [new GeminiAdapter(apiKey, baseUrl)]. *)
Definition newGeminiAdapter (apiKey : string) (baseUrl : option string)
  : GeminiAdapter :=
  {| adapter_apiKey := Js.or_else (Some apiKey) "MISSING_API_KEY";
     adapter_baseUrl :=
       if Js.truthy_opt baseUrl then baseUrl else None |}.

(** [getGeminiAdapter()]; the instance it caches is this one. *)
Definition getGeminiAdapter (env : Env) : GeminiAdapter :=
  newGeminiAdapter (Js.or_else (env_API_KEY env) "") None.

(** [header.match(/:(.*?);/)?.[1] || 'application/octet-stream'] on the
    fields of [s.split(',')]. *)
Definition inline_of_data_url (s : string) : Part :=
  let '(header, data) := Js.split_comma s in
  InlineDataPart (Js.or_else (Js.match_mime header) "application/octet-stream")
                 data.

(** [urlToInlineData(url)]: [null] on every failure. *)
Definition urlToInlineData (env : Env) (url : string) : option Part :=
  match env_fetch env url with
  | FetchRejects _ => None
  | FetchStatus _ => None
  | FetchBody blobType None => None
  | FetchBody blobType (Some base64) =>
      if negb (Js.truthy base64) || negb (Js.includes base64 ",")
      then None
      else
        let '(header, data) := Js.split_comma base64 in
        Some (InlineDataPart
                (Js.or_else (Js.match_mime header)
                   (Js.or_else (Some blobType) "application/octet-stream"))
                data)
  end.

(** The body of the loop over the attachments of a historical message. *)
Definition history_attachment (env : Env) (att : string) : list Part :=
  if Js.startsWith att "data:" then [inline_of_data_url att]
  else if Js.startsWith att "http" then
    match urlToInlineData env att with
    | Some p => [p]
    | None => []
    end
  else [].

(** The role a historical message gets. *)
Definition model_role (r : Role) : string :=
  match r with assistant => "model" | _ => "user" end.

(** The function mapped over [messages.slice(0, -1)]. *)
Definition history_turn (env : Env) (m : Message) : Turn :=
  {| turn_role := model_role (msg_role m);
     turn_parts :=
       TextPart (msg_content m)
       :: match msg_attachments m with
          | Some atts => flat_map (history_attachment env) atts
          | None => []
          end |}.

(** The body of the loop over the attachments of the last message. *)
Definition last_attachment (env : Env) (att : string) : list Part :=
  if Js.startsWith att "http" then
    match urlToInlineData env att with
    | Some p => [p]
    | None => []
    end
  else if Js.startsWith att "data:" then [inline_of_data_url att]
  else [].

(** [messageContent]: the text of the last message, then the new
    attachment or else the attachments recorded on the message. *)
Definition message_content (env : Env) (lastMessage : Message)
    (attachment : option string) : list Part :=
  TextPart (msg_content lastMessage)
  :: match attachment with
     | Some a =>
         if Js.truthy a then [inline_of_data_url a]
         else match msg_attachments lastMessage with
              | Some atts => flat_map (last_attachment env) atts
              | None => []
              end
     | None =>
         match msg_attachments lastMessage with
         | Some atts => flat_map (last_attachment env) atts
         | None => []
         end
     end.

(** The request [chatStream] composes before it opens the stream. With no
    message, [lastMessage] is [undefined] and reading its content throws. *)
Definition compose (env : Env) (messages : list Message)
    (modelName : string) (attachment : option string) : result ChatRequest :=
  let history := map (history_turn env) (removelast messages) in
  match messages with
  | [] =>
      Throw (TypeError "Cannot read properties of undefined (reading 'content')")
  | m :: rest =>
      Ok {| req_model := modelName;
            req_history := history;
            req_message := message_content env (last messages m) attachment |}
  end.

(** A callback runs on the state of its owner; it returns or throws. *)
Inductive completion (S : Type) : Type :=
| Returns (s : S)
| Throws (e : exn) (s : S).
Arguments Returns {S} s.
Arguments Throws {S} e s.

(** The three callbacks [chatStream] receives. *)
Record Callbacks (S : Type) : Type := mkCallbacks {
  onChunk : string -> S -> completion S;
  onComplete : S -> completion S;
  onError : exn -> S -> completion S
}.

(** One invocation of a callback by [chatStream]. *)
Inductive Call : Type :=
| CallChunk (chunk : string)
| CallComplete
| CallError (err : exn).

(** What an invocation of [chatStream] leaves: the callbacks it invoked,
    in order, the state of their owner, and how its promise settled. *)
Record Run (S : Type) : Type := mkRun {
  run_calls : list Call;
  run_state : S;
  run_settled : result unit
}.

Section ChatStream.
Variable S : Type.
Variable cb : Callbacks S.

(** [for await (const chunk of result) if (chunk.text) onChunk(chunk.text)],
    up to the end of the fragments or to a callback that throws. *)
Fixpoint for_await (fragments : list (option string)) (s : S)
  : list Call * completion S :=
  match fragments with
  | [] => ([], Returns s)
  | None :: rest => for_await rest s
  | Some text :: rest =>
      if Js.truthy text then
        match onChunk cb text s with
        | Returns s1 =>
            let '(calls, c) := for_await rest s1 in
            (CallChunk text :: calls, c)
        | Throws e s1 => ([CallChunk text], Throws e s1)
        end
      else for_await rest s
  end.

(** The [try] block up to, and without, the call of [onComplete]: it
    returns when the stream is exhausted and nothing has failed. *)
Definition try_block (env : Env) (adapter : GeminiAdapter)
    (messages : list Message) (modelName : string)
    (attachment : option string) (s : S) : list Call * completion S :=
  match compose env messages modelName attachment with
  | Throw e => ([], Throws e s)
  | Ok req =>
      match env_chat env adapter req with
      | Refused e => ([], Throws e s)
      | Streaming fragments fin =>
          match for_await fragments s with
          | (calls, Throws e s1) => (calls, Throws e s1)
          | (calls, Returns s1) =>
              match fin with
              | Exhausted => (calls, Returns s1)
              | Broken e => (calls, Throws e s1)
              end
          end
      end
  end.

(** The [catch] block: [onError(error)]; what it throws escapes. *)
Definition catch_block (calls : list Call) (error : exn) (s : S) : Run S :=
  match onError cb error s with
  | Returns s1 =>
      {| run_calls := calls ++ [CallError error];
         run_state := s1; run_settled := Ok tt |}
  | Throws e s1 =>
      {| run_calls := calls ++ [CallError error];
         run_state := s1; run_settled := Throw e |}
  end.

(** [chatStream(messages, modelName, onChunk, onComplete, onError,
    attachment)]. The call of [onComplete] is the last statement of the
    [try] block, so what it throws is caught too. *)
Definition chatStream (env : Env) (adapter : GeminiAdapter)
    (messages : list Message) (modelName : string)
    (attachment : option string) (s : S) : Run S :=
  match try_block env adapter messages modelName attachment s with
  | (calls, Returns s1) =>
      match onComplete cb s1 with
      | Returns s2 =>
          {| run_calls := calls ++ [CallComplete];
             run_state := s2; run_settled := Ok tt |}
      | Throws e s2 => catch_block (calls ++ [CallComplete]) e s2
      end
  | (calls, Throws e s1) => catch_block calls e s1
  end.

End ChatStream.

(** The inline reference a response part is re-encoded to:
    [`data:${inlineData.mimeType};base64,${inlineData.data}`]. *)
Definition inline_reference (b : Blob) : string :=
  ("data:" ++ Js.show (blob_mimeType b) ++ ";base64,"
   ++ Js.show (blob_data b))%string.

(** [part.inlineData && part.inlineData.data]. *)
Definition has_image (p : ResponsePart) : bool :=
  match part_inlineData p with
  | Some b => Js.truthy_opt (blob_data b)
  | None => false
  end.

(** The loop over the parts: the reference of the first part that carries
    image data, [None] when the loop ends without a [return]. *)
Fixpoint scan_parts (parts : list ResponsePart) : option string :=
  match parts with
  | [] => None
  | p :: rest =>
      match part_inlineData p with
      | Some b =>
          if Js.truthy_opt (blob_data b) then Some (inline_reference b)
          else scan_parts rest
      | None => scan_parts rest
      end
  end.

(** [parts[0]?.text], when it is truthy. *)
Definition first_text (parts : list ResponsePart) : option string :=
  match parts with
  | [] => None
  | p :: _ =>
      match part_text p with
      | Some t => if Js.truthy t then Some t else None
      | None => None
      end
  end.

Definition no_image_data : exn :=
  Error "No image data found in model response.".

(** The second half of [generateImage]: [generateContent] and the reading
    of its response. *)
Definition general_path (env : Env) (adapter : GeminiAdapter)
    (prompt modelName : string) : result string :=
  match env_generateContent env adapter modelName prompt with
  | Throw e => Throw e
  | Ok response =>
      match resp_candidates response with
      | Some (c :: _) =>
          match cand_content c with
          | None =>
              Throw (TypeError
                "Cannot read properties of undefined (reading 'parts')")
          | Some content =>
              match content_parts content with
              | None => Throw (TypeError "undefined is not iterable")
              | Some parts =>
                  match scan_parts parts with
                  | Some url => Ok url
                  | None =>
                      match first_text parts with
                      | Some text =>
                          if Js.includes (Js.toLowerCase text)
                               "cannot generate images"
                          then Throw (Error
                            ("This model (" ++ modelName
                             ++ ") does not support image generation. Please select 'gemini-2.5-flash-image' or an Imagen model in Admin settings.")%string)
                          else Throw (Error
                            ("Model returned text instead of image: "
                             ++ Js.substring0 100 text ++ "...")%string)
                      | None => Throw no_image_data
                      end
                  end
              end
          end
      | _ => Throw no_image_data
      end
  end.

(** [generateImage(prompt, modelName)]; the [catch] block logs and throws
    the same error again. For a name with the marker the image endpoint is
    tried first, and the general path follows when it gives no bytes. *)
Definition generateImage (env : Env) (adapter : GeminiAdapter)
    (prompt modelName : string) : result string :=
  if Js.includes modelName "imagen" then
    match env_generateImages env adapter modelName prompt with
    | Throw e => Throw e
    | Ok b64 =>
        if Js.truthy_opt b64
        then Ok ("data:image/jpeg;base64," ++ Js.show b64)%string
        else general_path env adapter prompt modelName
    end
  else general_path env adapter prompt modelName.

(** The texts [onChunk] is called with for a list of fragments: those
    that are there and not empty. *)
Definition fragment_texts (fragments : list (option string)) : list string :=
  flat_map
    (fun f => match f with
              | Some text => if Js.truthy text then [text] else []
              | None => []
              end)
    fragments.

(** Counting the invocations of a run. *)
Definition is_chunk (c : Call) : bool :=
  match c with CallChunk _ => true | _ => false end.
Definition is_complete (c : Call) : bool :=
  match c with CallComplete => true | _ => false end.
Definition is_error (c : Call) : bool :=
  match c with CallError _ => true | _ => false end.
Definition count (p : Call -> bool) (calls : list Call) : nat :=
  length (filter p calls).

End AiAdapter.

(* ===================================================================== *)
(** ** The other revision of [generateImage] (the second [aiAdapter.ts]) *)
(* ===================================================================== *)

(** The file is the same up to [generateImage], which here reads the marker
    without regard to case, stops when the image endpoint gives no bytes,
    reads the response defensively and words its errors differently. *)
Module AiAdapterRev.

Import AiAdapter.

Definition no_image_bytes : exn :=
  Error "Imagen model did not return image bytes.".

Definition no_image_data : exn :=
  Error "No image data found in model response. Please check if the selected model supports image generation.".

Definition general_path (env : Env) (adapter : GeminiAdapter)
    (prompt modelName : string) : result string :=
  match env_generateContent env adapter modelName prompt with
  | Throw e => Throw e
  | Ok response =>
      match resp_candidates response with
      | Some (c :: _) =>
          match cand_content c with
          | Some content =>
              match content_parts content with
              | Some parts =>
                  match scan_parts parts with
                  | Some url => Ok url
                  | None =>
                      match first_text parts with
                      | Some text =>
                          if Js.includes (Js.toLowerCase text)
                               "cannot generate images"
                             || Js.includes (Js.toLowerCase text)
                                  "unable to generate"
                          then Throw (Error
                            ("Model '" ++ modelName
                             ++ "' declined image generation. Response: "
                             ++ text)%string)
                          else Throw (Error
                            ("Model returned text instead of image: "
                             ++ Js.substring0 100 text ++ "...")%string)
                      | None => Throw no_image_data
                      end
                  end
              | None => Throw no_image_data
              end
          | None => Throw no_image_data
          end
      | _ => Throw no_image_data
      end
  end.

Definition generateImage (env : Env) (adapter : GeminiAdapter)
    (prompt modelName : string) : result string :=
  if Js.includes (Js.toLowerCase modelName) "imagen" then
    match env_generateImages env adapter modelName prompt with
    | Throw e => Throw e
    | Ok b64 =>
        if Js.truthy_opt b64
        then Ok ("data:image/jpeg;base64," ++ Js.show b64)%string
        else Throw no_image_bytes
    end
  else general_path env adapter prompt modelName.

End AiAdapterRev.

(* ===================================================================== *)
(** ** The remote store and [services/chatService.ts] *)
(* ===================================================================== *)

(** The tables behind the store client. Rows are kept in the order of their
    creation, which is the order of their [created_at]. Every request takes
    the next entry of [db_faults]: an error the store answers that request
    with, or nothing (also when the list is used up). *)
Module Store.

Record Db : Type := mkDb {
  db_messages : list Message;
  db_conversations : list Conversation;
  db_rows : nat;
  db_faults : list (option exn)
}.

(** The answer of the store to the next request. *)
Definition take_fault (db : Db) : option exn * Db :=
  match db_faults db with
  | [] => (None, db)
  | f :: rest =>
      (f, {| db_messages := db_messages db;
             db_conversations := db_conversations db;
             db_rows := db_rows db;
             db_faults := rest |})
  end.

(** [from('messages').insert(row).select().single()]. *)
Definition insert_message (env : Env) (row : NewMessage) (db : Db)
  : result Message * Db :=
  let '(fault, db1) := take_fault db in
  match fault with
  | Some e => (Throw e, db1)
  | None =>
      let data :=
        {| msg_id := env_row_id env (db_rows db1);
           msg_conversation_id := new_conversation_id row;
           msg_role := new_role row;
           msg_content := new_content row;
           msg_image_url := new_image_url row;
           msg_attachments := new_attachments row;
           msg_created_at := env_row_time env (db_rows db1) |} in
      (Ok data,
       {| db_messages := db_messages db1 ++ [data];
          db_conversations := db_conversations db1;
          db_rows := S (db_rows db1);
          db_faults := db_faults db1 |})
  end.

(** [from('conversations').insert({ user_id, title }).select().single()]. *)
Definition insert_conversation (env : Env) (userId title : string) (db : Db)
  : result Conversation * Db :=
  let '(fault, db1) := take_fault db in
  match fault with
  | Some e => (Throw e, db1)
  | None =>
      let data :=
        {| conv_id := env_row_id env (db_rows db1);
           conv_user_id := userId;
           conv_title := title;
           conv_created_at := env_row_time env (db_rows db1);
           conv_updated_at := env_row_time env (db_rows db1) |} in
      (Ok data,
       {| db_messages := db_messages db1;
          db_conversations := db_conversations db1 ++ [data];
          db_rows := S (db_rows db1);
          db_faults := db_faults db1 |})
  end.

(** [from('conversations').update({ updated_at }).eq('id', id)]; the
    caller does not look at the answer. *)
Definition touch_conversation (updated_at id : string) (db : Db) : Db :=
  let '(fault, db1) := take_fault db in
  match fault with
  | Some _ => db1
  | None =>
      {| db_messages := db_messages db1;
         db_conversations :=
           map (fun c =>
                  if String.eqb (conv_id c) id
                  then {| conv_id := conv_id c;
                          conv_user_id := conv_user_id c;
                          conv_title := conv_title c;
                          conv_created_at := conv_created_at c;
                          conv_updated_at := updated_at |}
                  else c)
               (db_conversations db1);
         db_rows := db_rows db1;
         db_faults := db_faults db1 |}
  end.

(** [from('messages').select('*').eq('conversation_id', id)
    .order('created_at', { ascending: true })]. *)
Definition select_messages (id : string) (db : Db)
  : result (list Message) * Db :=
  let '(fault, db1) := take_fault db in
  match fault with
  | Some e => (Throw e, db1)
  | None =>
      (Ok (filter (fun m => String.eqb (msg_conversation_id m) id)
             (db_messages db1)),
       db1)
  end.

End Store.

Module ChatService.

Import Store.

(** [createConversation(userId, title)]. *)
Definition createConversation (env : Env) (userId title : string) (db : Db)
  : result Conversation * Db :=
  insert_conversation env userId title db.

(** [getMessages(conversationId)]. *)
Definition getMessages (conversationId : string) (db : Db)
  : result (list Message) * Db :=
  select_messages conversationId db.

(** [addMessage(msg)]: one row is inserted, then the conversation of the
    message gets a new update time. *)
Definition addMessage (env : Env) (msg : NewMessage) (db : Db)
  : result Message * Db :=
  match insert_message env msg db with
  | (Throw e, db1) => (Throw e, db1)
  | (Ok data, db1) =>
      (Ok data, touch_conversation (env_now env) (new_conversation_id msg) db1)
  end.

End ChatService.

(* ===================================================================== *)
(** ** The send orchestrator: [handleSendMessage] ([App.tsx]) *)
(* ===================================================================== *)

Module App.

Import Store AiAdapter.

(** The part of the session the orchestrator reads. *)
Record Session : Type := mkSession {
  session_user_id : string;
  session_user_email : option string
}.

(** What the orchestrator asks of its collaborators, in order. *)
Inductive Event : Type :=
| EvAlert (text : string)
| EvCreateConversation (userId title : string)
| EvUpload (filePath : string) (file : File)
| EvAddMessage (msg : NewMessage)
| EvGetMessages (conversationId : string)
| EvChatStream (adapter : GeminiAdapter) (context : list Message)
    (modelName : string) (attachment : option string)
| EvGenerateImage (adapter : GeminiAdapter) (prompt modelName : string).

(** The state of the component, with the remote store next to it. The
    last two fields only record: every value the transcript took, and
    every request made. *)
Record AppState : Type := mkAppState {
  session : option Session;
  conversations : list Conversation;
  currentConversationId : option string;
  messages : list Message;
  isLoading : bool;
  providers : list AIProvider;
  db : Db;
  transcripts : list (list Message);
  trace : list Event
}.

Definition setConversations (f : list Conversation -> list Conversation)
    (st : AppState) : AppState :=
  mkAppState (session st) (f (conversations st)) (currentConversationId st)
    (messages st) (isLoading st) (providers st) (db st) (transcripts st)
    (trace st).

Definition setCurrentConversationId (id : option string) (st : AppState)
  : AppState :=
  mkAppState (session st) (conversations st) id (messages st) (isLoading st)
    (providers st) (db st) (transcripts st) (trace st).

(** [setMessages(prev => f(prev))]: the update is applied at once. *)
Definition setMessages (f : list Message -> list Message) (st : AppState)
  : AppState :=
  mkAppState (session st) (conversations st) (currentConversationId st)
    (f (messages st)) (isLoading st) (providers st) (db st)
    (transcripts st ++ [f (messages st)]) (trace st).

Definition setIsLoading (b : bool) (st : AppState) : AppState :=
  mkAppState (session st) (conversations st) (currentConversationId st)
    (messages st) b (providers st) (db st) (transcripts st) (trace st).

Definition set_db (d : Db) (st : AppState) : AppState :=
  mkAppState (session st) (conversations st) (currentConversationId st)
    (messages st) (isLoading st) (providers st) d (transcripts st) (trace st).

Definition log (ev : Event) (st : AppState) : AppState :=
  mkAppState (session st) (conversations st) (currentConversationId st)
    (messages st) (isLoading st) (providers st) (db st) (transcripts st)
    (trace st ++ [ev]).

(** Computations of the component: they change the state and end in a
    value or in an exception. *)
Definition M (A : Type) : Type := AppState -> result A * AppState.

Definition ret {A : Type} (a : A) : M A := fun st => (Ok a, st).

Definition bind {A B : Type} (c : M A) (k : A -> M B) : M B :=
  fun st =>
    match c st with
    | (Ok a, st1) => k a st1
    | (Throw e, st1) => (Throw e, st1)
    end.

Notation "x <- c ;; k" := (bind c (fun x => k))
  (at level 61, c at next level, right associativity).
Notation "c ;; k" := (bind c (fun _ => k))
  (at level 61, right associativity).

(** A state change that cannot throw. *)
Definition act (f : AppState -> AppState) : M unit :=
  fun st => (Ok tt, f st).

(** [try { body } catch (err) { handler }]. *)
Definition try_catch {A : Type} (body : M A) (handler : exn -> M A) : M A :=
  fun st =>
    match body st with
    | (Ok a, st1) => (Ok a, st1)
    | (Throw e, st1) => handler e st1
    end.

(** [try { body } finally { fin }] for a [fin] that cannot throw. *)
Definition finally {A : Type} (body : M A) (fin : AppState -> AppState)
  : M A :=
  fun st => let '(r, st1) := body st in (r, fin st1).

(** The calls of [chatService], on the store of the state. *)
Definition createConversation (env : Env) (userId title : string)
  : M Conversation :=
  fun st =>
    let '(r, d) := ChatService.createConversation env userId title (db st) in
    (r, set_db d (log (EvCreateConversation userId title) st)).

Definition addMessage (env : Env) (msg : NewMessage) : M Message :=
  fun st =>
    let '(r, d) := ChatService.addMessage env msg (db st) in
    (r, set_db d (log (EvAddMessage msg) st)).

Definition getMessages (conversationId : string) : M (list Message) :=
  fun st =>
    let '(r, d) := ChatService.getMessages conversationId (db st) in
    (r, set_db d (log (EvGetMessages conversationId) st)).

(** [loadMessages(id)]: a failure is logged and nothing else. *)
Definition loadMessages (id : string) : M unit :=
  try_catch
    (msgs <- getMessages id ;;
     act (setMessages (fun _ => msgs)))
    (fun _ => ret tt).

(** The effect of the component on [currentConversationId], the
    [useEffect] of App.tsx 99-105:
    [if (currentConversationId) loadMessages(currentConversationId);
     else setMessages([])]. *)
Definition conversation_effect : M unit :=
  fun st =>
    if Js.truthy_opt (currentConversationId st)
    then loadMessages (Js.show (currentConversationId st)) st
    else act (setMessages (fun _ => [])) st.

(** Whether two values of the identifier are the same to React, which
    compares the dependencies of an effect with [Object.is]. *)
Definition same_id (a b : option string) : bool :=
  match a, b with
  | Some x, Some y => String.eqb x y
  | None, None => true
  | _, _ => false
  end.

(** What React adds to a handler that was called with the identifier
    [before]: the effect runs, once, after the render that follows a change
    of the identifier, and not at all when the identifier is the same. *)
Definition effect_on_change (before : option string) : M unit :=
  fun st =>
    if same_id before (currentConversationId st) then (Ok tt, st)
    else conversation_effect st.

(** [chatService.addMessage(msg)] as a handler waits for it. The call makes
    two requests, the second after the answer to the first; [meanwhile] is
    what else the component runs between the two answers (its outcome is
    none of the caller's). *)
Definition addMessage_meanwhile (env : Env) (msg : NewMessage)
    (meanwhile : M unit) : M Message :=
  fun st =>
    let st0 := log (EvAddMessage msg) st in
    match insert_message env msg (db st0) with
    | (Throw e, d) => (Throw e, snd (meanwhile (set_db d st0)))
    | (Ok data, d) =>
        let st1 := snd (meanwhile (set_db d st0)) in
        (Ok data,
         set_db
           (touch_conversation (env_now env) (new_conversation_id msg)
              (db st1))
           st1)
    end.

(** The quotation mark of the image caption. *)
Definition quote : string := String "034" EmptyString.

(** The line feed of the error annotation. *)
Definition newline : string := String "010" EmptyString.

(** [{ ...m, content }]. *)
Definition with_content (m : Message) (content : string) : Message :=
  mkMessage (msg_id m) (msg_conversation_id m) (msg_role m) content
    (msg_image_url m) (msg_attachments m) (msg_created_at m).

(** [prev.map(m => m.id === id ? { ...m, content } : m)]. *)
Definition replace_content (id content : string) (prev : list Message)
  : list Message :=
  map (fun m => if String.eqb (msg_id m) id then with_content m content else m)
      prev.

(** [prev.map(m => m.id === id ? by : m)]. *)
Definition replace_message (id : string) (by_ : Message)
    (prev : list Message) : list Message :=
  map (fun m => if String.eqb (msg_id m) id then by_ else m) prev.

(** [if (!convId)]: a conversation is created when none is selected. The
    new identifier is not the one of the last render: the effect on the
    identifier is due, and [handleSendMessage] lets it run as it waits for
    its next request. *)
Definition ensure_conversation (env : Env) (sess : Session) (text : string)
    (current : option string) : M string :=
  if Js.truthy_opt current then ret (Js.show current)
  else
    newConv <- createConversation env (session_user_id sess)
                 (Js.substring0 30 text) ;;
    act (setConversations (fun prev => newConv :: prev)) ;;
    act (setCurrentConversationId (Some (conv_id newConv))) ;;
    ret (conv_id newConv).

(** Whether a request is one of the two generation calls. *)
Definition is_generation (ev : Event) : bool :=
  match ev with
  | EvChatStream _ _ _ _ => true
  | EvGenerateImage _ _ _ => true
  | _ => false
  end.

(** Step 1: the upload of the attachment; the reference of the message is
    the public URL, or the preview when the upload fails. *)
Definition upload_attachment (env : Env) (sess : Session)
    (attachmentFile : option File) (attachmentPreview : option string)
  : M (option string) :=
  match attachmentFile with
  | None => ret None
  | Some file =>
      let fileExt := Js.last_field "." (file_name file) in
      let fileName := (env_random env ++ "." ++ fileExt)%string in
      let filePath := (session_user_id sess ++ "/" ++ fileName)%string in
      fun st =>
        let st1 := log (EvUpload filePath file) st in
        match env_upload env filePath file with
        | Uploaded => (Ok (Some (env_publicUrl env filePath)), st1)
        | UploadError _ => (Ok attachmentPreview, st1)
        | UploadThrows _ => (Ok attachmentPreview, st1)
        end
  end.

(** [uploadedUrl ? [uploadedUrl] : undefined]. *)
Definition attachments_of (uploadedUrl : option string)
  : option (list string) :=
  match uploadedUrl with
  | Some u => if Js.truthy u then Some [u] else None
  | None => None
  end.

(** The adapter of the send: one of its own for a provider with a key or
    an endpoint, the shared one otherwise. *)
Definition adapter_for (env : Env) (p : AIProvider) : GeminiAdapter :=
  if Js.truthy_opt (prov_api_key p) || Js.truthy_opt (prov_endpoint p)
  then newGeminiAdapter
         (Js.or_else (prov_api_key p) (Js.or_else (env_API_KEY env) ""))
         (prov_endpoint p)
  else getGeminiAdapter env.

(** Step 3, image mode. *)
Definition image_mode (env : Env) (adapter : GeminiAdapter)
    (convId text modelName : string) : M unit :=
  finally
    (try_catch
       (placeholderMsg <- addMessage env
          (mkNewMessage convId assistant "Generating image..." None None) ;;
        act (setMessages (fun prev => prev ++ [placeholderMsg])) ;;
        imageUrl <- (fun st =>
          (generateImage env adapter text modelName,
           log (EvGenerateImage adapter text modelName) st)) ;;
        imgMsg <- addMessage env
          (mkNewMessage convId assistant
             ("Here is your image for: " ++ quote ++ text ++ quote)%string
             (Some imageUrl) None) ;;
        act (setMessages (replace_message (msg_id placeholderMsg) imgMsg)))
       (fun err =>
          addMessage env
            (mkNewMessage convId assistant
               ("Failed to generate image. Error: " ++ message_of err)%string
               None None) ;;
          loadMessages convId))
    (setIsLoading false).

(** The state the callbacks of a chat send share: the component and the
    variable [streamContent]. *)
Definition ChatState : Type := (AppState * string)%type.

(** The callbacks [handleSendMessage] hands to [chatStream]. The second
    one is an [async] function: calling it never throws, and what fails
    inside it is lost with its promise. *)
Definition chat_callbacks (env : Env) (convId assistantMsgId : string)
  : Callbacks ChatState :=
  {| onChunk := fun chunk s =>
       let streamContent := (snd s ++ chunk)%string in
       Returns
         (setMessages (replace_content assistantMsgId streamContent) (fst s),
          streamContent);
     onComplete := fun s =>
       Returns
         (snd ((addMessage env
                  (mkNewMessage convId assistant (snd s) None None) ;;
                loadMessages convId ;;
                act (setIsLoading false)) (fst s)),
          snd s);
     onError := fun err s =>
       Returns
         (setMessages
            (replace_content assistantMsgId
               (snd s ++ newline ++ newline ++ "[Error: "
                ++ Js.or_else (Some (message_of err)) "Check configuration"
                ++ "]")%string)
            (setIsLoading false (fst s)),
          snd s) |}.

(** Step 3, chat mode. [context] is [[...messages, userMsg]] with the
    transcript the component had when the send started. *)
Definition chat_mode (env : Env) (adapter : GeminiAdapter)
    (convId modelName : string) (context : list Message)
    (attachmentPreview : option string) : M unit :=
  fun st =>
    let assistantMsgId := env_randomUUID env in
    let optimisticMsg :=
      mkMessage assistantMsgId convId assistant "" None None (env_now env) in
    let st1 := setMessages (fun prev => prev ++ [optimisticMsg]) st in
    let st2 :=
      log (EvChatStream adapter context modelName attachmentPreview) st1 in
    let run :=
      chatStream (chat_callbacks env convId assistantMsgId) env adapter
        context modelName attachmentPreview (st2, EmptyString) in
    (run_settled run, fst (run_state run)).

(** Step 3: the response, by the category of the provider. *)
Definition process_response (env : Env) (selectedProvider : AIProvider)
    (convId text : string) (context : list Message)
    (attachmentPreview : option string) : M unit :=
  let modelName :=
    Js.or_else (Some (prov_model_name selectedProvider)) "gemini-2.5-flash" in
  let adapter := adapter_for env selectedProvider in
  match prov_category selectedProvider with
  | Some IMAGE => image_mode env adapter convId text modelName
  | _ => chat_mode env adapter convId modelName context attachmentPreview
  end.

(** [handleSendMessage(text, providerId, attachmentFile, attachmentPreview)].

    When the handler has opened a new conversation, React renders as the
    handler waits for the answer to its next request, and the effect on the
    identifier runs then: its reload is asked of the store after that
    request and before the one the handler makes next, and the store answers
    requests in the order they are made. With a file that request is the
    upload; without one it is the insertion of the user message, the first
    of the two requests of [addMessage]. *)
Definition handleSendMessage (env : Env) (text providerId : string)
    (attachmentFile : option File) (attachmentPreview : option string)
  : M unit :=
  fun st =>
    match session st with
    | None => (Ok tt, st)
    | Some sess =>
        match find (fun p => String.eqb (prov_id p) providerId)
                   (providers st) with
        | None =>
            (Ok tt,
             log (EvAlert "Please select a valid AI Model from the list, or configure one in the Admin panel.") st)
        | Some selectedProvider =>
            let reload := effect_on_change (currentConversationId st) in
            (convId <-
               ensure_conversation env sess text (currentConversationId st) ;;
             uploadedUrl <-
               upload_attachment env sess attachmentFile attachmentPreview ;;
             match attachmentFile with
             | Some _ => reload
             | None => ret tt
             end ;;
             userMsg <- addMessage_meanwhile env
               (mkNewMessage convId user text None
                  (attachments_of uploadedUrl))
               match attachmentFile with
               | Some _ => ret tt
               | None => reload
               end ;;
             act (setMessages (fun prev => prev ++ [userMsg])) ;;
             act (setIsLoading true) ;;
             process_response env selectedProvider convId text
               (messages st ++ [userMsg]) attachmentPreview) st
        end
    end.

(** The store only gains rows and the record of requests only grows
    between two states. *)
Definition grows (st st' : AppState) : Prop :=
  (exists extra, db_messages (db st') = db_messages (db st) ++ extra)
  /\ (exists more, trace st' = trace st ++ more).

(** A computation under which the store and the record only grow. *)
Definition growing {A : Type} (c : M A) : Prop :=
  forall st, grows st (snd (c st)).

End App.

(* ===================================================================== *)
(** ** Sample collaborators and inputs *)
(* ===================================================================== *)

Module Scenario.

Import Store AiAdapter App.

(** The n-th row of the sample store is called [row-n]. *)
Definition row_label (n : nat) : string :=
  ("row-" ++ NilZero.string_of_uint (Nat.to_uint n))%string.

(** Collaborators that answer every request the same way. *)
Definition env_of (chat : ChatOutcome) (images : result (option string))
    (generated : result ContentResponse) (upload : UploadOutcome) : Env :=
  {| env_API_KEY := Some "key";
     env_fetch := fun _ => FetchStatus "Not Found";
     env_chat := fun _ _ => chat;
     env_generateImages := fun _ _ _ => images;
     env_generateContent := fun _ _ _ => generated;
     env_upload := fun _ _ => upload;
     env_publicUrl := fun path => ("https://blobs.example/" ++ path)%string;
     env_random := "0.42";
     env_randomUUID := "local-1";
     env_now := "2025-01-01T00:00:00.000Z";
     env_row_id := row_label;
     env_row_time := fun n => ("t" ++ NilZero.string_of_uint (Nat.to_uint n))%string |}.

(** A provider that streams the three fragments of the greeting. *)
Definition greeting : ChatOutcome :=
  Streaming [Some "Hi"; Some " there"; Some "!"] Exhausted.

Definition no_candidates : result ContentResponse :=
  Ok {| resp_candidates := None |}.

(** A response with one candidate made of [parts]. *)
Definition response_of (parts : list ResponsePart) : ContentResponse :=
  {| resp_candidates :=
       Some [ {| cand_content := Some {| content_parts := Some parts |} |} ] |}.

Definition text_part (t : string) : ResponsePart :=
  {| part_text := Some t; part_inlineData := None |}.

Definition image_part (mime data : string) : ResponsePart :=
  {| part_text := None;
     part_inlineData :=
       Some {| blob_mimeType := Some mime; blob_data := Some data |} |}.

Definition chat_env : Env :=
  env_of greeting (Ok None) no_candidates Uploaded.

Definition an_adapter : GeminiAdapter := getGeminiAdapter chat_env.

Definition hello : Message :=
  mkMessage "m-1" "conv-1" user "Hello" None None "2024-12-31T23:59:00.000Z".

Definition answer : Message :=
  mkMessage "m-2" "conv-1" assistant "Hello, how can I help?" None None
    "2024-12-31T23:59:05.000Z".

Definition note : Message :=
  mkMessage "m-3" "conv-1" system "Be brief." None None
    "2024-12-31T23:59:10.000Z".

(** A provider of the chat category and one of the image category. *)
Definition chat_provider : AIProvider :=
  mkAIProvider "p-chat" "Flash" None None (Some CHAT) "gemini-2.5-flash" true.

Definition image_provider : AIProvider :=
  mkAIProvider "p-image" "Flash Image" None None (Some IMAGE)
    "gemini-2.5-flash-image" true.

Definition a_session : Session := mkSession "u-1" (Some "ann@example.org").

(** The component with the conversation "conv-1" open and one exchange in
    it, over a store that holds the same and answers every request. *)
Definition start : AppState :=
  mkAppState (Some a_session)
    [mkConversation "conv-1" "u-1" "Hello" "2024-12-31T23:59:00.000Z"
       "2024-12-31T23:59:05.000Z"]
    (Some "conv-1") [hello; answer] false [chat_provider; image_provider]
    (mkDb [hello; answer]
       [mkConversation "conv-1" "u-1" "Hello" "2024-12-31T23:59:00.000Z"
          "2024-12-31T23:59:05.000Z"]
       3 [])
    [] [].

(** Collaborators whose content endpoint answers with one picture. *)
Definition image_env : Env :=
  env_of greeting (Ok None)
    (Ok (response_of [image_part "image/png" "iVBORw0KGgo="])) Uploaded.

(** Collaborators whose blob store refuses the upload. *)
Definition no_upload_env : Env :=
  env_of greeting (Ok None) no_candidates (UploadError (Foreign "quota")).

Definition a_file : File := mkFile "kite.png" "PNG...".

Definition a_preview : string := "data:image/png;base64,iVBORw0KGgo=".

(** Callbacks that do nothing. *)
Definition quiet : Callbacks unit :=
  {| onChunk := fun _ s => Returns s;
     onComplete := fun s => Returns s;
     onError := fun _ s => Returns s |}.

(** Callbacks whose [onComplete] throws. *)
Definition failing_onComplete : Callbacks unit :=
  {| onChunk := fun _ s => Returns s;
     onComplete := fun s => Throws (Error "render failed") s;
     onError := fun _ s => Returns s |}.

End Scenario.

(* ===================================================================== *)
(** ** More string primitives *)
(* ===================================================================== *)

Module JsMore.

(** [s.indexOf(c)]; [None] stands for -1. *)
Fixpoint indexOf (c : ascii) (s : string) : option nat :=
  match s with
  | EmptyString => None
  | String d rest =>
      if Ascii.eqb d c then Some 0 else option_map S (indexOf c rest)
  end.

(** [s.substring(a, b)] where [b] may be -1: a negative bound counts as 0
    and the bounds are swapped when the first is the larger. *)
Definition substring (a : nat) (b : option nat) (s : string) : string :=
  let b0 := match b with Some n => n | None => 0 end in
  String.substring (Nat.min a b0) (Nat.max a b0 - Nat.min a b0) s.

(** [s.split(sep)[1]]: the second field, when there is a separator. *)
Definition second_field (sep : ascii) (s : string) : option string :=
  option_map (Js.before sep) (Js.after sep s).

End JsMore.

(* ===================================================================== *)
(** ** The helpers of the message view ([MessageItem.tsx]) *)
(* ===================================================================== *)

Module MessageView.

Definition image_extensions : list string :=
  ["jpg"; "jpeg"; "png"; "gif"; "webp"; "bmp"; "svg"; "ico"; "tiff"].

(** [isImage(url)]: whether an attachment is shown as a picture. *)
Definition isImage (url : string) : bool :=
  if Js.startsWith url "data:image" then true
  else if Js.startsWith url "data:" then false
  else existsb (String.eqb (Js.toLowerCase (Js.last_field "." url)))
         image_extensions.

(** [getFileName(url)]: the label of an attachment that is no picture.
    [decodeURIComponent] is the function of the runtime. *)
Definition getFileName (decodeURIComponent : string -> string) (url : string)
  : string :=
  if Js.startsWith url "data:" then
    let mime := JsMore.substring 5 (JsMore.indexOf ";" url) url in
    let ext := Js.or_else (JsMore.second_field "/" mime) "file" in
    ("file." ++ ext)%string
  else
    decodeURIComponent
      (Js.or_else (Some (Js.before "?" (Js.last_field "/" url))) "Attachment").

End MessageView.

(* ===================================================================== *)
(** ** The other operations of [services/chatService.ts] *)
(* ===================================================================== *)

Module Repository.

Import Store.

(** [updateConversationTitle(id, title)]. *)
Definition updateConversationTitle (id title : string) (db : Db)
  : result unit * Db :=
  let '(fault, db1) := take_fault db in
  match fault with
  | Some e => (Throw e, db1)
  | None =>
      (Ok tt,
       {| db_messages := db_messages db1;
          db_conversations :=
            map (fun c =>
                   if String.eqb (conv_id c) id
                   then {| conv_id := conv_id c;
                           conv_user_id := conv_user_id c;
                           conv_title := title;
                           conv_created_at := conv_created_at c;
                           conv_updated_at := conv_updated_at c |}
                   else c)
                (db_conversations db1);
          db_rows := db_rows db1;
          db_faults := db_faults db1 |})
  end.

(** [deleteConversation(id)]: the messages of the conversation first, then
    the conversation; each of the two requests may fail. *)
Definition deleteConversation (id : string) (db : Db) : result unit * Db :=
  let '(fault1, db1) := take_fault db in
  match fault1 with
  | Some msgError => (Throw msgError, db1)
  | None =>
      let db2 :=
        {| db_messages :=
             filter (fun m => negb (String.eqb (msg_conversation_id m) id))
                    (db_messages db1);
           db_conversations := db_conversations db1;
           db_rows := db_rows db1;
           db_faults := db_faults db1 |} in
      let '(fault2, db3) := take_fault db2 in
      match fault2 with
      | Some error => (Throw error, db3)
      | None =>
          (Ok tt,
           {| db_messages := db_messages db3;
              db_conversations :=
                filter (fun c => negb (String.eqb (conv_id c) id))
                       (db_conversations db3);
              db_rows := db_rows db3;
              db_faults := db_faults db3 |})
      end
  end.

(** [deleteMessage(id)]. *)
Definition deleteMessage (id : string) (db : Db) : result unit * Db :=
  let '(fault, db1) := take_fault db in
  match fault with
  | Some e => (Throw e, db1)
  | None =>
      (Ok tt,
       {| db_messages :=
            filter (fun m => negb (String.eqb (msg_id m) id)) (db_messages db1);
          db_conversations := db_conversations db1;
          db_rows := db_rows db1;
          db_faults := db_faults db1 |})
  end.

End Repository.

(* ===================================================================== *)
(** ** Provider management ([services/chatService.ts]) *)
(* ===================================================================== *)

Module Providers.

(** A digit of the class [[0-9a-f]] read without regard to case. *)
Definition is_hex (c : ascii) : bool :=
  let n := nat_of_ascii c in
  ((48 <=? n) && (n <=? 57) || (97 <=? n) && (n <=? 102)
   || (65 <=? n) && (n <=? 70))%nat.

(** [[0-9a-f]{n}] at the head of [s]: what follows it. *)
Fixpoint hex_run (n : nat) (s : string) : option string :=
  match n with
  | 0 => Some s
  | S k =>
      match s with
      | EmptyString => None
      | String c rest => if is_hex c then hex_run k rest else None
      end
  end.

(** A hyphen at the head of [s]: what follows it. *)
Definition dash (s : string) : option string :=
  match s with
  | EmptyString => None
  | String c rest => if Ascii.eqb c "-" then Some rest else None
  end.

(** The groups of [lens] at the head of [s], hyphens between them, up to
    the end of [s]. *)
Fixpoint hex_groups (lens : list nat) (s : string) : bool :=
  match lens with
  | [] => false
  | [n] =>
      match hex_run n s with
      | Some EmptyString => true
      | _ => false
      end
  | n :: more =>
      match hex_run n s with
      | Some rest =>
          match dash rest with
          | Some rest1 => hex_groups more rest1
          | None => false
          end
      | None => false
      end
  end.

(** [isValidUUID(uuid)]: the test of
    [/^[0-9a-f]{8}-[0-9a-f]{4}-[0-9a-f]{4}-[0-9a-f]{4}-[0-9a-f]{12}$/i]. *)
Definition isValidUUID (uuid : string) : bool :=
  hex_groups [8; 4; 4; 4; 12] uuid.

(** The table of provider configurations, each row with its owner, in the
    order of creation; requests take their answers from [pdb_faults] as
    those of the message store do. *)
Record ProviderDb : Type := mkProviderDb {
  pdb_rows : list (string * AIProvider);
  pdb_count : nat;
  pdb_faults : list (option exn)
}.

Definition take_fault (db : ProviderDb) : option exn * ProviderDb :=
  match pdb_faults db with
  | [] => (None, db)
  | f :: rest => (f, mkProviderDb (pdb_rows db) (pdb_count db) rest)
  end.

(** [x || null] on an optional string. *)
Definition or_null (x : option string) : option string :=
  if Js.truthy_opt x then x else None.

(** [getProviders(userId)]: the rows of the user; nothing on any failure. *)
Definition getProviders (userId : string) (db : ProviderDb)
  : list AIProvider * ProviderDb :=
  let '(fault, db1) := take_fault db in
  match fault with
  | Some _ => ([], db1)
  | None =>
      (map snd
         (filter (fun row => String.eqb (fst row) userId) (pdb_rows db1)),
       db1)
  end.

(** [saveProvider(provider, userId, id)]: an update of the rows with that
    identifier when it is there, is no temporary one and is a UUID; an
    insert otherwise. The update leaves the owner and the identifier. *)
Definition saveProvider (env : Env) (provider : AIProvider)
    (userId : string) (id : option string) (db : ProviderDb)
  : result unit * ProviderDb :=
  let stored (rowId : string) : AIProvider :=
    {| prov_id := rowId;
       prov_name := prov_name provider;
       prov_api_key := or_null (prov_api_key provider);
       prov_endpoint := or_null (prov_endpoint provider);
       prov_category := prov_category provider;
       prov_model_name := prov_model_name provider;
       prov_is_active := prov_is_active provider |} in
  let '(fault, db1) := take_fault db in
  if Js.truthy_opt id
     && negb (Js.startsWith (Js.show id) "temp-")
     && isValidUUID (Js.show id)
  then
    match fault with
    | Some e => (Throw e, db1)
    | None =>
        (Ok tt,
         mkProviderDb
           (map (fun row =>
                   if String.eqb (prov_id (snd row)) (Js.show id)
                   then (fst row, stored (prov_id (snd row)))
                   else row)
                (pdb_rows db1))
           (pdb_count db1) (pdb_faults db1))
    end
  else
    match fault with
    | Some e => (Throw e, db1)
    | None =>
        (Ok tt,
         mkProviderDb
           (pdb_rows db1 ++ [(userId, stored (env_row_id env (pdb_count db1)))])
           (S (pdb_count db1)) (pdb_faults db1))
    end.

(** [deleteProvider(id)]: nothing is asked for an identifier that is no
    UUID. *)
Definition deleteProvider (id : string) (db : ProviderDb)
  : result unit * ProviderDb :=
  if negb (isValidUUID id) then (Ok tt, db)
  else
    let '(fault, db1) := take_fault db in
    match fault with
    | Some e => (Throw e, db1)
    | None =>
        (Ok tt,
         mkProviderDb
           (filter (fun row => negb (String.eqb (prov_id (snd row)) id))
                   (pdb_rows db1))
           (pdb_count db1) (pdb_faults db1))
    end.

(** The choice [loadProviders] makes after a load ([App.tsx]): the
    selection stays when it names a loaded provider; otherwise the first
    active provider is taken, or else the first one. *)
Definition select_provider (selectedProviderId : string)
    (data : list AIProvider) : string :=
  if negb (Js.truthy selectedProviderId)
     || match find (fun p => String.eqb (prov_id p) selectedProviderId) data with
        | Some _ => false
        | None => true
        end
  then
    match find prov_is_active data with
    | Some active => prov_id active
    | None =>
        match data with
        | first :: _ => prov_id first
        | [] => selectedProviderId
        end
    end
  else selectedProviderId.

(** [loadProviders(userId)] of [App.tsx]: the loaded list and the
    selection after it. *)
Definition loadProviders (userId selectedProviderId : string)
    (db : ProviderDb) : list AIProvider * string * ProviderDb :=
  let '(data, db1) := getProviders userId db in
  (data, select_provider selectedProviderId data, db1).

End Providers.

(* ===================================================================== *)
(** ** The other handlers of [App.tsx] *)
(* ===================================================================== *)

Module Handlers.

Import Store App.

(** A call of the repository on the store of the state. *)
Definition on_store {A : Type} (op : Db -> result A * Db) : M A :=
  fun st => let '(r, d) := op (db st) in (r, set_db d st).

(** [handleDeleteConversation(id)], and the effect on the identifier when
    the handler has closed the open conversation. *)
Definition handleDeleteConversation (id : string) : M unit :=
  fun st =>
    (try_catch
       (on_store (Repository.deleteConversation id) ;;
        act (setConversations
               (filter (fun c => negb (String.eqb (conv_id c) id)))) ;;
        match currentConversationId st with
        | Some current =>
            if String.eqb current id
            then act (setCurrentConversationId None) ;;
                 act (setMessages (fun _ => []))
            else ret tt
        | None => ret tt
        end)
       (fun _ => ret tt) ;;
     effect_on_change (currentConversationId st)) st.

(** [handleRenameConversation(id, newTitle)]. *)
Definition handleRenameConversation (id newTitle : string) : M unit :=
  try_catch
    (on_store (Repository.updateConversationTitle id newTitle) ;;
     act (setConversations
            (map (fun c =>
                    if String.eqb (conv_id c) id
                    then {| conv_id := conv_id c;
                            conv_user_id := conv_user_id c;
                            conv_title := newTitle;
                            conv_created_at := conv_created_at c;
                            conv_updated_at := conv_updated_at c |}
                    else c))))
    (fun _ => ret tt).

(** [handleDeleteMessage(messageId)]; [confirmed] is the answer to the
    question the handler asks first. *)
Definition handleDeleteMessage (confirmed : bool) (messageId : string)
  : M unit :=
  if negb confirmed then ret tt
  else
    try_catch
      (on_store (Repository.deleteMessage messageId) ;;
       act (setMessages
              (filter (fun m => negb (String.eqb (msg_id m) messageId)))))
      (fun _ => ret tt).

(** [handleNewChat()]: the conversation gets the default title; the
    effect on the identifier then loads its messages. *)
Definition handleNewChat (env : Env) : M unit :=
  fun st =>
    match session st with
    | None => (Ok tt, st)
    | Some sess =>
        (try_catch
           (newConv <-
              createConversation env (session_user_id sess) "New Chat" ;;
            act (setConversations (fun prev => newConv :: prev)) ;;
            act (setCurrentConversationId (Some (conv_id newConv))))
           (fun _ => ret tt) ;;
         effect_on_change (currentConversationId st)) st
    end.

(** The transcript shows what the store holds for the open conversation. *)
Definition in_sync (st : AppState) : Prop :=
  match currentConversationId st with
  | Some current =>
      messages st
      = filter (fun m => String.eqb (msg_conversation_id m) current)
          (db_messages (db st))
  | None => messages st = []
  end.

End Handlers.

(* ===================================================================== *)
(** * Properties *)
(* ===================================================================== *)

(** ** String lemmas *)

Lemma startsWith_append (p rest : string) :
  Js.startsWith (p ++ rest)%string p = true.
Proof.
  induction p as [| c p IH]; simpl.
  - reflexivity.
  - rewrite Ascii.eqb_refl. exact IH.
Qed.

Lemma startsWith_append_left (s b p : string) :
  Js.startsWith s p = true -> Js.startsWith (s ++ b)%string p = true.
Proof.
  revert s. induction p as [| c p IH]; intros s H.
  - reflexivity.
  - destruct s as [| d s]; simpl in H; [discriminate |].
    apply andb_true_iff in H. destruct H as [Hc Hp].
    simpl. rewrite Hc. simpl. apply IH. exact Hp.
Qed.

Lemma includes_startsWith (s sub : string) :
  Js.startsWith s sub = true -> Js.includes s sub = true.
Proof.
  intros H. destruct s; cbn [Js.includes]; rewrite H; reflexivity.
Qed.

Lemma includes_tail (c : ascii) (s sub : string) :
  Js.includes s sub = true -> Js.includes (String c s) sub = true.
Proof.
  intros H. cbn [Js.includes]. rewrite H. apply orb_true_r.
Qed.

Lemma includes_append_right (a s sub : string) :
  Js.includes s sub = true -> Js.includes (a ++ s)%string sub = true.
Proof.
  intros H. induction a as [| c a IH].
  - exact H.
  - change (String c a ++ s)%string with (String c (a ++ s)%string).
    apply includes_tail. exact IH.
Qed.

Lemma includes_append_left (s b sub : string) :
  Js.includes s sub = true -> Js.includes (s ++ b)%string sub = true.
Proof.
  induction s as [| c s IH]; intros H.
  - cbn [Js.includes] in H. rewrite orb_false_r in H.
    apply includes_startsWith.
    apply (startsWith_append_left EmptyString b sub H).
  - cbn [Js.includes] in H. apply orb_true_iff in H. destruct H as [H | H].
    + apply includes_startsWith. apply startsWith_append_left. exact H.
    + change (String c s ++ b)%string with (String c (s ++ b)%string).
      apply includes_tail. apply IH. exact H.
Qed.

Lemma includes_middle (a s b : string) :
  Js.includes (a ++ s ++ b)%string s = true.
Proof.
  apply includes_append_right. apply includes_startsWith.
  apply startsWith_append.
Qed.

Lemma startsWith_lower (s p : string) :
  Js.startsWith s p = true ->
  Js.startsWith (Js.toLowerCase s) (Js.toLowerCase p) = true.
Proof.
  revert s. induction p as [| c p IH]; intros s H.
  - reflexivity.
  - destruct s as [| d s]; simpl in H; [discriminate |].
    apply andb_true_iff in H. destruct H as [Hc Hp].
    apply Ascii.eqb_eq in Hc. subst d.
    simpl. rewrite Ascii.eqb_refl. apply IH. exact Hp.
Qed.

Lemma includes_lower (s sub : string) :
  Js.includes s sub = true ->
  Js.includes (Js.toLowerCase s) (Js.toLowerCase sub) = true.
Proof.
  induction s as [| c s IH]; intros H.
  - cbn [Js.includes] in H. rewrite orb_false_r in H.
    apply includes_startsWith. apply (startsWith_lower EmptyString sub H).
  - cbn [Js.includes] in H. apply orb_true_iff in H. destruct H as [H | H].
    + apply includes_startsWith. apply (startsWith_lower (String c s) sub H).
    + cbn [Js.toLowerCase]. apply includes_tail. apply IH. exact H.
Qed.

(** ** [chatStream]: the callbacks it invokes *)

Section ChatStreamFacts.

Import AiAdapter.

Variable S : Type.
Variable cb : Callbacks S.

Lemma count_app (p : Call -> bool) (a b : list Call) :
  count p (a ++ b) = count p a + count p b.
Proof. unfold count. rewrite filter_app, length_app. reflexivity. Qed.

Lemma count_chunks_only (p : Call -> bool) (calls : list Call) :
  forallb is_chunk calls = true ->
  (forall t, p (CallChunk t) = false) ->
  count p calls = 0.
Proof.
  intros Hall Hp. induction calls as [| c calls IH]; [reflexivity |].
  simpl in Hall. apply andb_true_iff in Hall. destruct Hall as [Hc Hrest].
  destruct c; try discriminate.
  unfold count in *. simpl. rewrite Hp. apply IH. exact Hrest.
Qed.

Lemma for_await_chunks (fragments : list (option string)) (s : S) :
  forallb is_chunk (fst (for_await cb fragments s)) = true.
Proof.
  revert s. induction fragments as [| f rest IH]; intros s; simpl.
  - reflexivity.
  - destruct f as [text |]; [| apply IH].
    destruct (Js.truthy text); [| apply IH].
    destruct (onChunk cb text s) as [s1 | e s1].
    + specialize (IH s1). destruct (for_await cb rest s1) as [calls c].
      simpl in *. exact IH.
    + reflexivity.
Qed.

Lemma try_block_chunks env adapter messages modelName attachment (s : S) :
  forallb is_chunk
    (fst (try_block cb env adapter messages modelName attachment s)) = true.
Proof.
  unfold try_block.
  destruct (compose env messages modelName attachment) as [req | e];
    [| reflexivity].
  destruct (env_chat env adapter req) as [e | fragments fin]; [reflexivity |].
  pose proof (for_await_chunks fragments s) as H.
  destruct (for_await cb fragments s) as [calls [s1 | e s1]]; simpl in *.
  - destruct fin; exact H.
  - exact H.
Qed.

Lemma catch_block_calls (calls : list Call) (e : exn) (s : S) :
  run_calls (catch_block cb calls e s) = calls ++ [CallError e].
Proof. unfold catch_block. destruct (onError cb e s); reflexivity. Qed.

End ChatStreamFacts.

(** C1, as the code has it. When [onComplete] returns normally, every
    invocation of [chatStream] makes exactly one terminal call, after all
    its [onChunk] calls: [onComplete] once and [onError] never when the
    [try] block reaches the end of the stream without a failure, [onError]
    once and [onComplete] never on any failure (composition, refusal,
    broken stream, or an [onChunk] that throws). *)
Theorem chatStream_one_terminal_call :
  forall (S : Type) (cb : AiAdapter.Callbacks S) (env : Env)
         (adapter : GeminiAdapter) (messages : list Message)
         (modelName : string) (attachment : option string) (s : S),
    (forall s0, exists s1, AiAdapter.onComplete cb s0 = AiAdapter.Returns s1) ->
    let run :=
      AiAdapter.chatStream cb env adapter messages modelName attachment s in
    let body :=
      AiAdapter.try_block cb env adapter messages modelName attachment s in
    forallb AiAdapter.is_chunk (fst body) = true
    /\ match snd body with
       | AiAdapter.Returns _ =>
           AiAdapter.run_calls run = fst body ++ [AiAdapter.CallComplete]
           /\ AiAdapter.count AiAdapter.is_complete (AiAdapter.run_calls run) = 1
           /\ AiAdapter.count AiAdapter.is_error (AiAdapter.run_calls run) = 0
       | AiAdapter.Throws e _ =>
           AiAdapter.run_calls run = fst body ++ [AiAdapter.CallError e]
           /\ AiAdapter.count AiAdapter.is_complete (AiAdapter.run_calls run) = 0
           /\ AiAdapter.count AiAdapter.is_error (AiAdapter.run_calls run) = 1
       end
    /\ AiAdapter.count AiAdapter.is_complete (AiAdapter.run_calls run)
       + AiAdapter.count AiAdapter.is_error (AiAdapter.run_calls run) = 1.
Proof.
  intros S cb env adapter messages modelName attachment s Hcomplete run body.
  pose proof (try_block_chunks cb env adapter messages modelName attachment s)
    as Hchunks.
  fold body in Hchunks.
  assert (Hc : AiAdapter.count AiAdapter.is_complete (fst body) = 0)
    by (apply count_chunks_only; [exact Hchunks | reflexivity]).
  assert (He : AiAdapter.count AiAdapter.is_error (fst body) = 0)
    by (apply count_chunks_only; [exact Hchunks | reflexivity]).
  split; [exact Hchunks |].
  subst run. unfold AiAdapter.chatStream. fold body.
  destruct body as [calls [s1 | e s1]]; simpl in *.
  - destruct (Hcomplete s1) as [s2 Hs2]. rewrite Hs2. simpl.
    rewrite !count_app, Hc, He. repeat split.
  - rewrite catch_block_calls, !count_app, Hc, He. repeat split.
Qed.

(** The theorem above at the sample stream: three chunks, then
    [onComplete]. *)
Lemma chatStream_one_terminal_call_witness :
  (forall s0 : unit,
      exists s1, AiAdapter.onComplete Scenario.quiet s0 = AiAdapter.Returns s1)
  /\ AiAdapter.count AiAdapter.is_complete
       (AiAdapter.run_calls
          (AiAdapter.chatStream Scenario.quiet Scenario.chat_env
             Scenario.an_adapter [Scenario.hello] "gemini-2.5-flash" None tt))
     + AiAdapter.count AiAdapter.is_error
         (AiAdapter.run_calls
            (AiAdapter.chatStream Scenario.quiet Scenario.chat_env
               Scenario.an_adapter [Scenario.hello] "gemini-2.5-flash" None tt))
     = 1.
Proof.
  split.
  - intros s0. exists s0. reflexivity.
  - apply (chatStream_one_terminal_call Scenario.quiet Scenario.chat_env
             Scenario.an_adapter [Scenario.hello] "gemini-2.5-flash" None tt).
    intros s0. exists s0. reflexivity.
Defined.

(** C1 fails as stated: with an [onComplete] that throws, the stream ends
    without error, [onComplete] is invoked, and the [catch] block invokes
    [onError] as well. *)
Lemma chatStream_both_terminal_calls :
  AiAdapter.run_calls
    (AiAdapter.chatStream Scenario.failing_onComplete Scenario.chat_env
       Scenario.an_adapter [Scenario.hello] "gemini-2.5-flash" None tt)
  = [AiAdapter.CallChunk "Hi"; AiAdapter.CallChunk " there";
     AiAdapter.CallChunk "!"; AiAdapter.CallComplete;
     AiAdapter.CallError (Error "render failed")]
  /\ AiAdapter.count AiAdapter.is_complete
       (AiAdapter.run_calls
          (AiAdapter.chatStream Scenario.failing_onComplete Scenario.chat_env
             Scenario.an_adapter [Scenario.hello] "gemini-2.5-flash" None tt))
     + AiAdapter.count AiAdapter.is_error
         (AiAdapter.run_calls
            (AiAdapter.chatStream Scenario.failing_onComplete Scenario.chat_env
               Scenario.an_adapter [Scenario.hello] "gemini-2.5-flash" None tt))
     = 2.
Proof. split; reflexivity. Qed.

(** C10. With no message at all, reading the content of the last message
    throws inside the [try] block: [chatStream] invokes [onError] once,
    with that exception, and no other callback; the exception does not
    leave the call, whose promise settles as [onError] itself ends. *)
Theorem chatStream_empty_messages :
  forall (S : Type) (cb : AiAdapter.Callbacks S) (env : Env)
         (adapter : GeminiAdapter) (modelName : string)
         (attachment : option string) (s : S),
    let err :=
      TypeError "Cannot read properties of undefined (reading 'content')" in
    let run := AiAdapter.chatStream cb env adapter [] modelName attachment s in
    AiAdapter.run_calls run = [AiAdapter.CallError err]
    /\ AiAdapter.count AiAdapter.is_error (AiAdapter.run_calls run) = 1
    /\ AiAdapter.count AiAdapter.is_chunk (AiAdapter.run_calls run) = 0
    /\ AiAdapter.count AiAdapter.is_complete (AiAdapter.run_calls run) = 0
    /\ AiAdapter.run_settled run
       = match AiAdapter.onError cb err s with
         | AiAdapter.Returns _ => Ok tt
         | AiAdapter.Throws e _ => Throw e
         end.
Proof.
  intros S cb env adapter modelName attachment s err run.
  subst run. unfold AiAdapter.chatStream, AiAdapter.try_block. simpl.
  unfold AiAdapter.catch_block. fold err.
  destruct (AiAdapter.onError cb err s); simpl; repeat split.
Qed.

(** ** [chatStream]: the request it composes *)

Lemma history_turns_in_order (env : Env) (history : list Message) :
  Forall2
    (fun m t =>
       turn_role t = AiAdapter.model_role (msg_role m)
       /\ hd_error (turn_parts t) = Some (TextPart (msg_content m)))
    history (map (AiAdapter.history_turn env) history).
Proof.
  induction history as [| m rest IH]; simpl; constructor.
  - split; reflexivity.
  - exact IH.
Qed.

Lemma compose_snoc (env : Env) (history : list Message) (turn : Message)
    (modelName : string) (attachment : option string) :
  AiAdapter.compose env (history ++ [turn]) modelName attachment
  = Ok {| req_model := modelName;
          req_history := map (AiAdapter.history_turn env) history;
          req_message := AiAdapter.message_content env turn attachment |}.
Proof.
  unfold AiAdapter.compose. rewrite removelast_last.
  destruct (history ++ [turn]) as [| m rest] eqn:E.
  - destruct history; discriminate.
  - rewrite <- E, last_last. reflexivity.
Qed.

(** C3. For every history and new turn, the request [chatStream] composes
    has one historical turn per message of the history, in the same order,
    each starting with the text of its message and tagged "model" for an
    assistant message and "user" for a user or system message; the new turn
    is the message of the request. This request is the one the provider
    answers: when the provider refuses it, the call fails with that refusal. *)
Theorem compose_keeps_order_and_roles :
  forall (env : Env) (history : list Message) (turn : Message)
         (modelName : string) (attachment : option string),
  exists req,
    AiAdapter.compose env (history ++ [turn]) modelName attachment = Ok req
    /\ Forall2
         (fun m t =>
            turn_role t = AiAdapter.model_role (msg_role m)
            /\ hd_error (turn_parts t) = Some (TextPart (msg_content m)))
         history (req_history req)
    /\ hd_error (req_message req) = Some (TextPart (msg_content turn))
    /\ AiAdapter.model_role assistant = "model"
    /\ AiAdapter.model_role user = "user"
    /\ AiAdapter.model_role system = "user"
    /\ forall (S : Type) (cb : AiAdapter.Callbacks S)
              (adapter : GeminiAdapter) (s : S) (e : exn),
         env_chat env adapter req = Refused e ->
         AiAdapter.run_calls
           (AiAdapter.chatStream cb env adapter (history ++ [turn]) modelName
              attachment s)
         = [AiAdapter.CallError e].
Proof.
  intros env history turn modelName attachment.
  eexists. split; [apply compose_snoc |]. simpl.
  split; [apply history_turns_in_order |].
  repeat split.
  intros S cb adapter s e Hrefused.
  unfold AiAdapter.chatStream, AiAdapter.try_block.
  rewrite compose_snoc, Hrefused. apply catch_block_calls.
Qed.

(** ** [generateImage]: the reading of the response *)

Lemma scan_parts_find (parts : list ResponsePart) :
  AiAdapter.scan_parts parts
  = match find AiAdapter.has_image parts with
    | Some p =>
        match part_inlineData p with
        | Some b => Some (AiAdapter.inline_reference b)
        | None => None
        end
    | None => None
    end.
Proof.
  induction parts as [| p rest IH]; simpl; [reflexivity |].
  unfold AiAdapter.has_image at 1.
  destruct (part_inlineData p) as [b |] eqn:Eb; [| exact IH].
  destruct (Js.truthy_opt (blob_data b)); [| exact IH].
  rewrite Eb. reflexivity.
Qed.

Lemma find_has_image (parts : list ResponsePart) (img : ResponsePart) :
  In img parts -> AiAdapter.has_image img = true ->
  exists first b,
    find AiAdapter.has_image parts = Some first
    /\ part_inlineData first = Some b
    /\ Js.truthy_opt (blob_data b) = true.
Proof.
  intros Hin Himg.
  destruct (find AiAdapter.has_image parts) as [first |] eqn:E.
  - apply find_some in E. destruct E as [_ Hfirst].
    unfold AiAdapter.has_image in Hfirst.
    destruct (part_inlineData first) as [b |] eqn:Eb; [| discriminate].
    exists first, b. split; [reflexivity |]. split; [exact Eb | exact Hfirst].
  - rewrite (find_none _ _ E img Hin) in Himg. discriminate.
Qed.

(** What [find] returns is the first element that passes the test. *)
Lemma find_first_split (A : Type) (f : A -> bool) (l : list A) (x : A) :
  find f l = Some x ->
  exists before after,
    l = before ++ x :: after /\ forall a, In a before -> f a = false.
Proof.
  induction l as [| a l IH]; [discriminate |].
  simpl. destruct (f a) eqn:E.
  - intros H. injection H as ->. exists [], l.
    split; [reflexivity | intros a []].
  - intros H. destruct (IH H) as (before & after & -> & Hbefore).
    exists (a :: before), after. split; [reflexivity |].
    intros a' [<- | Ha']; [exact E | exact (Hbefore a' Ha')].
Qed.

(** The loop over the parts does not read their text. *)
Lemma scan_parts_ignores_text (parts parts' : list ResponsePart) :
  map part_inlineData parts = map part_inlineData parts' ->
  AiAdapter.scan_parts parts = AiAdapter.scan_parts parts'.
Proof.
  revert parts'. induction parts as [| p rest IH]; intros [| p' rest'] H;
    try discriminate; [reflexivity |].
  simpl in H. injection H as Hp Hrest. simpl. rewrite <- Hp.
  destruct (part_inlineData p) as [b |]; [| apply IH; exact Hrest].
  destruct (Js.truthy_opt (blob_data b)); [reflexivity | apply IH; exact Hrest].
Qed.

(** C4. On the general path, when the parts of the first candidate hold a
    part with image data and a text part, [generateImage] returns the first
    part with image data re-encoded as the reference
    [data:<media type>;base64,<data>], with the media type and the data of
    that very part ("undefined" is printed for a part without media type);
    and it returns the same value for any other texts in the parts. *)
Theorem generateImage_image_part_wins :
  forall (env : Env) (adapter : GeminiAdapter) (prompt modelName : string)
         (first : Candidate) (others : list Candidate) (content : Content)
         (parts : list ResponsePart) (img txt : ResponsePart) (t : string),
    Js.includes modelName "imagen" = false ->
    env_generateContent env adapter modelName prompt
      = Ok {| resp_candidates := Some (first :: others) |} ->
    cand_content first = Some content ->
    content_parts content = Some parts ->
    In img parts -> AiAdapter.has_image img = true ->
    In txt parts -> part_text txt = Some t ->
    exists (before after : list ResponsePart) (winner : ResponsePart)
           (mime : option string) (data : string),
      parts = before ++ winner :: after
      /\ (forall q, In q before -> AiAdapter.has_image q = false)
      /\ find AiAdapter.has_image parts = Some winner
      /\ part_inlineData winner
         = Some {| blob_mimeType := mime; blob_data := Some data |}
      /\ data <> EmptyString
      /\ let reference :=
           ("data:"
            ++ match mime with Some type => type | None => "undefined" end
            ++ ";base64," ++ data)%string in
         AiAdapter.generateImage env adapter prompt modelName = Ok reference
         /\ Js.startsWith reference "data:" = true
         /\ forall (env' : Env) (content' : Content)
                   (parts' : list ResponsePart),
              env_generateContent env' adapter modelName prompt
                = Ok {| resp_candidates :=
                          Some ({| cand_content := Some content' |}
                                :: others) |} ->
              content_parts content' = Some parts' ->
              map part_inlineData parts' = map part_inlineData parts ->
              AiAdapter.generateImage env' adapter prompt modelName
              = Ok reference.
Proof.
  intros env adapter prompt modelName first others content parts img txt t
         Hgeneral Hresp Hcontent Hparts Hin Himg _ _.
  destruct (find_has_image parts img Hin Himg)
    as (winner & b & Hfind & Hb & Hdata).
  destruct (find_first_split AiAdapter.has_image parts Hfind)
    as (before & after & Hsplit & Hbefore).
  destruct b as [mime [data |]]; [| discriminate].
  cbn [blob_data Js.truthy_opt] in Hdata.
  assert (Hscan : AiAdapter.scan_parts parts
                  = Some ("data:"
                          ++ match mime with
                             | Some type => type
                             | None => "undefined"
                             end
                          ++ ";base64," ++ data)%string).
  { rewrite scan_parts_find, Hfind, Hb.
    unfold AiAdapter.inline_reference. cbn [blob_mimeType blob_data].
    destruct mime; reflexivity. }
  exists before, after, winner, mime, data.
  split; [exact Hsplit |]. split; [exact Hbefore |].
  split; [exact Hfind |]. split; [exact Hb |].
  split; [intros ->; discriminate |].
  cbv zeta. split; [| split].
  - unfold AiAdapter.generateImage, AiAdapter.general_path.
    rewrite Hgeneral, Hresp. simpl. rewrite Hcontent, Hparts, Hscan.
    reflexivity.
  - reflexivity.
  - intros env' content' parts' Hresp' Hparts' Hsame.
    unfold AiAdapter.generateImage, AiAdapter.general_path.
    rewrite Hgeneral, Hresp'. simpl. rewrite Hparts'.
    rewrite (scan_parts_ignores_text parts' parts Hsame), Hscan.
    reflexivity.
Qed.

(** The theorem above at a response that holds a refusal text and then a
    picture. *)
Lemma generateImage_image_part_wins_witness :
  exists winner b,
    find AiAdapter.has_image
      [Scenario.text_part "I cannot generate images";
       Scenario.image_part "image/png" "iVBORw0KGgo="] = Some winner
    /\ part_inlineData winner = Some b
    /\ AiAdapter.generateImage
         (Scenario.env_of Scenario.greeting (Ok None)
            (Ok (Scenario.response_of
                   [Scenario.text_part "I cannot generate images";
                    Scenario.image_part "image/png" "iVBORw0KGgo="]))
            Uploaded)
         Scenario.an_adapter "a red kite" "gemini-2.5-flash-image"
       = Ok "data:image/png;base64,iVBORw0KGgo=".
Proof.
  destruct (@generateImage_image_part_wins
              (Scenario.env_of Scenario.greeting (Ok None)
                 (Ok (Scenario.response_of
                        [Scenario.text_part "I cannot generate images";
                         Scenario.image_part "image/png" "iVBORw0KGgo="]))
                 Uploaded)
              Scenario.an_adapter "a red kite" "gemini-2.5-flash-image"
              {| cand_content :=
                   Some {| content_parts :=
                     Some [Scenario.text_part "I cannot generate images";
                           Scenario.image_part "image/png" "iVBORw0KGgo="] |} |}
              []
              {| content_parts :=
                   Some [Scenario.text_part "I cannot generate images";
                         Scenario.image_part "image/png" "iVBORw0KGgo="] |}
              [Scenario.text_part "I cannot generate images";
               Scenario.image_part "image/png" "iVBORw0KGgo="]
              (Scenario.image_part "image/png" "iVBORw0KGgo=")
              (Scenario.text_part "I cannot generate images")
              "I cannot generate images"
              eq_refl eq_refl eq_refl eq_refl
              (or_intror (or_introl eq_refl)) eq_refl
              (or_introl eq_refl) eq_refl)
    as (before & after & winner & mime & data
        & _ & _ & Hfind & Hb & _ & Hgen & _).
  exists winner, {| blob_mimeType := mime; blob_data := Some data |}.
  split; [exact Hfind |]. split; [exact Hb |].
  rewrite Hgen. simpl in Hfind. injection Hfind as <-.
  simpl in Hb. injection Hb as <- <-. reflexivity.
Defined.

(** C7. For a model identifier without the marker and a response whose
    parts are the single text "I cannot generate images", [generateImage]
    fails with the error of the refusal branch (the specification's
    [GenerationDeclined]); its message holds the model identifier and
    proposes the model 'gemini-2.5-flash-image'. *)
Theorem generateImage_declined :
  forall (env : Env) (adapter : GeminiAdapter) (prompt modelName : string)
         (others : list Candidate),
    Js.includes modelName "imagen" = false ->
    env_generateContent env adapter modelName prompt
      = Ok {| resp_candidates :=
                Some ({| cand_content :=
                           Some {| content_parts :=
                                     Some [ {| part_text :=
                                                 Some "I cannot generate images";
                                               part_inlineData := None |} ] |} |}
                      :: others) |} ->
    exists msg,
      AiAdapter.generateImage env adapter prompt modelName = Throw (Error msg)
      /\ msg = ("This model (" ++ modelName
                ++ ") does not support image generation. Please select 'gemini-2.5-flash-image' or an Imagen model in Admin settings.")%string
      /\ Js.includes msg modelName = true
      /\ Js.includes msg "Please select 'gemini-2.5-flash-image'" = true.
Proof.
  intros env adapter prompt modelName others Hgeneral Hresp.
  eexists. split; [| split; [reflexivity | split]].
  - unfold AiAdapter.generateImage, AiAdapter.general_path.
    rewrite Hgeneral, Hresp. reflexivity.
  - apply includes_middle.
  - apply includes_append_right. apply includes_append_right. reflexivity.
Qed.

(** The theorem above for the model "gemini-2.5-flash". *)
Lemma generateImage_declined_witness :
  Js.includes "gemini-2.5-flash" "imagen" = false
  /\ AiAdapter.generateImage
       (Scenario.env_of Scenario.greeting (Ok None)
          (Ok (Scenario.response_of
                 [Scenario.text_part "I cannot generate images"]))
          Uploaded)
       Scenario.an_adapter "a red kite" "gemini-2.5-flash"
     = Throw (Error "This model (gemini-2.5-flash) does not support image generation. Please select 'gemini-2.5-flash-image' or an Imagen model in Admin settings.").
Proof.
  split; [reflexivity |].
  destruct (@generateImage_declined
              (Scenario.env_of Scenario.greeting (Ok None)
                 (Ok (Scenario.response_of
                        [Scenario.text_part "I cannot generate images"]))
                 Uploaded)
              Scenario.an_adapter "a red kite" "gemini-2.5-flash" []
              eq_refl eq_refl)
    as (msg & Hgen & Hmsg & _).
  rewrite Hgen, Hmsg. reflexivity.
Defined.

(** ** [generateImage]: a model with the marker and no image bytes *)

Lemma general_path_not_empty (env : Env) (adapter : GeminiAdapter)
    (prompt modelName url : string) :
  AiAdapter.general_path env adapter prompt modelName = Ok url ->
  Js.startsWith url "data:" = true.
Proof.
  unfold AiAdapter.general_path.
  destruct (env_generateContent env adapter modelName prompt) as [resp | e];
    [| discriminate].
  destruct (resp_candidates resp) as [[| c cs] |]; try discriminate.
  destruct (cand_content c) as [content |]; [| discriminate].
  destruct (content_parts content) as [parts |]; [| discriminate].
  rewrite scan_parts_find.
  destruct (find AiAdapter.has_image parts) as [p |].
  - destruct (part_inlineData p) as [b |].
    + intros H. injection H as <-. reflexivity.
    + destruct (AiAdapter.first_text parts) as [text |]; [| discriminate].
      destruct (Js.includes _ _); discriminate.
  - destruct (AiAdapter.first_text parts) as [text |]; [| discriminate].
    destruct (Js.includes _ _); discriminate.
Qed.

(** C6, as the code has it. For a model identifier with the marker, when
    the image endpoint returns no image bytes, the call never succeeds with
    empty content. The revision that stops there fails with one fixed
    error, "Imagen model did not return image bytes."; the revision of
    [services/aiAdapter.ts] goes on with the general path and ends as that
    path ends, any success being a [data:] reference. *)
Theorem generateImage_marker_without_bytes :
  forall (env : Env) (adapter : GeminiAdapter) (prompt modelName : string)
         (b64 : option string),
    Js.includes modelName "imagen" = true ->
    env_generateImages env adapter modelName prompt = Ok b64 ->
    Js.truthy_opt b64 = false ->
    AiAdapterRev.generateImage env adapter prompt modelName
      = Throw (Error "Imagen model did not return image bytes.")
    /\ AiAdapter.generateImage env adapter prompt modelName
       = AiAdapter.general_path env adapter prompt modelName
    /\ forall url,
         AiAdapter.generateImage env adapter prompt modelName = Ok url ->
         Js.startsWith url "data:" = true.
Proof.
  intros env adapter prompt modelName b64 Hmarker Himages Hempty.
  assert (Hsrc : AiAdapter.generateImage env adapter prompt modelName
                 = AiAdapter.general_path env adapter prompt modelName).
  { unfold AiAdapter.generateImage. rewrite Hmarker, Himages, Hempty.
    reflexivity. }
  split; [| split].
  - pose proof (includes_lower modelName "imagen" Hmarker) as Hlower.
    change (Js.toLowerCase "imagen") with "imagen" in Hlower.
    unfold AiAdapterRev.generateImage. rewrite Hlower, Himages, Hempty.
    reflexivity.
  - exact Hsrc.
  - intros url Hurl. rewrite Hsrc in Hurl.
    exact (general_path_not_empty env adapter prompt modelName Hurl).
Qed.

(** The theorem above for the model "imagen-3.0-generate-002", an image
    endpoint without bytes and a content endpoint without candidates. *)
Lemma generateImage_marker_without_bytes_witness :
  Js.includes "imagen-3.0-generate-002" "imagen" = true
  /\ AiAdapterRev.generateImage
       (Scenario.env_of Scenario.greeting (Ok None) Scenario.no_candidates
          Uploaded)
       Scenario.an_adapter "a red kite" "imagen-3.0-generate-002"
     = Throw (Error "Imagen model did not return image bytes.").
Proof.
  split; [reflexivity |].
  apply (@generateImage_marker_without_bytes
           (Scenario.env_of Scenario.greeting (Ok None) Scenario.no_candidates
              Uploaded)
           Scenario.an_adapter "a red kite" "imagen-3.0-generate-002" None
           eq_refl eq_refl eq_refl).
Defined.

(** C6 fails as stated: for the model "imagen-3.0-generate-002" and an
    image endpoint without bytes, either revision fails with an error whose
    message does not hold the model identifier. *)
Lemma generateImage_error_omits_model :
  AiAdapter.generateImage
    (Scenario.env_of Scenario.greeting (Ok None) Scenario.no_candidates
       Uploaded)
    Scenario.an_adapter "a red kite" "imagen-3.0-generate-002"
  = Throw (Error "No image data found in model response.")
  /\ Js.includes "No image data found in model response."
       "imagen-3.0-generate-002" = false
  /\ AiAdapterRev.generateImage
       (Scenario.env_of Scenario.greeting (Ok None) Scenario.no_candidates
          Uploaded)
       Scenario.an_adapter "a red kite" "imagen-3.0-generate-002"
     = Throw (Error "Imagen model did not return image bytes.")
  /\ Js.includes "Imagen model did not return image bytes."
       "imagen-3.0-generate-002" = false.
Proof. repeat split. Qed.

(** ** The transcript under the updates of a chat send *)

Lemma replace_content_last (id content : string) (prev : list Message)
    (conv : string) (r : Role) (c0 : string) (img : option string)
    (atts : option (list string)) (time : string) :
  App.replace_content id content
    (prev ++ [mkMessage id conv r c0 img atts time])
  = App.replace_content id content prev
    ++ [mkMessage id conv r content img atts time].
Proof.
  unfold App.replace_content. rewrite map_app. simpl.
  rewrite String.eqb_refl. reflexivity.
Qed.

Lemma replace_content_twice (id c1 c2 : string) (prev : list Message) :
  App.replace_content id c2 (App.replace_content id c1 prev)
  = App.replace_content id c2 prev.
Proof.
  unfold App.replace_content. rewrite map_map. apply map_ext. intros m.
  destruct (String.eqb (msg_id m) id) eqn:E; simpl; rewrite E; reflexivity.
Qed.

(** C9. Replacing the content of the placeholder by the same buffer a second
    time changes nothing: the update of the list is idempotent, and so is
    the transcript the component shows after it. *)
Theorem replace_content_idempotent :
  forall (id buffer : string) (prev : list Message) (st : App.AppState),
    App.replace_content id buffer (App.replace_content id buffer prev)
    = App.replace_content id buffer prev
    /\ App.messages
         (App.setMessages (App.replace_content id buffer)
            (App.setMessages (App.replace_content id buffer) st))
       = App.messages (App.setMessages (App.replace_content id buffer) st).
Proof.
  intros id buffer prev st. split.
  - apply replace_content_twice.
  - simpl. apply replace_content_twice.
Qed.

(** ** The store and the record of requests only grow *)

Section Growth.

Import Store App.

Lemma grows_refl (st : AppState) : grows st st.
Proof.
  split; exists []; rewrite app_nil_r; reflexivity.
Qed.

Lemma grows_trans (a b c : AppState) : grows a b -> grows b c -> grows a c.
Proof.
  intros [[e1 H1] [m1 T1]] [[e2 H2] [m2 T2]]. split.
  - exists (e1 ++ e2). rewrite H2, H1, app_assoc. reflexivity.
  - exists (m1 ++ m2). rewrite T2, T1, app_assoc. reflexivity.
Qed.

Lemma grows_same (st st' : AppState) :
  db st' = db st -> trace st' = trace st -> grows st st'.
Proof.
  intros Hdb Htrace. split; exists []; rewrite app_nil_r; congruence.
Qed.

Lemma growing_ret (A : Type) (a : A) : growing (ret a).
Proof. intros st. apply grows_refl. Qed.

Lemma growing_bind (A B : Type) (c : M A) (k : A -> M B) :
  growing c -> (forall a, growing (k a)) -> growing (bind c k).
Proof.
  intros Hc Hk st. unfold bind. specialize (Hc st).
  destruct (c st) as [[a | e] st1]; simpl in *.
  - apply (grows_trans Hc). apply Hk.
  - exact Hc.
Qed.

Lemma growing_act (f : AppState -> AppState) :
  (forall st, grows st (f st)) -> growing (act f).
Proof. intros H st. apply H. Qed.

Lemma growing_try_catch (A : Type) (body : M A) (handler : exn -> M A) :
  growing body -> (forall e, growing (handler e)) ->
  growing (try_catch body handler).
Proof.
  intros Hb Hh st. unfold try_catch. specialize (Hb st).
  destruct (body st) as [[a | e] st1]; simpl in *.
  - exact Hb.
  - apply (grows_trans Hb). apply Hh.
Qed.

Lemma growing_finally (A : Type) (body : M A) (fin : AppState -> AppState) :
  growing body -> (forall st, grows st (fin st)) -> growing (finally body fin).
Proof.
  intros Hb Hf st. unfold finally. specialize (Hb st).
  destruct (body st) as [r st1]; simpl in *.
  apply (grows_trans Hb). apply Hf.
Qed.

Lemma grows_setMessages (f : list Message -> list Message) (st : AppState) :
  grows st (setMessages f st).
Proof. apply grows_same; reflexivity. Qed.

Lemma grows_setIsLoading (b : bool) (st : AppState) :
  grows st (setIsLoading b st).
Proof. apply grows_same; reflexivity. Qed.

Lemma take_fault_rows (d : Db) :
  db_messages (snd (take_fault d)) = db_messages d.
Proof. unfold take_fault. destruct (db_faults d); reflexivity. Qed.

Lemma insert_message_rows (env : Env) (row : NewMessage) (d : Db) :
  exists extra,
    db_messages (snd (insert_message env row d)) = db_messages d ++ extra.
Proof.
  unfold insert_message. pose proof (take_fault_rows d) as H.
  destruct (take_fault d) as [[e |] d1]; simpl in *.
  - exists []. rewrite app_nil_r. exact H.
  - eexists. rewrite H. reflexivity.
Qed.

Lemma touch_conversation_rows (time id : string) (d : Db) :
  db_messages (touch_conversation time id d) = db_messages d.
Proof.
  unfold touch_conversation. pose proof (take_fault_rows d) as H.
  destruct (take_fault d) as [[e |] d1]; simpl in *; exact H.
Qed.

Lemma growing_addMessage (env : Env) (msg : NewMessage) :
  growing (addMessage env msg).
Proof.
  intros st. unfold addMessage, ChatService.addMessage.
  destruct (insert_message_rows env msg (db st)) as [extra H].
  destruct (insert_message env msg (db st)) as [[data | e] d1]; simpl in *.
  - split; [exists extra | exists [EvAddMessage msg]]; simpl.
    + rewrite touch_conversation_rows. exact H.
    + reflexivity.
  - split; [exists extra | exists [EvAddMessage msg]]; simpl.
    + exact H.
    + reflexivity.
Qed.

Lemma growing_getMessages (id : string) : growing (getMessages id).
Proof.
  intros st. unfold getMessages, ChatService.getMessages, select_messages.
  pose proof (take_fault_rows (db st)) as H.
  destruct (take_fault (db st)) as [[e |] d1]; simpl in *;
    (split; [exists [] | exists [EvGetMessages id]]; simpl;
     [rewrite app_nil_r; exact H | reflexivity]).
Qed.

Lemma growing_loadMessages (id : string) : growing (loadMessages id).
Proof.
  unfold loadMessages. apply growing_try_catch.
  - apply growing_bind; [apply growing_getMessages |].
    intros msgs. apply growing_act. intros st. apply grows_setMessages.
  - intros e. apply growing_ret.
Qed.

Lemma growing_image_mode (env : Env) (adapter : GeminiAdapter)
    (convId text modelName : string) :
  growing (image_mode env adapter convId text modelName).
Proof.
  unfold image_mode. apply growing_finally; [| apply grows_setIsLoading].
  apply growing_try_catch.
  - apply growing_bind; [apply growing_addMessage | intros placeholder].
    apply growing_bind;
      [apply growing_act; intros st; apply grows_setMessages | intros _].
    apply growing_bind.
    + intros st. simpl. split; [exists [] | eexists]; simpl;
        [rewrite app_nil_r |]; reflexivity.
    + intros url.
      apply growing_bind; [apply growing_addMessage | intros imgMsg].
      apply growing_act. intros st. apply grows_setMessages.
  - intros err.
    apply growing_bind; [apply growing_addMessage | intros _].
    apply growing_loadMessages.
Qed.

Lemma for_await_chat (env : Env) (convId id : string)
    (fragments : list (option string)) (st : AppState) (buffer : string) :
  exists calls st' buffer',
    AiAdapter.for_await (chat_callbacks env convId id) fragments (st, buffer)
    = (calls, AiAdapter.Returns (st', buffer'))
    /\ grows st st'.
Proof.
  revert st buffer. induction fragments as [| f rest IH]; intros st buffer.
  - exists [], st, buffer. split; [reflexivity | apply grows_refl].
  - destruct f as [text |]; simpl; [| apply IH].
    destruct (Js.truthy text); [| apply IH].
    destruct (IH (setMessages
                    (replace_content id (buffer ++ text)%string) st)
                 (buffer ++ text)%string)
      as (calls & st' & buffer' & E & G).
    rewrite E. do 3 eexists. split; [reflexivity |].
    apply (grows_trans (grows_setMessages _ st) G).
Qed.

(** Over any fragments, the callbacks of a chat send are called with each
    text in order; they leave in [streamContent] the buffer followed by all
    the texts, and in the placeholder that same whole buffer. *)
Lemma for_await_chat_buffer (env : Env) (convId id : string)
    (fragments : list (option string)) (st : AppState) (buffer : string) :
  exists st',
    AiAdapter.for_await (chat_callbacks env convId id) fragments (st, buffer)
    = (map AiAdapter.CallChunk (AiAdapter.fragment_texts fragments),
       AiAdapter.Returns
         (st',
          fold_left String.append (AiAdapter.fragment_texts fragments) buffer))
    /\ messages st'
       = match AiAdapter.fragment_texts fragments with
         | [] => messages st
         | _ :: _ =>
             replace_content id
               (fold_left String.append (AiAdapter.fragment_texts fragments)
                  buffer)
               (messages st)
         end.
Proof.
  revert st buffer. induction fragments as [| f rest IH]; intros st buffer.
  - exists st. split; reflexivity.
  - destruct f as [text |]; [| apply IH].
    cbn [AiAdapter.for_await AiAdapter.fragment_texts flat_map].
    destruct (Js.truthy text); [| apply IH].
    cbn [AiAdapter.onChunk chat_callbacks snd fst].
    destruct (IH (setMessages
                    (replace_content id (buffer ++ text)%string) st)
                 (buffer ++ text)%string)
      as (st' & E & Hshown).
    rewrite E. exists st'. split; [reflexivity |].
    rewrite Hshown. fold (AiAdapter.fragment_texts rest).
    cbn [app fold_left messages setMessages].
    destruct (AiAdapter.fragment_texts rest) as [| t texts].
    + reflexivity.
    + apply replace_content_twice.
Qed.

Lemma chat_onComplete_grows (env : Env) (convId id : string)
    (s : ChatState) :
  exists s',
    AiAdapter.onComplete (chat_callbacks env convId id) s
    = AiAdapter.Returns s'
    /\ grows (fst s) (fst s').
Proof.
  assert (G : growing
                (addMessage env (mkNewMessage convId assistant (snd s) None None) ;;
                 loadMessages convId ;;
                 act (setIsLoading false))).
  { apply growing_bind; [apply growing_addMessage | intros _].
    apply growing_bind; [apply growing_loadMessages | intros _].
    apply growing_act. intros st. apply grows_setIsLoading. }
  eexists. split; [reflexivity |]. exact (G (fst s)).
Qed.

Lemma chat_onError_grows (env : Env) (convId id : string) (e : exn)
    (s : ChatState) :
  exists s',
    AiAdapter.onError (chat_callbacks env convId id) e s
    = AiAdapter.Returns s'
    /\ grows (fst s) (fst s').
Proof.
  eexists. split; [reflexivity |]. simpl.
  apply (grows_trans (grows_setIsLoading false (fst s))).
  apply grows_setMessages.
Qed.

Lemma chatStream_chat_grows (env : Env) (convId id : string)
    (adapter : GeminiAdapter) (context : list Message) (modelName : string)
    (attachment : option string) (s : ChatState) :
  grows (fst s)
    (fst (AiAdapter.run_state
            (AiAdapter.chatStream (chat_callbacks env convId id) env adapter
               context modelName attachment s))).
Proof.
  assert (Hcatch : forall calls e s1,
             grows (fst s) (fst s1) ->
             grows (fst s)
               (fst (AiAdapter.run_state
                       (AiAdapter.catch_block (chat_callbacks env convId id)
                          calls e s1)))).
  { intros calls e s1 G. unfold AiAdapter.catch_block.
    destruct (chat_onError_grows env convId id e s1) as (s2 & E & G2).
    rewrite E. simpl. apply (grows_trans G G2). }
  unfold AiAdapter.chatStream, AiAdapter.try_block.
  destruct (AiAdapter.compose env context modelName attachment) as [req | e].
  2: { apply Hcatch. apply grows_refl. }
  destruct (env_chat env adapter req) as [e | fragments fin].
  { apply Hcatch. apply grows_refl. }
  destruct s as [st buffer].
  destruct (for_await_chat env convId id fragments st buffer)
    as (calls & st' & buffer' & E & G).
  rewrite E. destruct fin as [| e].
  - destruct (chat_onComplete_grows env convId id (st', buffer'))
      as (s2 & E2 & G2).
    rewrite E2. simpl. apply (grows_trans G G2).
  - apply Hcatch. exact G.
Qed.

Lemma growing_chat_mode (env : Env) (adapter : GeminiAdapter)
    (convId modelName : string) (context : list Message)
    (preview : option string) :
  growing (chat_mode env adapter convId modelName context preview).
Proof.
  intros st. unfold chat_mode. simpl.
  eapply grows_trans; [| apply chatStream_chat_grows]. simpl.
  split; [exists [] | eexists]; simpl; [rewrite app_nil_r |]; reflexivity.
Qed.

Lemma growing_process_response (env : Env) (p : AIProvider)
    (convId text : string) (context : list Message)
    (preview : option string) :
  growing (process_response env p convId text context preview).
Proof.
  unfold process_response. destruct (prov_category p) as [[|] |].
  - apply growing_chat_mode.
  - apply growing_image_mode.
  - apply growing_chat_mode.
Qed.

End Growth.

(** ** The first steps of a send *)

Section SendSteps.

Import Store App.

(** The upload changes nothing but the record of requests; its value is the
    preview whenever the blob store does not take the file. *)
Lemma upload_attachment_run (env : Env) (sess : Session)
    (file : option File) (preview : option string) :
  exists uploaded events,
    (forall st,
        upload_attachment env sess file preview st
        = (Ok uploaded,
           mkAppState (session st) (conversations st)
             (currentConversationId st) (messages st) (isLoading st)
             (providers st) (db st) (transcripts st) (trace st ++ events)))
    /\ (forall f,
          file = Some f ->
          (forall path, env_upload env path f <> Uploaded) ->
          uploaded = preview).
Proof.
  destruct file as [f |]; unfold upload_attachment.
  - destruct (env_upload env _ f) eqn:E.
    + do 2 eexists. split; [intros st; reflexivity |].
      intros f' Hf' Hfails. injection Hf' as <-.
      exfalso. exact (Hfails _ E).
    + exists preview. eexists. split; [intros st; reflexivity | reflexivity].
    + exists preview. eexists. split; [intros st; reflexivity | reflexivity].
  - exists None, []. split; [| intros f Hf; discriminate].
    intros [ses convs cur msgs load provs d trs tr]. simpl.
    rewrite app_nil_r. reflexivity.
Qed.

Lemma same_id_refl (a : option string) : same_id a a = true.
Proof. destruct a as [x |]; [apply String.eqb_refl | reflexivity]. Qed.

(** Without a change of the identifier the effect does not run. *)
Lemma effect_on_change_same (before : option string) (st : AppState) :
  currentConversationId st = before ->
  effect_on_change before st = (Ok tt, st).
Proof.
  intros <-. unfold effect_on_change. rewrite same_id_refl. reflexivity.
Qed.

(** With nothing else running, the two requests of [addMessage] are the
    call of the repository. *)
Lemma addMessage_meanwhile_alone (env : Env) (msg : NewMessage)
    (st : AppState) :
  addMessage_meanwhile env msg (ret tt) st = addMessage env msg st.
Proof.
  destruct st as [ses convs cur msgs load provs d trs tr].
  unfold addMessage_meanwhile, addMessage, ChatService.addMessage.
  cbn [db log set_db session conversations currentConversationId messages
       isLoading providers transcripts trace ret snd].
  destruct (insert_message env msg d) as [[data | e] d1]; reflexivity.
Qed.

Lemma addMessage_meanwhile_same (env : Env) (msg : NewMessage)
    (before : option string) (st : AppState) :
  currentConversationId st = before ->
  addMessage_meanwhile env msg (effect_on_change before) st
  = addMessage env msg st.
Proof.
  intros <-. rewrite <- addMessage_meanwhile_alone.
  unfold addMessage_meanwhile.
  destruct (insert_message env msg (db (log (EvAddMessage msg) st)))
    as [[data | e] d1];
    rewrite effect_on_change_same by reflexivity; reflexivity.
Qed.

(** Over a store that answers, the effect leaves the store as it is and
    changes the transcript only. *)
Lemma effect_on_change_run (before : option string) (st : AppState) :
  db_faults (db st) = [] ->
  exists shown trs events,
    effect_on_change before st
    = (Ok tt,
       mkAppState (session st) (conversations st) (currentConversationId st)
         shown (isLoading st) (providers st) (db st) (transcripts st ++ trs)
         (trace st ++ events)).
Proof.
  destruct st as [ses convs cur msgs load provs [dm dc dr df] trs tr].
  cbn [db db_faults]. intros ->.
  unfold effect_on_change. cbn [currentConversationId].
  destruct (same_id before cur).
  - exists msgs, [], []. rewrite !app_nil_r. reflexivity.
  - unfold conversation_effect. cbn [currentConversationId].
    destruct (Js.truthy_opt cur); cbn.
    + do 3 eexists. reflexivity.
    + exists [], [[]], []. rewrite app_nil_r. reflexivity.
Qed.

(** With a session, a provider and a store that answers, a send in the open
    conversation reaches its third step with the user message stored and
    shown; the identifier does not change, and the transcript and the
    record of requests are those of the handler alone. *)
Lemma send_in_open_conversation (env : Env) (text providerId : string)
    (file : option File) (preview : option string) (st : AppState)
    (sess : Session) (p : AIProvider) :
  session st = Some sess ->
  find (fun q => String.eqb (prov_id q) providerId) (providers st) = Some p ->
  db_faults (db st) = [] ->
  Js.truthy_opt (currentConversationId st) = true ->
  exists uploaded userMsg st1 before,
    handleSendMessage env text providerId file preview st
    = process_response env p (Js.show (currentConversationId st)) text
        (messages st ++ [userMsg]) preview st1
    /\ (forall s, fst (upload_attachment env sess file preview s) = Ok uploaded)
    /\ userMsg
       = mkMessage (msg_id userMsg) (Js.show (currentConversationId st)) user
           text None (attachments_of uploaded) (msg_created_at userMsg)
    /\ messages st1 = messages st ++ [userMsg]
    /\ transcripts st1 = transcripts st ++ [messages st ++ [userMsg]]
    /\ db_messages (db st1) = db_messages (db st) ++ [userMsg]
    /\ db_faults (db st1) = []
    /\ trace st1
       = trace st ++ before
         ++ [EvAddMessage
               (mkNewMessage (Js.show (currentConversationId st)) user text
                  None (attachments_of uploaded))].
Proof.
  intros Hs Hf Hfaults Hopen.
  destruct (upload_attachment_run env sess file preview)
    as (uploaded & events & Hup & _).
  destruct st as [ses convs cur msgs load provs [dm dc dr df] trs tr].
  simpl in Hs, Hf, Hfaults, Hopen. subst ses df.
  unfold handleSendMessage. cbn [session providers]. rewrite Hf.
  cbv zeta. unfold bind at 1. unfold ensure_conversation.
  cbn [currentConversationId]. rewrite Hopen.
  cbn [ret]. unfold bind at 1. rewrite Hup.
  exists uploaded.
  assert (Hstep :
            forall (k : M unit) s,
              currentConversationId s = cur ->
              (match file with
               | Some _ => effect_on_change cur
               | None => ret tt
               end ;; k) s
              = k s).
  { intros k s Hcur. unfold bind at 1.
    destruct file; [rewrite effect_on_change_same by exact Hcur |];
      reflexivity. }
  rewrite Hstep by reflexivity. clear Hstep.
  unfold bind at 1.
  assert (Hadd :
            forall msg s,
              currentConversationId s = cur ->
              addMessage_meanwhile env msg
                match file with
                | Some _ => ret tt
                | None => effect_on_change cur
                end s
              = addMessage env msg s).
  { intros msg s Hcur. destruct file.
    - apply addMessage_meanwhile_alone.
    - apply addMessage_meanwhile_same. exact Hcur. }
  rewrite Hadd by reflexivity. clear Hadd.
  cbn -[process_response].
  do 2 eexists. exists events.
  split; [reflexivity |].
  split; [intros s; rewrite Hup; reflexivity |].
  cbn. repeat split. rewrite <- app_assoc. reflexivity.
Qed.

(** So does every send, also the one that opens a new conversation and so
    sets the effect going: the user message is stored, and shown last. *)
Lemma send_reaches_response (env : Env) (text providerId : string)
    (file : option File) (preview : option string) (st : AppState)
    (sess : Session) (p : AIProvider) :
  session st = Some sess ->
  find (fun q => String.eqb (prov_id q) providerId) (providers st) = Some p ->
  db_faults (db st) = [] ->
  exists convId uploaded userMsg st1 shown,
    handleSendMessage env text providerId file preview st
    = process_response env p convId text (messages st ++ [userMsg]) preview st1
    /\ (forall s, fst (upload_attachment env sess file preview s) = Ok uploaded)
    /\ userMsg
       = mkMessage (msg_id userMsg) convId user text None
           (attachments_of uploaded) (msg_created_at userMsg)
    /\ messages st1 = shown ++ [userMsg]
    /\ db_messages (db st1) = db_messages (db st) ++ [userMsg]
    /\ db_faults (db st1) = [].
Proof.
  intros Hs Hf Hfaults.
  destruct (Js.truthy_opt (currentConversationId st)) eqn:Hopen.
  - destruct (send_in_open_conversation env text providerId file preview st
                Hs Hf Hfaults Hopen)
      as (uploaded & userMsg & st1 & before
          & Hrun & Hup & Hmsg & Hshown & _ & Hrows & Hfaults1 & _).
    exists (Js.show (currentConversationId st)), uploaded, userMsg, st1,
           (messages st).
    repeat split; assumption.
  - destruct (upload_attachment_run env sess file preview)
      as (uploaded & events & Hup & _).
    destruct st as [ses convs cur msgs load provs [dm dc dr df] trs tr].
    simpl in Hs, Hf, Hfaults, Hopen. subst ses df.
    unfold handleSendMessage. cbn [session providers]. rewrite Hf.
    cbv zeta. unfold bind at 1. unfold ensure_conversation.
    cbn [currentConversationId]. rewrite Hopen.
    cbn -[process_response upload_attachment effect_on_change
          addMessage_meanwhile Js.substring0].
    unfold bind at 1. rewrite Hup.
    cbn -[process_response effect_on_change addMessage_meanwhile
          Js.substring0 upload_attachment].
    exists (env_row_id env dr), uploaded.
    destruct file as [f |].
    + unfold bind at 1.
      match goal with
      | |- context [effect_on_change ?b ?s] =>
          destruct (effect_on_change_run b s eq_refl)
            as (shown & trs' & evs & E)
      end.
      rewrite E. unfold addMessage_meanwhile.
      cbn -[process_response Js.substring0 upload_attachment].
      do 2 eexists. exists shown.
      split; [reflexivity |].
      split; [intros s; rewrite Hup; reflexivity |].
      cbn. repeat split.
    + unfold bind at 1. cbn [ret]. unfold bind at 1.
      unfold addMessage_meanwhile.
      cbn -[process_response effect_on_change Js.substring0 upload_attachment].
      match goal with
      | |- context [effect_on_change ?b ?s] =>
          destruct (effect_on_change_run b s eq_refl)
            as (shown & trs' & evs & E)
      end.
      rewrite E.
      cbn -[process_response Js.substring0 upload_attachment].
      do 2 eexists. exists shown.
      split; [reflexivity |].
      split; [intros s; rewrite Hup; reflexivity |].
      cbn. repeat split.
Qed.

End SendSteps.

(** ** The claims on [handleSendMessage] *)

(** C8. For a send with an attached file and its preview, when the blob
    store does not take the file (and the message store answers), the send
    goes on to its response step: the user message is stored and shown,
    with the preview as its one attachment reference. *)
Theorem upload_failure_keeps_send :
  forall (env : Env) (text providerId : string) (file : File)
         (preview : string) (st : App.AppState) (sess : App.Session)
         (p : AIProvider),
    App.session st = Some sess ->
    find (fun q => String.eqb (prov_id q) providerId) (App.providers st)
      = Some p ->
    Store.db_faults (App.db st) = [] ->
    (forall path, env_upload env path file <> Uploaded) ->
    Js.truthy preview = true ->
    exists convId userMsg st1,
      App.handleSendMessage env text providerId (Some file) (Some preview) st
      = App.process_response env p convId text (App.messages st ++ [userMsg])
          (Some preview) st1
      /\ msg_role userMsg = user
      /\ msg_content userMsg = text
      /\ msg_conversation_id userMsg = convId
      /\ msg_attachments userMsg = Some [preview]
      /\ In userMsg (Store.db_messages (App.db st1))
      /\ In userMsg (App.messages st1)
      /\ In userMsg
           (Store.db_messages
              (App.db
                 (snd (App.handleSendMessage env text providerId (Some file)
                         (Some preview) st)))).
Proof.
  intros env text providerId file preview st sess p Hs Hf Hfaults Hfails Hprev.
  destruct (send_reaches_response env text providerId (Some file)
              (Some preview) st Hs Hf Hfaults)
    as (convId & uploaded & userMsg & st1 & shown
        & Hrun & Hup & Hmsg & Hshown & Hrows & _).
  destruct (upload_attachment_run env sess (Some file) (Some preview))
    as (uploaded' & events & Hup' & Hfallback).
  assert (Huploaded : uploaded = Some preview).
  { specialize (Hup st). rewrite (Hup' st) in Hup. simpl in Hup.
    injection Hup as <-. apply (Hfallback file eq_refl Hfails). }
  subst uploaded. simpl in Hmsg. rewrite Hprev in Hmsg.
  assert (Hin : In userMsg (Store.db_messages (App.db st1)))
    by (rewrite Hrows; apply in_or_app; right; left; reflexivity).
  exists convId, userMsg, st1.
  split; [exact Hrun |].
  split; [rewrite Hmsg; reflexivity |].
  split; [rewrite Hmsg; reflexivity |].
  split; [rewrite Hmsg; reflexivity |].
  split; [rewrite Hmsg; reflexivity |].
  split; [exact Hin |].
  split; [rewrite Hshown; apply in_or_app; right; left; reflexivity |].
  rewrite Hrun.
  destruct (growing_process_response env p convId text
              (App.messages st ++ [userMsg]) (Some preview) st1)
    as [[extra Hextra] _].
  rewrite Hextra. apply in_or_app. left. exact Hin.
Qed.

(** C2. When the reply to a message sent in the open conversation arrives
    as the fragments "Hi", " there", "!", the transcript takes, after the
    user message and the empty placeholder, three values whose last message,
    the placeholder, holds "Hi", then "Hi there", then "Hi there!" (the
    whole buffer each time); on completion one assistant row with the
    content "Hi there!" is stored, and the transcript is loaded again from
    the store. *)
Theorem streamed_reply_accumulates :
  forall (env : Env) (text providerId : string) (file : option File)
         (preview : option string) (st : App.AppState) (sess : App.Session)
         (p : AIProvider),
    App.session st = Some sess ->
    find (fun q => String.eqb (prov_id q) providerId) (App.providers st)
      = Some p ->
    prov_category p <> Some IMAGE ->
    Store.db_faults (App.db st) = [] ->
    Js.truthy_opt (App.currentConversationId st) = true ->
    (forall adapter request,
        env_chat env adapter request
        = Streaming [Some "Hi"; Some " there"; Some "!"] Exhausted) ->
    exists convId userMsg persisted final,
      let placeholder content :=
        mkMessage (env_randomUUID env) convId assistant content None None
          (env_now env) in
      let shown buffer :=
        App.replace_content (env_randomUUID env) buffer
          (App.messages st ++ [userMsg]) ++ [placeholder buffer] in
      App.handleSendMessage env text providerId file preview st
      = (Ok tt, final)
      /\ App.transcripts final
         = App.transcripts st
           ++ [App.messages st ++ [userMsg];
               (App.messages st ++ [userMsg]) ++ [placeholder ""];
               shown "Hi"; shown "Hi there"; shown "Hi there!";
               App.messages final]
      /\ Store.db_messages (App.db final)
         = Store.db_messages (App.db st) ++ [userMsg; persisted]
      /\ msg_role persisted = assistant
      /\ msg_conversation_id persisted = convId
      /\ msg_content persisted = "Hi there!"
      /\ App.messages final
         = filter (fun m => String.eqb (msg_conversation_id m) convId)
             (Store.db_messages (App.db final)).
Proof.
  intros env text providerId file preview st sess p
         Hs Hf Hcat Hfaults Hopen Hchat.
  destruct (send_in_open_conversation env text providerId file preview st
              Hs Hf Hfaults Hopen)
    as (uploaded & userMsg & st1 & before
        & Hrun & _ & _ & Hshown & Htrans & Hrows & Hfaults1 & _).
  set (convId := Js.show (App.currentConversationId st)) in *.
  clearbody convId.
  exists convId, userMsg.
  rewrite Hrun.
  assert (Hmode :
            App.process_response env p convId text
              (App.messages st ++ [userMsg]) preview
            = App.chat_mode env (App.adapter_for env p) convId
                (Js.or_else (Some (prov_model_name p)) "gemini-2.5-flash")
                (App.messages st ++ [userMsg]) preview).
  { unfold App.process_response.
    destruct (prov_category p) as [[|] |]; congruence. }
  rewrite Hmode. clear Hmode.
  unfold App.chat_mode, AiAdapter.chatStream, AiAdapter.try_block.
  rewrite compose_snoc, Hchat.
  destruct st1 as [ses convs cur msgs load provs [dm dc dr df] trs tr].
  simpl in Hshown, Htrans, Hrows, Hfaults1. subst msgs trs dm df.
  cbn -[App.replace_content].
  do 2 eexists. split; [reflexivity |].
  cbn -[App.replace_content].
  rewrite !replace_content_last, !replace_content_twice.
  split; [rewrite <- !app_assoc; reflexivity |].
  split; [rewrite <- !app_assoc; reflexivity |].
  repeat split.
Qed.

(** The theorem above for a message sent in the open conversation. *)
Lemma streamed_reply_accumulates_witness :
  exists convId userMsg persisted final,
    App.handleSendMessage Scenario.chat_env "Hello again" "p-chat" None None
      Scenario.start
    = (Ok tt, final)
    /\ Store.db_messages (App.db final)
       = Store.db_messages (App.db Scenario.start) ++ [userMsg; persisted]
    /\ msg_conversation_id persisted = convId
    /\ msg_content persisted = "Hi there!".
Proof.
  destruct (@streamed_reply_accumulates Scenario.chat_env "Hello again"
              "p-chat" None None Scenario.start Scenario.a_session
              Scenario.chat_provider eq_refl eq_refl
              ltac:(discriminate) eq_refl eq_refl (fun _ _ => eq_refl))
    as (convId & userMsg & persisted & final
        & Hrun & _ & Hrows & _ & Hconv & Hcontent & _).
  exists convId, userMsg, persisted, final.
  split; [exact Hrun |]. split; [exact Hrows |].
  split; [exact Hconv | exact Hcontent].
Defined.

(** The theorem of C8 for a picture the blob store refuses. *)
Lemma upload_failure_keeps_send_witness :
  (forall path,
      env_upload Scenario.no_upload_env path Scenario.a_file <> Uploaded)
  /\ Js.truthy Scenario.a_preview = true
  /\ exists userMsg,
       msg_attachments userMsg = Some [Scenario.a_preview]
       /\ In userMsg
            (Store.db_messages
               (App.db
                  (snd (App.handleSendMessage Scenario.no_upload_env
                          "What is this?" "p-chat" (Some Scenario.a_file)
                          (Some Scenario.a_preview) Scenario.start)))).
Proof.
  split; [intros path; discriminate |]. split; [reflexivity |].
  destruct (@upload_failure_keeps_send Scenario.no_upload_env "What is this?"
              "p-chat" Scenario.a_file Scenario.a_preview Scenario.start
              Scenario.a_session Scenario.chat_provider eq_refl eq_refl
              eq_refl ltac:(intros path; discriminate) eq_refl)
    as (convId & userMsg & st1 & _ & _ & _ & _ & Hatt & _ & _ & Hin).
  exists userMsg. split; [exact Hatt | exact Hin].
Defined.

(** What an image send in the open conversation does, with a store that
    answers and an image that resolves: the placeholder "Generating
    image..." is inserted in the store before the image is requested; when
    the image resolves a second assistant row, holding the image, is
    inserted after it, the placeholder row stays as it was, and only the
    transcript of the component replaces the placeholder by the new row. *)
Lemma image_send_appends_record :
  forall (env : Env) (text providerId : string) (file : option File)
         (preview : option string) (st : App.AppState) (sess : App.Session)
         (p : AIProvider) (url : string),
    App.session st = Some sess ->
    find (fun q => String.eqb (prov_id q) providerId) (App.providers st)
      = Some p ->
    prov_category p = Some IMAGE ->
    Store.db_faults (App.db st) = [] ->
    Js.truthy_opt (App.currentConversationId st) = true ->
    AiAdapter.generateImage env (App.adapter_for env p) text
      (Js.or_else (Some (prov_model_name p)) "gemini-2.5-flash") = Ok url ->
    exists convId userMsg placeholder imgMsg final before,
      App.handleSendMessage env text providerId file preview st
      = (Ok tt, final)
      /\ Store.db_messages (App.db final)
         = Store.db_messages (App.db st) ++ [userMsg; placeholder; imgMsg]
      /\ placeholder
         = mkMessage (msg_id placeholder) convId assistant
             "Generating image..." None None (msg_created_at placeholder)
      /\ imgMsg
         = mkMessage (msg_id imgMsg) convId assistant
             ("Here is your image for: " ++ App.quote ++ text ++ App.quote)%string
             (Some url) None (msg_created_at imgMsg)
      /\ App.messages final
         = App.replace_message (msg_id placeholder) imgMsg
             (App.messages st ++ [userMsg]) ++ [imgMsg]
      /\ App.trace final
         = App.trace st ++ before
           ++ [App.EvAddMessage
                 (mkNewMessage convId user text None (msg_attachments userMsg));
               App.EvAddMessage
                 (mkNewMessage convId assistant "Generating image..." None None);
               App.EvGenerateImage (App.adapter_for env p) text
                 (Js.or_else (Some (prov_model_name p)) "gemini-2.5-flash");
               App.EvAddMessage
                 (mkNewMessage convId assistant
                    ("Here is your image for: " ++ App.quote ++ text
                     ++ App.quote)%string
                    (Some url) None)].
Proof.
  intros env text providerId file preview st sess p url
         Hs Hf Hcat Hfaults Hopen Himage.
  destruct (send_in_open_conversation env text providerId file preview st
              Hs Hf Hfaults Hopen)
    as (uploaded & userMsg & st1 & before
        & Hrun & _ & Hmsg & Hshown & _ & Hrows & Hfaults1 & Htrace).
  set (convId := Js.show (App.currentConversationId st)) in *.
  clearbody convId.
  exists convId, userMsg.
  rewrite Hrun. unfold App.process_response. rewrite Hcat.
  unfold App.image_mode, App.finally, App.try_catch, App.bind.
  destruct st1 as [ses convs cur msgs load provs [dm dc dr df] trs tr].
  simpl in Hshown, Hrows, Hfaults1, Htrace. subst msgs dm df tr.
  cbn -[AiAdapter.generateImage App.adapter_for Js.or_else
        App.replace_message].
  rewrite Himage.
  cbn -[AiAdapter.generateImage App.adapter_for Js.or_else
        App.replace_message].
  do 3 eexists. exists before. split; [reflexivity |].
  cbn -[App.adapter_for Js.or_else App.replace_message].
  split; [rewrite <- !app_assoc; reflexivity |].
  split; [reflexivity |]. split; [reflexivity |].
  split.
  - unfold App.replace_message. rewrite map_app. simpl.
    rewrite String.eqb_refl. reflexivity.
  - rewrite Hmsg at 1. simpl. rewrite <- !app_assoc. reflexivity.
Qed.

(** The lemma above for a picture asked in the open conversation. *)
Lemma image_send_appends_record_witness :
  AiAdapter.generateImage Scenario.image_env
    (App.adapter_for Scenario.image_env Scenario.image_provider) "a red kite"
    "gemini-2.5-flash-image"
  = Ok "data:image/png;base64,iVBORw0KGgo="
  /\ exists userMsg placeholder imgMsg final,
       App.handleSendMessage Scenario.image_env "a red kite" "p-image" None
         None Scenario.start
       = (Ok tt, final)
       /\ Store.db_messages (App.db final)
          = Store.db_messages (App.db Scenario.start)
            ++ [userMsg; placeholder; imgMsg].
Proof.
  split; [reflexivity |].
  destruct (@image_send_appends_record Scenario.image_env "a red kite"
              "p-image" None None Scenario.start Scenario.a_session
              Scenario.image_provider "data:image/png;base64,iVBORw0KGgo="
              eq_refl eq_refl eq_refl eq_refl eq_refl eq_refl)
    as (convId & userMsg & placeholder & imgMsg & final & before
        & Hrun & Hrows & _).
  exists userMsg, placeholder, imgMsg, final.
  split; [exact Hrun | exact Hrows].
Defined.

(** C5. The placeholder "Generating image..." is stored before the image is
    requested, but it is not updated in place when the image resolves. After
    "a red kite" is asked of the image provider in the open conversation
    and the picture arrives, the store holds the placeholder row as it was,
    without image, and a second assistant row with the image after it; the
    transcript of the component shows the new row in the place of the
    placeholder; and what the store gives for the conversation, which is
    what the next load shows, still has the placeholder. *)
Theorem image_send_leaves_placeholder_row :
  let final :=
    snd (App.handleSendMessage Scenario.image_env "a red kite" "p-image" None
           None Scenario.start) in
  let shape (m : Message) := (msg_role m, msg_content m, msg_image_url m) in
  let caption :=
    ("Here is your image for: " ++ App.quote ++ "a red kite" ++ App.quote)%string in
  let picture := Some "data:image/png;base64,iVBORw0KGgo=" in
  map shape (Store.db_messages (App.db final))
  = [(user, "Hello", None);
     (assistant, "Hello, how can I help?", None);
     (user, "a red kite", None);
     (assistant, "Generating image...", None);
     (assistant, caption, picture)]
  /\ map shape (App.messages final)
     = [(user, "Hello", None);
        (assistant, "Hello, how can I help?", None);
        (user, "a red kite", None);
        (assistant, caption, picture)]
  /\ fst (ChatService.getMessages "conv-1" (App.db final))
     = Ok (Store.db_messages (App.db final))
  /\ map msg_id (Store.db_messages (App.db final))
     = ["m-1"; "m-2"; "row-3"; "row-4"; "row-5"].
Proof. repeat split. Qed.

(* ===================================================================== *)
(** * Further properties of the code *)
(* ===================================================================== *)

(** ** [chatStream]: the delivery of the fragments *)

Section ChunkDelivery.

Import AiAdapter.

Variable S : Type.
Variable cb : Callbacks S.

Lemma for_await_prefix (fragments : list (option string)) (s : S) :
  exists k,
    k <= length (fragment_texts fragments)
    /\ fst (for_await cb fragments s)
       = map CallChunk (firstn k (fragment_texts fragments)).
Proof.
  revert s. induction fragments as [| f rest IH]; intros s.
  - exists 0. split; [apply Nat.le_refl | reflexivity].
  - destruct f as [text |]; [| apply IH].
    cbn [for_await fragment_texts flat_map].
    destruct (Js.truthy text); [| apply IH].
    fold (fragment_texts rest). cbn [app].
    destruct (onChunk cb text s) as [s1 | e s1].
    + destruct (IH s1) as (k & Hk & Hcalls).
      destruct (for_await cb rest s1) as [calls c]. simpl in Hcalls.
      exists (Datatypes.S k). split; [simpl; lia |].
      simpl. rewrite Hcalls. reflexivity.
    + exists 1. split; [simpl; lia | reflexivity].
Qed.

Lemma for_await_all (fragments : list (option string)) (s : S) :
  (forall text s0, exists s1, onChunk cb text s0 = Returns s1) ->
  exists s',
    for_await cb fragments s
    = (map CallChunk (fragment_texts fragments), Returns s').
Proof.
  intros Hreturns. revert s.
  induction fragments as [| f rest IH]; intros s.
  - exists s. reflexivity.
  - destruct f as [text |]; [| apply IH].
    cbn [for_await fragment_texts flat_map].
    destruct (Js.truthy text); [| apply IH].
    fold (fragment_texts rest). cbn [app].
    destruct (Hreturns text s) as [s1 Hs1]. rewrite Hs1.
    destruct (IH s1) as [s' Hs']. rewrite Hs'.
    exists s'. reflexivity.
Qed.

End ChunkDelivery.

(** X1. Whatever the callbacks do, [chatStream] calls [onChunk] with the
    non-empty texts of the stream in the order of their arrival, each at most
    once and none skipped before the last one delivered: its [onChunk] calls
    are a prefix of those texts, and one or two terminal calls follow. *)
Theorem chatStream_chunks_in_order :
  forall (S : Type) (cb : AiAdapter.Callbacks S) (env : Env)
         (adapter : GeminiAdapter) (messages : list Message)
         (modelName : string) (attachment : option string) (s : S)
         (req : ChatRequest) (fragments : list (option string))
         (fin : StreamEnd),
    AiAdapter.compose env messages modelName attachment = Ok req ->
    env_chat env adapter req = Streaming fragments fin ->
    exists k tail,
      k <= length (AiAdapter.fragment_texts fragments)
      /\ AiAdapter.run_calls
           (AiAdapter.chatStream cb env adapter messages modelName attachment s)
         = map AiAdapter.CallChunk
             (firstn k (AiAdapter.fragment_texts fragments)) ++ tail
      /\ AiAdapter.count AiAdapter.is_chunk tail = 0
      /\ 1 <= length tail <= 2.
Proof.
  intros S cb env adapter messages modelName attachment s req fragments fin
         Hreq Hchat.
  destruct (for_await_prefix cb fragments s) as (k & Hk & Hcalls).
  exists k.
  unfold AiAdapter.chatStream, AiAdapter.try_block. rewrite Hreq, Hchat.
  destruct (AiAdapter.for_await cb fragments s) as [calls [s1 | e s1]];
    simpl in Hcalls; subst calls.
  - destruct fin as [| e].
    + destruct (AiAdapter.onComplete cb s1) as [s2 | e s2].
      * eexists. split; [exact Hk |]. split; [reflexivity |].
        split; [reflexivity | simpl; lia].
      * rewrite catch_block_calls, <- app_assoc.
        eexists. split; [exact Hk |]. split; [reflexivity |].
        split; [reflexivity | simpl; lia].
    + rewrite catch_block_calls.
      eexists. split; [exact Hk |]. split; [reflexivity |].
      split; [reflexivity | simpl; lia].
  - rewrite catch_block_calls.
    eexists. split; [exact Hk |]. split; [reflexivity |].
    split; [reflexivity | simpl; lia].
Qed.

(** The theorem above at the sample stream. *)
Lemma chatStream_chunks_in_order_witness :
  exists k tail,
    AiAdapter.run_calls
      (AiAdapter.chatStream Scenario.failing_onComplete Scenario.chat_env
         Scenario.an_adapter [Scenario.hello] "gemini-2.5-flash" None tt)
    = map AiAdapter.CallChunk (firstn k ["Hi"; " there"; "!"]) ++ tail
    /\ 1 <= length tail <= 2.
Proof.
  destruct (@chatStream_chunks_in_order unit Scenario.failing_onComplete
              Scenario.chat_env Scenario.an_adapter [Scenario.hello]
              "gemini-2.5-flash" None tt _ _ _ eq_refl eq_refl)
    as (k & tail & _ & Hcalls & _ & Hlen).
  exists k, tail. split; [exact Hcalls | exact Hlen].
Defined.

(** X2. When [onChunk] never throws, every non-empty text of the stream is
    delivered before the terminal call, also when the stream then breaks:
    a broken stream gives all its texts and then [onError] with the error of
    the stream; an exhausted one gives all its texts and then [onComplete]. *)
Theorem chatStream_delivers_all_texts :
  forall (S : Type) (cb : AiAdapter.Callbacks S) (env : Env)
         (adapter : GeminiAdapter) (messages : list Message)
         (modelName : string) (attachment : option string) (s : S)
         (req : ChatRequest) (fragments : list (option string))
         (fin : StreamEnd),
    (forall text s0, exists s1,
        AiAdapter.onChunk cb text s0 = AiAdapter.Returns s1) ->
    AiAdapter.compose env messages modelName attachment = Ok req ->
    env_chat env adapter req = Streaming fragments fin ->
    exists tail,
      AiAdapter.run_calls
        (AiAdapter.chatStream cb env adapter messages modelName attachment s)
      = map AiAdapter.CallChunk (AiAdapter.fragment_texts fragments)
        ++ match fin with
           | Exhausted => AiAdapter.CallComplete :: tail
           | Broken e => [AiAdapter.CallError e]
           end.
Proof.
  intros S cb env adapter messages modelName attachment s req fragments fin
         Hreturns Hreq Hchat.
  destruct (for_await_all cb fragments s Hreturns) as [s1 Hs1].
  unfold AiAdapter.chatStream, AiAdapter.try_block.
  rewrite Hreq, Hchat, Hs1.
  destruct fin as [| e].
  - destruct (AiAdapter.onComplete cb s1) as [s2 | e s2].
    + exists []. reflexivity.
    + rewrite catch_block_calls, <- app_assoc. eexists. reflexivity.
  - rewrite catch_block_calls. exists []. reflexivity.
Qed.

(** The theorem above for a stream that breaks after its three texts. *)
Lemma chatStream_delivers_all_texts_witness :
  AiAdapter.run_calls
    (AiAdapter.chatStream Scenario.quiet
       (Scenario.env_of
          (Streaming [Some "Hi"; None; Some ""; Some " there"; Some "!"]
             (Broken (Foreign "connection reset")))
          (Ok None) Scenario.no_candidates Uploaded)
       Scenario.an_adapter [Scenario.hello] "gemini-2.5-flash" None tt)
  = [AiAdapter.CallChunk "Hi"; AiAdapter.CallChunk " there";
     AiAdapter.CallChunk "!";
     AiAdapter.CallError (Foreign "connection reset")].
Proof.
  destruct (@chatStream_delivers_all_texts unit Scenario.quiet
              (Scenario.env_of
                 (Streaming [Some "Hi"; None; Some ""; Some " there"; Some "!"]
                    (Broken (Foreign "connection reset")))
                 (Ok None) Scenario.no_candidates Uploaded)
              Scenario.an_adapter [Scenario.hello] "gemini-2.5-flash" None tt
              _ _ _ (fun text s0 => ex_intro _ s0 eq_refl) eq_refl eq_refl)
    as [tail Hcalls].
  exact Hcalls.
Defined.

(** X3. The promise of [chatStream] is rejected by nothing but an [onError]
    that throws: when [onError] returns normally, the call resolves for
    every input, whatever fails inside it. *)
Theorem chatStream_resolves :
  forall (S : Type) (cb : AiAdapter.Callbacks S) (env : Env)
         (adapter : GeminiAdapter) (messages : list Message)
         (modelName : string) (attachment : option string) (s : S),
    (forall e s0, exists s1,
        AiAdapter.onError cb e s0 = AiAdapter.Returns s1) ->
    AiAdapter.run_settled
      (AiAdapter.chatStream cb env adapter messages modelName attachment s)
    = Ok tt.
Proof.
  intros S cb env adapter messages modelName attachment s Hreturns.
  assert (Hcatch : forall calls e s1,
             AiAdapter.run_settled (AiAdapter.catch_block cb calls e s1)
             = Ok tt).
  { intros calls e s1. unfold AiAdapter.catch_block.
    destruct (Hreturns e s1) as [s2 Hs2]. rewrite Hs2. reflexivity. }
  unfold AiAdapter.chatStream.
  destruct (AiAdapter.try_block cb env adapter messages modelName attachment s)
    as [calls [s1 | e s1]].
  - destruct (AiAdapter.onComplete cb s1) as [s2 | e s2];
      [reflexivity | apply Hcatch].
  - apply Hcatch.
Qed.

(** The theorem above for an [onComplete] that throws on an empty list of
    messages and on the sample stream. *)
Lemma chatStream_resolves_witness :
  AiAdapter.run_settled
    (AiAdapter.chatStream Scenario.failing_onComplete Scenario.chat_env
       Scenario.an_adapter [] "gemini-2.5-flash" None tt)
  = Ok tt
  /\ AiAdapter.run_settled
       (AiAdapter.chatStream Scenario.failing_onComplete Scenario.chat_env
          Scenario.an_adapter [Scenario.hello] "gemini-2.5-flash" None tt)
     = Ok tt.
Proof.
  split;
    apply (@chatStream_resolves unit Scenario.failing_onComplete);
    intros e s0; exists s0; reflexivity.
Defined.

(** ** The parts of a composed request *)

Lemma or_else_truthy (a : option string) (d : string) :
  Js.truthy d = true -> Js.truthy (Js.or_else a d) = true.
Proof.
  intros Hd. unfold Js.or_else. destruct a as [s |]; [| exact Hd].
  destruct (Js.truthy s) eqn:E; [exact E | exact Hd].
Qed.

Lemma inline_of_data_url_typed (s mime : string) (data : option string) :
  AiAdapter.inline_of_data_url s = InlineDataPart mime data ->
  Js.truthy mime = true.
Proof.
  unfold AiAdapter.inline_of_data_url, Js.split_comma. cbv beta iota.
  intros H. injection H as <- _.
  apply or_else_truthy. reflexivity.
Qed.

Lemma urlToInlineData_typed (env : Env) (url mime : string)
    (data : option string) :
  AiAdapter.urlToInlineData env url = Some (InlineDataPart mime data) ->
  Js.truthy mime = true.
Proof.
  unfold AiAdapter.urlToInlineData.
  destruct (env_fetch env url) as [e | t | blobType [base64 |]];
    try discriminate.
  destruct (negb (Js.truthy base64) || negb (Js.includes base64 ","));
    [discriminate |].
  unfold Js.split_comma. cbv beta iota. intros H. injection H as <- _.
  apply or_else_truthy.
  change (Js.truthy (Js.or_else (Some blobType) "application/octet-stream")
          = true).
  apply or_else_truthy. reflexivity.
Qed.

Lemma history_attachment_typed (env : Env) (att mime : string)
    (data : option string) :
  In (InlineDataPart mime data) (AiAdapter.history_attachment env att) ->
  Js.truthy mime = true.
Proof.
  unfold AiAdapter.history_attachment.
  destruct (Js.startsWith att "data:").
  - intros [H | []]. eapply inline_of_data_url_typed; exact H.
  - destruct (Js.startsWith att "http"); [| intros []].
    destruct (AiAdapter.urlToInlineData env att) as [p |] eqn:E; [| intros []].
    intros [H | []]. subst p. eapply urlToInlineData_typed; exact E.
Qed.

Lemma last_attachment_typed (env : Env) (att mime : string)
    (data : option string) :
  In (InlineDataPart mime data) (AiAdapter.last_attachment env att) ->
  Js.truthy mime = true.
Proof.
  unfold AiAdapter.last_attachment.
  destruct (Js.startsWith att "http").
  - destruct (AiAdapter.urlToInlineData env att) as [p |] eqn:E; [| intros []].
    intros [H | []]. subst p. eapply urlToInlineData_typed; exact E.
  - destruct (Js.startsWith att "data:"); [| intros []].
    intros [H | []]. eapply inline_of_data_url_typed; exact H.
Qed.

(** X4. Every inline part of a request [chatStream] composes, in the
    history and in the new turn, carries a non-empty media type: a reference
    without one gets 'application/octet-stream' (or the type of the fetched
    body). *)
Theorem composed_parts_have_media_type :
  forall (env : Env) (messages : list Message) (modelName : string)
         (attachment : option string) (req : ChatRequest),
    AiAdapter.compose env messages modelName attachment = Ok req ->
    (forall mime data,
        In (InlineDataPart mime data) (req_message req) ->
        Js.truthy mime = true)
    /\ (forall t mime data,
           In t (req_history req) ->
           In (InlineDataPart mime data) (turn_parts t) ->
           Js.truthy mime = true).
Proof.
  intros env messages modelName attachment req Hreq.
  unfold AiAdapter.compose in Hreq.
  destruct messages as [| m rest]; [discriminate |].
  set (lastMessage := last (m :: rest) m) in Hreq. clearbody lastMessage.
  set (history := removelast (m :: rest)) in Hreq. clearbody history.
  injection Hreq as <-. cbn [req_message req_history]. split.
  - intros mime data Hin. unfold AiAdapter.message_content in Hin.
    assert (Hrec : forall atts,
               In (InlineDataPart mime data)
                  (flat_map (AiAdapter.last_attachment env) atts) ->
               Js.truthy mime = true).
    { intros atts H. apply in_flat_map in H. destruct H as (att & _ & H).
      eapply last_attachment_typed; exact H. }
    destruct Hin as [Hin | Hin]; [discriminate |].
    destruct attachment as [a |].
    + destruct (Js.truthy a).
      * destruct Hin as [Hin | []]. eapply inline_of_data_url_typed; exact Hin.
      * destruct (msg_attachments lastMessage) as [atts |];
          [eapply Hrec; exact Hin | destruct Hin].
    + destruct (msg_attachments lastMessage) as [atts |];
        [eapply Hrec; exact Hin | destruct Hin].
  - intros t mime data Ht Hin. apply in_map_iff in Ht.
    destruct Ht as (h & <- & _). cbn [turn_parts AiAdapter.history_turn] in Hin.
    destruct Hin as [Hin | Hin]; [discriminate |].
    destruct (msg_attachments h) as [atts |]; [| destruct Hin].
    apply in_flat_map in Hin. destruct Hin as (att & _ & Hin).
    eapply history_attachment_typed; exact Hin.
Qed.

(** The theorem above for a message whose attachment has no media type. *)
Lemma composed_parts_have_media_type_witness :
  AiAdapter.compose Scenario.chat_env [Scenario.hello] "gemini-2.5-flash"
    (Some "nonsense")
  = Ok {| req_model := "gemini-2.5-flash";
          req_history := [];
          req_message :=
            [TextPart "Hello";
             InlineDataPart "application/octet-stream" None] |}
  /\ Js.truthy "application/octet-stream" = true.
Proof.
  split; [reflexivity |].
  apply (proj1 (@composed_parts_have_media_type Scenario.chat_env
                  [Scenario.hello] "gemini-2.5-flash" (Some "nonsense") _
                  eq_refl)
           "application/octet-stream" None).
  right. left. reflexivity.
Defined.

(** ** Data URLs: written by [generateImage], read by [chatStream] *)

Lemma string_append_assoc (a b c : string) :
  ((a ++ b) ++ c)%string = (a ++ b ++ c)%string.
Proof.
  induction a as [| x a IH]; simpl; [reflexivity |].
  rewrite IH. reflexivity.
Qed.

Lemma before_without (sep : ascii) (s : string) :
  Js.after sep s = None -> Js.before sep s = s.
Proof.
  induction s as [| c s IH]; simpl; [reflexivity |].
  destruct (Ascii.eqb c sep); [discriminate |].
  intros H. rewrite (IH H). reflexivity.
Qed.

Lemma before_append (sep : ascii) (a b : string) :
  Js.after sep a = None -> Js.before sep (a ++ String sep b)%string = a.
Proof.
  induction a as [| c a IH]; simpl.
  - rewrite Ascii.eqb_refl. reflexivity.
  - destruct (Ascii.eqb c sep); [discriminate |].
    intros H. rewrite (IH H). reflexivity.
Qed.

Lemma after_append (sep : ascii) (a b : string) :
  Js.after sep a = None -> Js.after sep (a ++ String sep b)%string = Some b.
Proof.
  induction a as [| c a IH]; simpl.
  - rewrite Ascii.eqb_refl. reflexivity.
  - destruct (Ascii.eqb c sep); [discriminate | exact IH].
Qed.

Lemma after_app_none (sep : ascii) (a b : string) :
  Js.after sep a = None -> Js.after sep b = None ->
  Js.after sep (a ++ b)%string = None.
Proof.
  induction a as [| c a IH]; simpl; [intros _ H; exact H |].
  destruct (Ascii.eqb c sep); [discriminate | exact IH].
Qed.

Lemma lazy_until_semicolon_append (mime rest : string) :
  Js.after ";" mime = None ->
  Js.after "010" mime = None ->
  Js.after "013" mime = None ->
  Js.lazy_until_semicolon (mime ++ String ";" rest)%string = Some mime.
Proof.
  induction mime as [| c mime IH]; simpl; [reflexivity |].
  unfold Js.line_terminator.
  destruct (Ascii.eqb c ";"); [discriminate |].
  destruct (Ascii.eqb c "010"); [discriminate |].
  destruct (Ascii.eqb c "013"); [discriminate |].
  intros H1 H2 H3. simpl. rewrite (IH H1 H2 H3). reflexivity.
Qed.

(** X5. A reference written as [generateImage] writes it,
    [data:<type>;base64,<data>], is read back by [chatStream] as the inline
    part with the same media type and data, for a non-empty type without
    semicolon, comma or line break and data without comma. *)
Theorem data_url_round_trip :
  forall (mime data : string),
    Js.truthy mime = true ->
    Js.after ";" mime = None ->
    Js.after "," mime = None ->
    Js.after "010" mime = None ->
    Js.after "013" mime = None ->
    Js.after "," data = None ->
    AiAdapter.inline_of_data_url
      (AiAdapter.inline_reference
         {| blob_mimeType := Some mime; blob_data := Some data |})
    = InlineDataPart mime (Some data).
Proof.
  intros mime data Hmime Hsemi Hcomma Hlf Hcr Hdata.
  unfold AiAdapter.inline_reference, AiAdapter.inline_of_data_url,
    Js.split_comma. cbn [blob_mimeType blob_data Js.show].
  assert (Hheader : Js.after "," ("data:" ++ mime ++ ";base64")%string = None).
  { simpl. apply after_app_none; [exact Hcomma | reflexivity]. }
  assert (Hshape : ("data:" ++ mime ++ ";base64," ++ data)%string
                   = (("data:" ++ mime ++ ";base64") ++ String "," data)%string).
  { simpl. rewrite string_append_assoc. reflexivity. }
  rewrite Hshape, before_append, after_append by exact Hheader.
  cbn [option_map]. rewrite before_without by exact Hdata.
  assert (Hmatch : Js.match_mime ("data:" ++ mime ++ ";base64")%string
                   = Some mime).
  { simpl. change (mime ++ ";base64")%string
        with (mime ++ String ";" "base64")%string.
    rewrite lazy_until_semicolon_append by assumption. reflexivity. }
  rewrite Hmatch. unfold Js.or_else. rewrite Hmime. reflexivity.
Qed.

(** The theorem above for a PNG picture. *)
Lemma data_url_round_trip_witness :
  AiAdapter.inline_of_data_url "data:image/png;base64,iVBORw0KGgo="
  = InlineDataPart "image/png" (Some "iVBORw0KGgo=").
Proof.
  apply (@data_url_round_trip "image/png" "iVBORw0KGgo="
           eq_refl eq_refl eq_refl eq_refl eq_refl eq_refl).
Defined.

(** ** Attachments that cannot be resolved *)

Lemma flat_map_length_le (A B : Type) (f : A -> list B) (l : list A) :
  (forall a, length (f a) <= 1) -> length (flat_map f l) <= length l.
Proof.
  intros Hf. induction l as [| a l IH]; simpl; [apply Nat.le_refl |].
  rewrite length_app. specialize (Hf a). lia.
Qed.

Lemma history_attachment_one (env : Env) (a : string) :
  length (AiAdapter.history_attachment env a) <= 1.
Proof.
  unfold AiAdapter.history_attachment.
  destruct (Js.startsWith a "data:"); [apply Nat.le_refl |].
  destruct (Js.startsWith a "http"); [| apply Nat.le_0_l].
  destruct (AiAdapter.urlToInlineData env a);
    [apply Nat.le_refl | apply Nat.le_0_l].
Qed.

(** Elements that give nothing can be left out of a [flat_map]. *)
Lemma flat_map_filter_nil (A B : Type) (f : A -> list B) (keep : A -> bool)
    (l : list A) :
  (forall a, In a l -> keep a = false -> f a = []) ->
  flat_map f l = flat_map f (filter keep l).
Proof.
  intros Hf. induction l as [| a l IH]; [reflexivity |].
  cbn [flat_map filter].
  rewrite IH by (intros b Hb; apply Hf; right; exact Hb).
  destruct (keep a) eqn:E; [reflexivity |].
  rewrite (Hf a (or_introl eq_refl) E). reflexivity.
Qed.

(** X6. A historical message gives its text and at most one part per
    attachment. An attachment that is neither a data URL nor an http URL, or
    an http URL whose fetch is rejected or answered with a failure status,
    gives no part and no error, whatever the other attachments of the
    message are: the turn is the one of the message without such
    attachments, the others give their parts in their order (a data URL
    always gives one), and the request is composed all the same. *)
Theorem unresolved_attachments_are_omitted :
  forall (env : Env) (history : list Message) (m turn : Message)
         (atts unresolved : list string) (modelName : string)
         (attachment : option string),
    In m history ->
    msg_attachments m = Some atts ->
    (forall a, In a unresolved ->
       Js.startsWith a "data:" = false
       /\ (Js.startsWith a "http" = true ->
           (exists t, env_fetch env a = FetchStatus t)
           \/ (exists e, env_fetch env a = FetchRejects e))) ->
    let others :=
      filter (fun a => negb (existsb (String.eqb a) unresolved)) atts in
    length (turn_parts (AiAdapter.history_turn env m)) <= 1 + length others
    /\ length others <= length atts
    /\ turn_parts (AiAdapter.history_turn env m)
       = TextPart (msg_content m)
         :: flat_map (AiAdapter.history_attachment env) others
    /\ (forall a, In a unresolved ->
          AiAdapter.history_attachment env a = [])
    /\ (forall a, In a atts -> Js.startsWith a "data:" = true ->
          In a others
          /\ exists mime data,
               AiAdapter.history_attachment env a
               = [InlineDataPart mime data])
    /\ exists req,
         AiAdapter.compose env (history ++ [turn]) modelName attachment = Ok req
         /\ In {| turn_role := AiAdapter.model_role (msg_role m);
                  turn_parts :=
                    TextPart (msg_content m)
                    :: flat_map (AiAdapter.history_attachment env) others |}
               (req_history req).
Proof.
  intros env history m turn atts unresolved modelName attachment
         Hin Hatts Hbad others.
  assert (Hnone : forall a, In a unresolved ->
                    AiAdapter.history_attachment env a = []).
  { intros a Ha. destruct (Hbad a Ha) as [Hdata Hhttp].
    unfold AiAdapter.history_attachment. rewrite Hdata.
    destruct (Js.startsWith a "http"); [| reflexivity].
    unfold AiAdapter.urlToInlineData.
    destruct (Hhttp eq_refl) as [[t Ht] | [e He]].
    - rewrite Ht. reflexivity.
    - rewrite He. reflexivity. }
  assert (Hsame : flat_map (AiAdapter.history_attachment env) atts
                  = flat_map (AiAdapter.history_attachment env) others).
  { apply flat_map_filter_nil. intros a _ Ha.
    apply negb_false_iff, existsb_exists in Ha.
    destruct Ha as (b & Hb & Hab). apply String.eqb_eq in Hab. subst b.
    exact (Hnone a Hb). }
  assert (Hturn : AiAdapter.history_turn env m
                  = {| turn_role := AiAdapter.model_role (msg_role m);
                       turn_parts :=
                         TextPart (msg_content m)
                         :: flat_map (AiAdapter.history_attachment env)
                              others |}).
  { unfold AiAdapter.history_turn. rewrite Hatts, Hsame. reflexivity. }
  split.
  { rewrite Hturn. cbn [turn_parts length]. apply le_n_S.
    apply flat_map_length_le. apply history_attachment_one. }
  split; [apply filter_length_le |].
  split; [rewrite Hturn; reflexivity |].
  split; [exact Hnone |].
  split.
  { intros a Ha Hdata. split.
    - apply filter_In. split; [exact Ha |].
      apply negb_true_iff.
      destruct (existsb (String.eqb a) unresolved) eqn:E; [| reflexivity].
      apply existsb_exists in E. destruct E as (b & Hb & Hab).
      apply String.eqb_eq in Hab. subst b.
      destruct (Hbad a Hb) as [Hno _]. congruence.
    - unfold AiAdapter.history_attachment. rewrite Hdata.
      destruct (AiAdapter.inline_of_data_url a) as [t | mime data] eqn:E.
      + unfold AiAdapter.inline_of_data_url in E.
        destruct (Js.split_comma a). discriminate.
      + exists mime, data. reflexivity. }
  eexists. split; [apply compose_snoc |]. cbn [req_history].
  rewrite <- Hturn. apply in_map. exact Hin.
Qed.

(** The theorem above for a message with a picture, a link that answers 404
    and a reference of an unknown shape: the picture alone is sent. *)
Lemma unresolved_attachments_are_omitted_witness :
  turn_parts
    (AiAdapter.history_turn Scenario.chat_env
       (mkMessage "m-4" "conv-1" user "See this" None
          (Some ["https://example.org/missing.png";
                 "data:image/png;base64,iVBORw0KGgo="; "blob:1234"])
          "2024-12-31T23:59:20.000Z"))
  = [TextPart "See this"; InlineDataPart "image/png" (Some "iVBORw0KGgo=")].
Proof.
  refine (proj1 (proj2 (proj2
    (@unresolved_attachments_are_omitted Scenario.chat_env
       [mkMessage "m-4" "conv-1" user "See this" None
          (Some ["https://example.org/missing.png";
                 "data:image/png;base64,iVBORw0KGgo="; "blob:1234"])
          "2024-12-31T23:59:20.000Z"]
       _ Scenario.hello
       ["https://example.org/missing.png";
        "data:image/png;base64,iVBORw0KGgo="; "blob:1234"]
       ["https://example.org/missing.png"; "blob:1234"]
       "gemini-2.5-flash" None (or_introl eq_refl) eq_refl _)))).
  intros a [<- | [<- | []]]; (split; [reflexivity |]).
  - intros _. left. exists "Not Found". reflexivity.
  - discriminate.
Defined.

(** ** [generateImage]: what it returns and how it fails *)

Lemma rev_general_path_not_empty (env : Env) (adapter : GeminiAdapter)
    (prompt modelName url : string) :
  AiAdapterRev.general_path env adapter prompt modelName = Ok url ->
  Js.startsWith url "data:" = true.
Proof.
  unfold AiAdapterRev.general_path.
  destruct (env_generateContent env adapter modelName prompt) as [resp | e];
    [| discriminate].
  destruct (resp_candidates resp) as [[| c cs] |]; try discriminate.
  destruct (cand_content c) as [content |]; [| discriminate].
  destruct (content_parts content) as [parts |]; [| discriminate].
  rewrite scan_parts_find.
  destruct (find AiAdapter.has_image parts) as [p |].
  - destruct (part_inlineData p) as [b |].
    + intros H. injection H as <-. reflexivity.
    + destruct (AiAdapter.first_text parts) as [text |]; [| discriminate].
      destruct (_ || _); discriminate.
  - destruct (AiAdapter.first_text parts) as [text |]; [| discriminate].
    destruct (_ || _); discriminate.
Qed.

(** X7. In either revision, what [generateImage] returns is never empty and
    never a bare text: every value it resolves to is a [data:] reference. *)
Theorem generateImage_returns_data_reference :
  forall (env : Env) (adapter : GeminiAdapter) (prompt modelName url : string),
    AiAdapter.generateImage env adapter prompt modelName = Ok url
    \/ AiAdapterRev.generateImage env adapter prompt modelName = Ok url ->
    Js.startsWith url "data:" = true.
Proof.
  intros env adapter prompt modelName url [H | H].
  - unfold AiAdapter.generateImage in H.
    destruct (Js.includes modelName "imagen").
    + destruct (env_generateImages env adapter modelName prompt)
        as [b64 | e]; [| discriminate].
      destruct (Js.truthy_opt b64).
      * injection H as <-. reflexivity.
      * eapply general_path_not_empty. exact H.
    + eapply general_path_not_empty. exact H.
  - unfold AiAdapterRev.generateImage in H.
    destruct (Js.includes (Js.toLowerCase modelName) "imagen").
    + destruct (env_generateImages env adapter modelName prompt)
        as [b64 | e]; [| discriminate].
      destruct (Js.truthy_opt b64); [| discriminate].
      injection H as <-. reflexivity.
    + eapply rev_general_path_not_empty. exact H.
Qed.

(** The theorem above for the image endpoint and some bytes. *)
Lemma generateImage_returns_data_reference_witness :
  AiAdapter.generateImage
    (Scenario.env_of Scenario.greeting (Ok (Some "/9j/4AAQ"))
       Scenario.no_candidates Uploaded)
    Scenario.an_adapter "a red kite" "imagen-3.0-generate-002"
  = Ok "data:image/jpeg;base64,/9j/4AAQ"
  /\ Js.startsWith "data:image/jpeg;base64,/9j/4AAQ" "data:" = true.
Proof.
  split; [reflexivity |].
  apply (@generateImage_returns_data_reference
           (Scenario.env_of Scenario.greeting (Ok (Some "/9j/4AAQ"))
              Scenario.no_candidates Uploaded)
           Scenario.an_adapter "a red kite" "imagen-3.0-generate-002").
  left. reflexivity.
Defined.

Lemma scan_parts_none (parts : list ResponsePart) :
  forallb (fun p => negb (AiAdapter.has_image p)) parts = true ->
  AiAdapter.scan_parts parts = None.
Proof.
  intros H. rewrite scan_parts_find.
  destruct (find AiAdapter.has_image parts) as [p |] eqn:E; [| reflexivity].
  apply find_some in E. destruct E as [Hin Hp].
  rewrite forallb_forall in H. specialize (H p Hin).
  rewrite Hp in H. discriminate.
Qed.

(** X8. Without image data in the response, only the first part is read for
    a text: when the first part has none, the call fails with "No image data
    found in model response." whatever the later parts say, a refusal
    included. *)
Theorem generateImage_reads_first_text_only :
  forall (env : Env) (adapter : GeminiAdapter) (prompt modelName : string)
         (others : list Candidate) (p : ResponsePart)
         (rest : list ResponsePart),
    Js.includes modelName "imagen" = false ->
    env_generateContent env adapter modelName prompt
      = Ok {| resp_candidates :=
                Some ({| cand_content :=
                           Some {| content_parts := Some (p :: rest) |} |}
                      :: others) |} ->
    forallb (fun q => negb (AiAdapter.has_image q)) (p :: rest) = true ->
    Js.truthy_opt (part_text p) = false ->
    AiAdapter.generateImage env adapter prompt modelName
    = Throw (Error "No image data found in model response.").
Proof.
  intros env adapter prompt modelName others p rest
         Hgeneral Hresp Hnone Htext.
  unfold AiAdapter.generateImage, AiAdapter.general_path.
  rewrite Hgeneral, Hresp. cbn [resp_candidates cand_content content_parts].
  rewrite (scan_parts_none _ Hnone).
  unfold AiAdapter.first_text.
  destruct (part_text p) as [t |]; [| reflexivity].
  simpl in Htext. rewrite Htext. reflexivity.
Qed.

(** The theorem above for a response whose refusal stands second. *)
Lemma generateImage_reads_first_text_only_witness :
  AiAdapter.generateImage
    (Scenario.env_of Scenario.greeting (Ok None)
       (Ok (Scenario.response_of
              [Scenario.text_part "";
               Scenario.text_part "I cannot generate images"]))
       Uploaded)
    Scenario.an_adapter "a red kite" "gemini-2.5-flash"
  = Throw (Error "No image data found in model response.").
Proof.
  apply (@generateImage_reads_first_text_only
           (Scenario.env_of Scenario.greeting (Ok None)
              (Ok (Scenario.response_of
                     [Scenario.text_part "";
                      Scenario.text_part "I cannot generate images"]))
              Uploaded)
           Scenario.an_adapter "a red kite" "gemini-2.5-flash" []
           (Scenario.text_part "")
           [Scenario.text_part "I cannot generate images"]
           eq_refl eq_refl eq_refl eq_refl).
Defined.






Lemma includes_lower_false (s : string) :
  Js.includes (Js.toLowerCase s) "imagen" = false ->
  Js.includes s "imagen" = false.
Proof.
  intros H. destruct (Js.includes s "imagen") eqn:E; [| reflexivity].
  pose proof (includes_lower s "imagen" E) as Hl.
  change (Js.toLowerCase "imagen") with "imagen" in Hl.
  rewrite Hl in H. discriminate.
Qed.

(** X10. Off the marker the two revisions of [generateImage] resolve alike:
    for a model identifier that holds 'imagen' in no spelling, one returns
    a reference exactly when the other does, and the same one. *)
Theorem generateImage_revisions_agree :
  forall (env : Env) (adapter : GeminiAdapter) (prompt modelName url : string),
    Js.includes (Js.toLowerCase modelName) "imagen" = false ->
    AiAdapter.generateImage env adapter prompt modelName = Ok url
    <-> AiAdapterRev.generateImage env adapter prompt modelName = Ok url.
Proof.
  intros env adapter prompt modelName url Hmarker.
  unfold AiAdapter.generateImage, AiAdapterRev.generateImage.
  rewrite Hmarker, (includes_lower_false _ Hmarker).
  unfold AiAdapter.general_path, AiAdapterRev.general_path.
  destruct (env_generateContent env adapter modelName prompt) as [resp | e];
    [| split; discriminate].
  destruct (resp_candidates resp) as [[| c cs] |]; try (split; discriminate).
  destruct (cand_content c) as [content |]; [| split; discriminate].
  destruct (content_parts content) as [parts |]; [| split; discriminate].
  destruct (AiAdapter.scan_parts parts) as [u |]; [reflexivity |].
  destruct (AiAdapter.first_text parts) as [text |]; [| split; discriminate].
  destruct (Js.includes (Js.toLowerCase text) "cannot generate images");
    destruct (Js.includes (Js.toLowerCase text) "unable to generate");
    split; discriminate.
Qed.

(** The theorem above for a picture returned for "gemini-2.5-flash-image". *)
Lemma generateImage_revisions_agree_witness :
  AiAdapterRev.generateImage Scenario.image_env Scenario.an_adapter
    "a red kite" "gemini-2.5-flash-image"
  = Ok "data:image/png;base64,iVBORw0KGgo=".
Proof.
  apply (proj1 (@generateImage_revisions_agree Scenario.image_env
                  Scenario.an_adapter "a red kite" "gemini-2.5-flash-image"
                  "data:image/png;base64,iVBORw0KGgo=" eq_refl)).
  reflexivity.
Defined.

(** ** The repository: [services/chatService.ts] *)

(** X11. [addMessage] inserts before it touches the conversation: when the
    insert is refused the error is thrown, no row is added and the update of
    the conversation is not even asked; when the insert is done and the
    update is refused, the message is returned all the same and the
    conversation keeps its old update time. *)
Theorem addMessage_insert_then_touch :
  forall (env : Env) (msg : NewMessage) (rows : list Message)
         (convs : list Conversation) (n : nat) (e : exn)
         (rest : list (option exn)),
    ChatService.addMessage env msg
      (Store.mkDb rows convs n (Some e :: rest))
    = (Throw e, Store.mkDb rows convs n rest)
    /\ exists row,
         ChatService.addMessage env msg
           (Store.mkDb rows convs n (None :: Some e :: rest))
         = (Ok row, Store.mkDb (rows ++ [row]) convs (S n) rest)
         /\ msg_conversation_id row = new_conversation_id msg
         /\ msg_role row = new_role msg
         /\ msg_content row = new_content msg
         /\ msg_image_url row = new_image_url msg
         /\ msg_attachments row = new_attachments msg.
Proof.
  intros env msg rows convs n e rest. split; [reflexivity |].
  eexists. split; [reflexivity |]. repeat split.
Qed.

Lemma filter_other_conversation (id other : string) (rows : list Message)
    (row : Message) :
  String.eqb (msg_conversation_id row) other = false ->
  filter (fun m => String.eqb (msg_conversation_id m) other) (rows ++ [row])
  = filter (fun m => String.eqb (msg_conversation_id m) other) rows.
Proof.
  intros H. rewrite filter_app. simpl. rewrite H. apply app_nil_r.
Qed.

(** X12. What [addMessage] stores, [getMessages] returns: with a store that
    answers, the messages of the conversation are those it had, in their
    order, followed by the new one, and the messages of every other
    conversation are what they were. *)
Theorem addMessage_then_getMessages :
  forall (env : Env) (msg : NewMessage) (rows : list Message)
         (convs : list Conversation) (n : nat),
  exists row db1,
    ChatService.addMessage env msg (Store.mkDb rows convs n []) = (Ok row, db1)
    /\ msg_content row = new_content msg
    /\ ChatService.getMessages (new_conversation_id msg) db1
       = (Ok (filter (fun m => String.eqb (msg_conversation_id m)
                                 (new_conversation_id msg)) rows
              ++ [row]),
          db1)
    /\ forall other,
         String.eqb (new_conversation_id msg) other = false ->
         ChatService.getMessages other db1
         = (Ok (filter (fun m => String.eqb (msg_conversation_id m) other)
                  rows),
            db1).
Proof.
  intros env msg rows convs n. do 2 eexists.
  split; [reflexivity |]. split; [reflexivity |]. split.
  - unfold ChatService.getMessages, Store.select_messages. simpl.
    rewrite filter_app. simpl. rewrite String.eqb_refl. reflexivity.
  - intros other Hother.
    unfold ChatService.getMessages, Store.select_messages. simpl.
    rewrite filter_app. simpl. rewrite Hother, app_nil_r. reflexivity.
Qed.

(** X13. [deleteConversation] deletes the messages first. With a store that
    answers, no message of the conversation and no conversation of that
    identifier is left, and every other message stays; when the first request
    is refused nothing is deleted; when the second one is refused the
    conversation stays, without its messages. *)
Theorem deleteConversation_cascade :
  forall (id : string) (rows : list Message) (convs : list Conversation)
         (n : nat) (e : exn) (rest : list (option exn)),
    (let after := snd (Repository.deleteConversation id
                         (Store.mkDb rows convs n [])) in
     fst (Repository.deleteConversation id (Store.mkDb rows convs n []))
       = Ok tt
     /\ fst (ChatService.getMessages id after) = Ok []
     /\ (forall m, In m (Store.db_messages after) <->
                   In m rows /\ String.eqb (msg_conversation_id m) id = false)
     /\ (forall c, In c (Store.db_conversations after) <->
                   In c convs /\ String.eqb (conv_id c) id = false))
    /\ Repository.deleteConversation id
         (Store.mkDb rows convs n (Some e :: rest))
       = (Throw e, Store.mkDb rows convs n rest)
    /\ (let after := snd (Repository.deleteConversation id
                            (Store.mkDb rows convs n
                               (None :: Some e :: rest))) in
        fst (Repository.deleteConversation id
               (Store.mkDb rows convs n (None :: Some e :: rest)))
          = Throw e
        /\ Store.db_conversations after = convs
        /\ filter (fun m => String.eqb (msg_conversation_id m) id)
             (Store.db_messages after) = []).
Proof.
  intros id rows convs n e rest.
  assert (Hgone : forall l : list Message,
             filter (fun m => String.eqb (msg_conversation_id m) id)
               (filter (fun m => negb (String.eqb (msg_conversation_id m) id))
                  l) = []).
  { induction l as [| m l IH]; simpl; [reflexivity |].
    destruct (String.eqb (msg_conversation_id m) id) eqn:E; simpl;
      [exact IH | rewrite E; exact IH]. }
  split; [| split; [reflexivity |]].
  - simpl. split; [reflexivity |]. split; [rewrite Hgone; reflexivity |].
    split.
    + intros m. rewrite filter_In, negb_true_iff. reflexivity.
    + intros c. rewrite filter_In, negb_true_iff. reflexivity.
  - simpl. split; [reflexivity |]. split; [reflexivity |]. apply Hgone.
Qed.

(** ** Provider configurations *)

Lemma hex_run_length (n : nat) (s rest : string) :
  Providers.hex_run n s = Some rest ->
  String.length s = n + String.length rest.
Proof.
  revert s. induction n as [| n IH]; intros s H; simpl in H.
  - injection H as <-. reflexivity.
  - destruct s as [| c s]; [discriminate |].
    destruct (Providers.is_hex c); [| discriminate].
    simpl. rewrite (IH s H). reflexivity.
Qed.

Lemma dash_length (s rest : string) :
  Providers.dash s = Some rest -> String.length s = 1 + String.length rest.
Proof.
  destruct s as [| c s]; simpl; [discriminate |].
  destruct (Ascii.eqb c "-"); [| discriminate].
  intros H. injection H as <-. reflexivity.
Qed.

Lemma hex_groups_length (lens : list nat) (s : string) :
  Providers.hex_groups lens s = true ->
  String.length s = list_sum lens + (length lens - 1).
Proof.
  revert s. induction lens as [| n more IH]; intros s H; [discriminate |].
  destruct more as [| n1 more].
  - simpl in H. destruct (Providers.hex_run n s) as [rest |] eqn:E;
      [| discriminate].
    destruct rest; [| discriminate].
    rewrite (hex_run_length n s E). simpl. lia.
  - cbn [Providers.hex_groups] in H.
    destruct (Providers.hex_run n s) as [rest |] eqn:E; [| discriminate].
    destruct (Providers.dash rest) as [rest1 |] eqn:D; [| discriminate].
    rewrite (hex_run_length n s E), (dash_length rest D), (IH rest1 H).
    simpl. lia.
Qed.

Lemma isValidUUID_head (s : string) :
  Providers.isValidUUID s = true ->
  exists c rest, s = String c rest /\ Providers.is_hex c = true.
Proof.
  unfold Providers.isValidUUID. cbn [Providers.hex_groups Providers.hex_run].
  destruct s as [| c rest]; [discriminate |].
  destruct (Providers.is_hex c) eqn:E; [| discriminate].
  intros _. exists c, rest. split; [reflexivity | exact E].
Qed.

Lemma isValidUUID_not_temporary (s : string) :
  Providers.isValidUUID s = true -> Js.startsWith s "temp-" = false.
Proof.
  intros H. destruct (isValidUUID_head s H) as (c & rest & -> & Hc).
  cbn [Js.startsWith].
  destruct (Ascii.eqb "t" c) eqn:E; [| reflexivity].
  apply Ascii.eqb_eq in E. subst c. vm_compute in Hc. discriminate.
Qed.

(** X14. The test [saveProvider] makes before an update is the UUID test
    alone: an identifier the pattern accepts has 36 characters, is not empty
    and never starts with 'temp-', so the two other conditions of the guard
    change nothing. *)
Theorem saveProvider_guard_is_uuid_test :
  forall (id : string),
    Js.truthy_opt (Some id)
      && negb (Js.startsWith (Js.show (Some id)) "temp-")
      && Providers.isValidUUID (Js.show (Some id))
    = Providers.isValidUUID id
    /\ (Providers.isValidUUID id = true ->
        String.length id = 36 /\ Js.startsWith id "temp-" = false).
Proof.
  intros id. cbn [Js.show Js.truthy_opt]. split.
  - destruct (Providers.isValidUUID id) eqn:E.
    + rewrite (isValidUUID_not_temporary id E).
      destruct (isValidUUID_head id E) as (c & rest & -> & _). reflexivity.
    + apply andb_false_r.
  - intros H. split; [| exact (isValidUUID_not_temporary id H)].
    exact (hex_groups_length [8; 4; 4; 4; 12] id H).
Qed.

(** The theorem above at an identifier in capital letters. *)
Lemma saveProvider_guard_is_uuid_test_witness :
  Providers.isValidUUID "123E4567-E89B-12D3-A456-426614174000" = true
  /\ String.length "123E4567-E89B-12D3-A456-426614174000" = 36.
Proof.
  split; [reflexivity |].
  apply (proj2 (saveProvider_guard_is_uuid_test
                  "123E4567-E89B-12D3-A456-426614174000") eq_refl).
Defined.

Lemma map_unchanged (A : Type) (f : A -> A) (l : list A) :
  (forall a, In a l -> f a = a) -> map f l = l.
Proof.
  intros H. induction l as [| a l IH]; simpl; [reflexivity |].
  rewrite (H a (or_introl eq_refl)), IH; [reflexivity |].
  intros b Hb. apply H. right. exact Hb.
Qed.

(** X15. [saveProvider] with a well-formed identifier that no row has
    stores nothing and reports no error: the update matches no row, and no
    row is inserted in its place. *)
Theorem saveProvider_unknown_id_stores_nothing :
  forall (env : Env) (provider : AIProvider) (userId id : string)
         (rows : list (string * AIProvider)) (n : nat),
    Providers.isValidUUID id = true ->
    (forall row, In row rows -> String.eqb (prov_id (snd row)) id = false) ->
    Providers.saveProvider env provider userId (Some id)
      (Providers.mkProviderDb rows n [])
    = (Ok tt, Providers.mkProviderDb rows n []).
Proof.
  intros env provider userId id rows n Hvalid Hunknown.
  unfold Providers.saveProvider. cbn [Providers.take_fault Providers.pdb_faults].
  cbn [Js.show Js.truthy_opt].
  rewrite (isValidUUID_not_temporary id Hvalid), Hvalid.
  destruct (isValidUUID_head id Hvalid) as (c & rest & Hid & _).
  rewrite Hid at 1. cbn [Js.truthy negb andb].
  cbn [Providers.pdb_rows Providers.pdb_count Providers.pdb_faults].
  rewrite map_unchanged; [reflexivity |].
  intros row Hrow. rewrite (Hunknown row Hrow). reflexivity.
Qed.

(** The theorem above for a well-formed identifier the table does not
    hold. *)
Lemma saveProvider_unknown_id_stores_nothing_witness :
  Providers.saveProvider Scenario.chat_env Scenario.image_provider "u-1"
    (Some "123e4567-e89b-12d3-a456-426614174000")
    (Providers.mkProviderDb [("u-1", Scenario.chat_provider)] 1 [])
  = (Ok tt, Providers.mkProviderDb [("u-1", Scenario.chat_provider)] 1 []).
Proof.
  apply (@saveProvider_unknown_id_stores_nothing Scenario.chat_env
           Scenario.image_provider "u-1"
           "123e4567-e89b-12d3-a456-426614174000"
           [("u-1", Scenario.chat_provider)] 1 eq_refl).
  intros row [<- | []]. reflexivity.
Defined.

(** X16. A provider saved without an identifier, or with one that is no
    UUID (a temporary one, say), is inserted and comes back from
    [getProviders] for its owner, last, under the identifier of the store,
    with its name, model, category and activity, an empty key or endpoint
    being stored as none; other users do not get it. *)
Theorem saveProvider_then_getProviders :
  forall (env : Env) (provider : AIProvider) (userId : string)
         (id : option string) (rows : list (string * AIProvider)) (n : nat),
    match id with
    | Some i => Providers.isValidUUID i = false
    | None => True
    end ->
    exists db1 stored,
      Providers.saveProvider env provider userId id
        (Providers.mkProviderDb rows n [])
      = (Ok tt, db1)
      /\ fst (Providers.getProviders userId db1)
         = fst (Providers.getProviders userId
                  (Providers.mkProviderDb rows n []))
           ++ [stored]
      /\ prov_id stored = env_row_id env n
      /\ prov_name stored = prov_name provider
      /\ prov_model_name stored = prov_model_name provider
      /\ prov_category stored = prov_category provider
      /\ prov_is_active stored = prov_is_active provider
      /\ prov_api_key stored = Providers.or_null (prov_api_key provider)
      /\ prov_endpoint stored = Providers.or_null (prov_endpoint provider)
      /\ forall other,
           String.eqb userId other = false ->
           fst (Providers.getProviders other db1)
           = fst (Providers.getProviders other
                    (Providers.mkProviderDb rows n [])).
Proof.
  intros env provider userId id rows n Hid.
  assert (Hguard :
            Js.truthy_opt id
              && negb (Js.startsWith (Js.show id) "temp-")
              && Providers.isValidUUID (Js.show id) = false).
  { destruct id as [i |]; [| reflexivity].
    cbn [Js.show]. rewrite Hid. apply andb_false_r. }
  unfold Providers.saveProvider.
  cbn [Providers.take_fault Providers.pdb_faults]. rewrite Hguard.
  do 2 eexists. split; [reflexivity |].
  unfold Providers.getProviders.
  cbn [Providers.take_fault Providers.pdb_faults Providers.pdb_rows
       Providers.pdb_count fst snd].
  split.
  - rewrite filter_app, map_app. cbn [filter fst snd map].
    rewrite String.eqb_refl. reflexivity.
  - repeat split.
    intros other Hother. rewrite filter_app, map_app. cbn [filter fst snd].
    rewrite Hother. cbn [map]. apply app_nil_r.
Qed.

(** The theorem above for a provider added in the panel. *)
Lemma saveProvider_then_getProviders_witness :
  fst (Providers.getProviders "u-1"
         (snd (Providers.saveProvider Scenario.chat_env
                 (mkAIProvider "temp-1700000000000" "New Custom Model"
                    (Some "") (Some "") (Some CHAT) "gemini-2.5-flash" false)
                 "u-1" (Some "temp-1700000000000")
                 (Providers.mkProviderDb [("u-1", Scenario.chat_provider)]
                    1 []))))
  = [Scenario.chat_provider;
     mkAIProvider "row-1" "New Custom Model" None None (Some CHAT)
       "gemini-2.5-flash" false].
Proof.
  destruct (@saveProvider_then_getProviders Scenario.chat_env
              (mkAIProvider "temp-1700000000000" "New Custom Model"
                 (Some "") (Some "") (Some CHAT) "gemini-2.5-flash" false)
              "u-1" (Some "temp-1700000000000")
              [("u-1", Scenario.chat_provider)] 1 eq_refl)
    as (db1 & stored & Hsave & Hget & Hid & Hname & Hmodel & Hcat & Hact
        & Hkey & Hend & _).
  rewrite Hsave. cbn [snd]. rewrite Hget.
  destruct stored as [i nm key ep cat model act].
  cbn [prov_id prov_name prov_api_key prov_endpoint prov_category
       prov_model_name prov_is_active] in *.
  subst. reflexivity.
Defined.



(** ** The handlers that delete *)

Section Deleting.

Import Store App Handlers.

Lemma filter_commute (A : Type) (f g : A -> bool) (l : list A) :
  filter f (filter g l) = filter g (filter f l).
Proof.
  induction l as [| a l IH]; simpl; [reflexivity |].
  destruct (f a) eqn:Ef, (g a) eqn:Eg; simpl;
    rewrite ?Ef, ?Eg, IH; reflexivity.
Qed.

Lemma filter_keeps_other_conversations (current id : string)
    (rows : list Message) :
  String.eqb current id = false ->
  filter (fun m => String.eqb (msg_conversation_id m) current)
    (filter (fun m => negb (String.eqb (msg_conversation_id m) id)) rows)
  = filter (fun m => String.eqb (msg_conversation_id m) current) rows.
Proof.
  intros Hne. induction rows as [| m rows IH]; simpl; [reflexivity |].
  destruct (String.eqb (msg_conversation_id m) id) eqn:Eid; simpl.
  - apply String.eqb_eq in Eid. rewrite Eid, String.eqb_sym, Hne. exact IH.
  - rewrite IH. reflexivity.
Qed.

End Deleting.

(** X18. [handleDeleteMessage] keeps the transcript in step with the store:
    if the transcript shows the stored messages of the open conversation
    before, it does so after, whether the user declines, the store refuses or
    the message is deleted; and once deleted, the message is in neither. *)
Theorem handleDeleteMessage_keeps_in_sync :
  forall (confirmed : bool) (messageId : string) (st : App.AppState),
    Handlers.in_sync st ->
    Handlers.in_sync (snd (Handlers.handleDeleteMessage confirmed messageId st))
    /\ (confirmed = true ->
        Store.db_faults (App.db st) = [] ->
        let st' := snd (Handlers.handleDeleteMessage confirmed messageId st) in
        (forall m, In m (App.messages st') ->
                   String.eqb (msg_id m) messageId = false)
        /\ (forall m, In m (Store.db_messages (App.db st')) ->
                      String.eqb (msg_id m) messageId = false)).
Proof.
  intros confirmed messageId st Hsync.
  destruct st as [ses convs cur msgs load provs [dm dc dr df] trs tr].
  unfold Handlers.in_sync in *. cbn [App.currentConversationId App.messages
    App.db Store.db_messages] in Hsync.
  destruct confirmed; [| split; [exact Hsync | discriminate]].
  destruct df as [| [e |] rest]; simpl.
  - split.
    + destruct cur as [current |]; subst msgs;
        [apply filter_commute | reflexivity].
    + intros _ _. split; intros m Hm; apply filter_In in Hm;
        apply negb_true_iff; exact (proj2 Hm).
  - split; [exact Hsync | intros _ Hfaults; discriminate].
  - split.
    + destruct cur as [current |]; subst msgs;
        [apply filter_commute | reflexivity].
    + intros _ Hfaults. discriminate.
Qed.

(** The theorem above at the sample state. *)
Lemma handleDeleteMessage_keeps_in_sync_witness :
  Handlers.in_sync Scenario.start
  /\ Handlers.in_sync
       (snd (Handlers.handleDeleteMessage true "m-1" Scenario.start))
  /\ App.messages (snd (Handlers.handleDeleteMessage true "m-1" Scenario.start))
     = [Scenario.answer].
Proof.
  split; [reflexivity |].
  split; [| reflexivity].
  apply (proj1 (@handleDeleteMessage_keeps_in_sync true "m-1" Scenario.start
                  eq_refl)).
Defined.

(** X19. [handleDeleteConversation], with a store that answers, removes the
    conversation from the list; when it was the open one, nothing is open
    any more and the transcript is empty, otherwise the open conversation
    and its transcript stay; either way the transcript still shows what the
    store holds. When the store refuses the first request, the list, the
    open conversation and the transcript stay as they were. *)
Theorem handleDeleteConversation_clears_open :
  forall (id : string) (st : App.AppState),
    Handlers.in_sync st ->
    (Store.db_faults (App.db st) = [] ->
     let st' := snd (Handlers.handleDeleteConversation id st) in
     Handlers.in_sync st'
     /\ App.conversations st'
        = filter (fun c => negb (String.eqb (conv_id c) id))
            (App.conversations st)
     /\ (App.currentConversationId st = Some id ->
         App.currentConversationId st' = None /\ App.messages st' = [])
     /\ (App.currentConversationId st <> Some id ->
         App.currentConversationId st' = App.currentConversationId st
         /\ App.messages st' = App.messages st))
    /\ (forall e rest,
           Store.db_faults (App.db st) = Some e :: rest ->
           let st' := snd (Handlers.handleDeleteConversation id st) in
           App.conversations st' = App.conversations st
           /\ App.currentConversationId st' = App.currentConversationId st
           /\ App.messages st' = App.messages st
           /\ Store.db_messages (App.db st') = Store.db_messages (App.db st)).
Proof.
  intros id st Hsync.
  destruct st as [ses convs cur msgs load provs [dm dc dr df] trs tr].
  unfold Handlers.in_sync in *. cbn [App.currentConversationId App.messages
    App.db Store.db_messages Store.db_faults App.conversations] in *.
  split.
  - intros ->. destruct cur as [current |].
    + destruct (String.eqb current id) eqn:E.
      * unfold Handlers.handleDeleteConversation.
        cbn [App.currentConversationId]. rewrite E. simpl.
        split; [reflexivity |]. split; [reflexivity |].
        split; [intros _; split; reflexivity |].
        intros Hne. apply String.eqb_eq in E. subst id. contradiction.
      * unfold Handlers.handleDeleteConversation.
        cbn [App.currentConversationId]. rewrite E.
        unfold App.bind, App.try_catch, App.effect_on_change. simpl.
        rewrite !String.eqb_refl. simpl.
        split; [| split; [reflexivity |]].
        -- subst msgs. symmetry.
           apply filter_keeps_other_conversations. exact E.
        -- split; [| intros _; split; reflexivity].
           intros H. injection H as ->. rewrite String.eqb_refl in E.
           discriminate.
    + subst msgs. simpl. split; [reflexivity |]. split; [reflexivity |].
      split; [discriminate | intros _; split; reflexivity].
  - intros e rest ->. unfold Handlers.handleDeleteConversation.
    unfold App.bind, App.try_catch, App.effect_on_change.
    destruct cur as [current |]; simpl; rewrite ?String.eqb_refl; simpl;
      repeat split.
Qed.

(** The theorem above for the open conversation of the sample state. *)
Lemma handleDeleteConversation_clears_open_witness :
  Handlers.in_sync Scenario.start
  /\ App.currentConversationId
       (snd (Handlers.handleDeleteConversation "conv-1" Scenario.start))
     = None
  /\ App.messages
       (snd (Handlers.handleDeleteConversation "conv-1" Scenario.start))
     = [].
Proof.
  split; [reflexivity |].
  apply (proj1 (proj2 (proj2
           (proj1 (@handleDeleteConversation_clears_open "conv-1"
                     Scenario.start eq_refl) eq_refl)))).
  reflexivity.
Defined.

(** ** The outcomes of a send *)

Section SendOutcomes.

Import Store App.

(** Over any fragments the callbacks of a chat send change the transcript
    and [streamContent] only. *)
Lemma for_await_chat_state (env : Env) (convId id : string)
    (fragments : list (option string)) (st : AppState) (buffer : string) :
  exists trs,
    AiAdapter.for_await (chat_callbacks env convId id) fragments (st, buffer)
    = (map AiAdapter.CallChunk (AiAdapter.fragment_texts fragments),
       AiAdapter.Returns
         (mkAppState (session st) (conversations st)
            (currentConversationId st)
            match AiAdapter.fragment_texts fragments with
            | [] => messages st
            | _ :: _ =>
                replace_content id
                  (fold_left String.append
                     (AiAdapter.fragment_texts fragments) buffer)
                  (messages st)
            end
            (isLoading st) (providers st) (db st) (transcripts st ++ trs)
            (trace st),
          fold_left String.append (AiAdapter.fragment_texts fragments)
            buffer)).
Proof.
  revert st buffer. induction fragments as [| f rest IH]; intros st buffer.
  - exists []. destruct st. simpl. rewrite app_nil_r. reflexivity.
  - destruct f as [text |]; [| apply IH].
    cbn [AiAdapter.for_await AiAdapter.fragment_texts flat_map].
    destruct (Js.truthy text); [| apply IH].
    cbn [AiAdapter.onChunk chat_callbacks snd fst].
    destruct (IH (setMessages
                    (replace_content id (buffer ++ text)%string) st)
                 (buffer ++ text)%string)
      as [trs E].
    rewrite E. fold (AiAdapter.fragment_texts rest).
    exists (replace_content id (buffer ++ text)%string (messages st) :: trs).
    cbn [app fold_left setMessages session conversations
         currentConversationId messages isLoading providers db transcripts
         trace].
    rewrite <- app_assoc. cbn [app].
    destruct (AiAdapter.fragment_texts rest) as [| t texts].
    + reflexivity.
    + rewrite replace_content_twice. reflexivity.
Qed.

End SendOutcomes.



(** X21. A chat send whose stream ends without error, over a store that
    answers, stores one assistant message whose content is the non-empty
    texts of the stream joined in their order; then the transcript is what
    the store holds for the conversation (the placeholder and its local
    identifier are gone), and the loading flag is off. *)
Theorem chat_send_stores_joined_texts :
  forall (env : Env) (text providerId : string) (file : option File)
         (preview : option string) (st : App.AppState) (sess : App.Session)
         (p : AIProvider) (fragments : list (option string)),
    App.session st = Some sess ->
    find (fun q => String.eqb (prov_id q) providerId) (App.providers st)
      = Some p ->
    prov_category p <> Some IMAGE ->
    Store.db_faults (App.db st) = [] ->
    (forall adapter request,
        env_chat env adapter request = Streaming fragments Exhausted) ->
    exists convId userMsg persisted final,
      App.handleSendMessage env text providerId file preview st
      = (Ok tt, final)
      /\ Store.db_messages (App.db final)
         = Store.db_messages (App.db st) ++ [userMsg; persisted]
      /\ msg_role persisted = assistant
      /\ msg_conversation_id persisted = convId
      /\ msg_content persisted
         = fold_left String.append (AiAdapter.fragment_texts fragments)
             EmptyString
      /\ App.messages final
         = filter (fun m => String.eqb (msg_conversation_id m) convId)
             (Store.db_messages (App.db final))
      /\ App.isLoading final = false.
Proof.
  intros env text providerId file preview st sess p fragments
         Hs Hf Hcat Hfaults Hchat.
  destruct (send_reaches_response env text providerId file preview st
              Hs Hf Hfaults)
    as (convId & uploaded & userMsg & st1 & shown
        & Hrun & _ & _ & Hshown & Hrows & Hfaults1).
  exists convId, userMsg. rewrite Hrun.
  assert (Hmode :
            App.process_response env p convId text
              (App.messages st ++ [userMsg]) preview
            = App.chat_mode env (App.adapter_for env p) convId
                (Js.or_else (Some (prov_model_name p)) "gemini-2.5-flash")
                (App.messages st ++ [userMsg]) preview).
  { unfold App.process_response.
    destruct (prov_category p) as [[|] |]; congruence. }
  rewrite Hmode. clear Hmode.
  unfold App.chat_mode, AiAdapter.chatStream, AiAdapter.try_block.
  rewrite compose_snoc, Hchat.
  match goal with
  | |- context [AiAdapter.for_await ?cb fragments ?s] =>
      destruct (for_await_chat_state env convId (env_randomUUID env)
                  fragments (fst s) EmptyString) as [trs E];
      cbn [fst] in E; rewrite E
  end.
  destruct st1 as [ses convs cur msgs load provs [dm dc dr df] trs1 tr].
  cbn [App.messages App.db Store.db_messages Store.db_faults]
    in Hshown, Hrows, Hfaults1.
  subst msgs dm df.
  cbn -[App.replace_content AiAdapter.fragment_texts fold_left].
  do 2 eexists. split; [reflexivity |].
  cbn -[App.replace_content AiAdapter.fragment_texts fold_left].
  split; [rewrite <- app_assoc; reflexivity |].
  repeat split.
Qed.

(** The theorem above for a stream with gaps. *)
Lemma chat_send_stores_joined_texts_witness :
  exists persisted final,
    App.handleSendMessage
      (Scenario.env_of
         (Streaming [Some "Hi"; None; Some ""; Some " there"; Some "!"]
            Exhausted)
         (Ok None) Scenario.no_candidates Uploaded)
      "Hello again" "p-chat" None None Scenario.start
    = (Ok tt, final)
    /\ msg_content persisted = "Hi there!"
    /\ In persisted (App.messages final).
Proof.
  destruct (@chat_send_stores_joined_texts
              (Scenario.env_of
                 (Streaming [Some "Hi"; None; Some ""; Some " there"; Some "!"]
                    Exhausted)
                 (Ok None) Scenario.no_candidates Uploaded)
              "Hello again" "p-chat" None None Scenario.start
              Scenario.a_session Scenario.chat_provider
              [Some "Hi"; None; Some ""; Some " there"; Some "!"]
              eq_refl eq_refl ltac:(discriminate) eq_refl
              (fun _ _ => eq_refl))
    as (convId & userMsg & persisted & final
        & Hrun & Hrows & _ & Hconv & Hcontent & Hsync & _).
  exists persisted, final. split; [exact Hrun |].
  split; [exact Hcontent |].
  rewrite Hsync, Hrows. apply filter_In. split.
  - apply in_or_app. right. right. left. reflexivity.
  - rewrite Hconv. apply String.eqb_refl.
Defined.



Section FirstSend.

Import Store App.


End FirstSend.


(** On a first send without a file the reload of the effect is answered
    after the insertion of the user message: the message comes back from the
    store, the handler then appends it, and the transcript shows it twice
    (here with the placeholder of a refused stream) until the next load.
    With a file the reload is answered during the upload, before the
    insertion, and the message is shown once. *)
Lemma first_send_reloads_transcript :
  let refused :=
    Scenario.env_of (Refused (Foreign "bad key")) (Ok None)
      Scenario.no_candidates Uploaded in
  let fresh :=
    App.mkAppState (Some Scenario.a_session) [] None [] false
      [Scenario.chat_provider] (Store.mkDb [] [] 0 []) [] [] in
  let shape (m : Message) := (msg_id m, msg_role m, msg_content m) in
  let annotation :=
    (App.newline ++ App.newline ++ "[Error: bad key]")%string in
  map shape
    (App.messages
       (snd (App.handleSendMessage refused "Hi" "p-chat" None None fresh)))
  = [("row-1", user, "Hi"); ("row-1", user, "Hi");
     ("local-1", assistant, annotation)]
  /\ map shape
       (App.messages
          (snd (App.handleSendMessage refused "Hi" "p-chat"
                  (Some Scenario.a_file) (Some Scenario.a_preview) fresh)))
     = [("row-1", user, "Hi"); ("local-1", assistant, annotation)].
Proof. split; reflexivity. Qed.

(** ** How the message view labels attachments ([MessageItem.tsx]) *)

Lemma last_field_without (sep : ascii) (s : string) :
  Js.after sep s = None -> Js.last_field sep s = s.
Proof.
  destruct s as [| c s]; [reflexivity |].
  intros H. cbn [Js.last_field]. rewrite H. reflexivity.
Qed.

Lemma last_field_clean (sep : ascii) (s : string) :
  Js.after sep (Js.last_field sep s) = None.
Proof.
  induction s as [| c s IH]; [reflexivity |].
  cbn [Js.last_field].
  destruct (Js.after sep (String c s)) eqn:E; [exact IH | exact E].
Qed.

Lemma last_field_append (sep : ascii) (a f : string) :
  Js.after sep f = None ->
  Js.last_field sep (a ++ String sep f)%string = f.
Proof.
  intros Hf. induction a as [| c a IH].
  - cbn [append Js.last_field Js.after]. rewrite Ascii.eqb_refl.
    apply last_field_without. exact Hf.
  - change (String c a ++ String sep f)%string
      with (String c (a ++ String sep f)%string).
    cbn [Js.last_field].
    destruct (Js.after sep (String c (a ++ String sep f)%string)) eqn:E;
      [exact IH |].
    cbn [Js.after] in E. destruct (Ascii.eqb c sep); [discriminate |].
    clear IH. exfalso. induction a as [| d a IHa].
    + cbn [append Js.after] in E. rewrite Ascii.eqb_refl in E. discriminate.
    + change (String d a ++ String sep f)%string
        with (String d (a ++ String sep f)%string) in E.
      cbn [Js.after] in E. destruct (Ascii.eqb d sep); [discriminate |].
      exact (IHa E).
Qed.

Lemma http_is_no_data_url (url : string) :
  Js.startsWith url "http" = true ->
  Js.startsWith url "data:image" = false /\ Js.startsWith url "data:" = false.
Proof.
  destruct url as [| c url]; [discriminate |].
  cbn [Js.startsWith]. intros H. apply andb_true_iff in H.
  destruct H as [Hc _]. apply Ascii.eqb_eq in Hc. subst c.
  split; reflexivity.
Qed.

(** X24. A file the blob store takes is referenced by the public URL of the
    path [<user>/<random>.<extension>]; for a store whose public URLs are an
    http address followed by the path, the message view shows that
    attachment as a picture exactly when the extension of the file name,
    read without regard to case, is one of the nine it knows. *)
Theorem uploaded_file_shown_by_extension :
  forall (env : Env) (sess : App.Session) (file : File)
         (preview : option string) (st : App.AppState) (base : string),
    (forall path, env_upload env path file = Uploaded) ->
    (forall path, env_publicUrl env path = (base ++ path)%string) ->
    Js.startsWith base "http" = true ->
    exists url,
      fst (App.upload_attachment env sess (Some file) preview st)
      = Ok (Some url)
      /\ url = (base ++ App.session_user_id sess ++ "/" ++ env_random env
                ++ "." ++ Js.last_field "." (file_name file))%string
      /\ MessageView.isImage url
         = existsb
             (String.eqb (Js.toLowerCase (Js.last_field "." (file_name file))))
             MessageView.image_extensions.
Proof.
  intros env sess file preview st base Hupload Hpublic Hbase.
  eexists. split; [| split; [reflexivity |]].
  - unfold App.upload_attachment. rewrite Hupload, Hpublic. reflexivity.
  - unfold MessageView.isImage.
    destruct (http_is_no_data_url _
                (startsWith_append_left base
                   (App.session_user_id sess ++ "/" ++ env_random env ++ "."
                    ++ Js.last_field "." (file_name file))%string "http" Hbase))
      as [Himage Hdata].
    rewrite Himage, Hdata.
    assert (Hshape :
              (base ++ App.session_user_id sess ++ "/" ++ env_random env
               ++ "." ++ Js.last_field "." (file_name file))%string
              = ((base ++ App.session_user_id sess ++ "/" ++ env_random env)
                 ++ String "." (Js.last_field "." (file_name file)))%string).
    { rewrite !string_append_assoc. reflexivity. }
    rewrite Hshape, last_field_append by apply last_field_clean.
    reflexivity.
Qed.

(** The theorem above for the picture "Kite.PNG". *)
Lemma uploaded_file_shown_by_extension_witness :
  exists url,
    fst (App.upload_attachment Scenario.chat_env Scenario.a_session
           (Some (mkFile "Kite.PNG" "PNG...")) None Scenario.start)
    = Ok (Some url)
    /\ MessageView.isImage url = true.
Proof.
  destruct (@uploaded_file_shown_by_extension Scenario.chat_env
              Scenario.a_session (mkFile "Kite.PNG" "PNG...") None
              Scenario.start "https://blobs.example/"
              (fun _ => eq_refl) (fun _ => eq_refl) eq_refl)
    as (url & Hup & _ & Himage).
  exists url. split; [exact Hup |]. rewrite Himage. reflexivity.
Defined.

Lemma indexOf_append (c : ascii) (a b : string) :
  Js.after c a = None ->
  JsMore.indexOf c (a ++ String c b)%string = Some (String.length a).
Proof.
  induction a as [| d a IH]; simpl.
  - rewrite Ascii.eqb_refl. reflexivity.
  - destruct (Ascii.eqb d c); [discriminate |].
    intros H. rewrite (IH H). reflexivity.
Qed.

Lemma indexOf_without (c : ascii) (s : string) :
  Js.after c s = None -> JsMore.indexOf c s = None.
Proof.
  induction s as [| d s IH]; simpl; [reflexivity |].
  destruct (Ascii.eqb d c); [discriminate |].
  intros H. rewrite (IH H). reflexivity.
Qed.

Lemma substring_head (a b : string) :
  String.substring 0 (String.length a) (a ++ b)%string = a.
Proof.
  induction a as [| c a IH]; simpl.
  - destruct b; reflexivity.
  - rewrite IH. reflexivity.
Qed.

(** X25. For a data URL the label of an attachment is "file." and the
    subtype of its media type: what stands between "data:" and the first
    semicolon is split at the slash, and 'file' replaces a missing or empty
    second field; a data URL without any semicolon is labelled
    "file.file". *)
Theorem getFileName_of_data_url :
  forall (decodeURIComponent : string -> string) (mime : string),
    Js.after ";" mime = None ->
    (forall rest,
        MessageView.getFileName decodeURIComponent
          ("data:" ++ mime ++ ";" ++ rest)%string
        = ("file." ++ Js.or_else (JsMore.second_field "/" mime) "file")%string)
    /\ MessageView.getFileName decodeURIComponent ("data:" ++ mime)%string
       = "file.file".
Proof.
  intros decode mime Hmime. split.
  - intros rest. unfold MessageView.getFileName.
    rewrite startsWith_append.
    assert (Hshape : ("data:" ++ mime ++ ";" ++ rest)%string
                     = (("data:" ++ mime) ++ String ";" rest)%string).
    { rewrite string_append_assoc. reflexivity. }
    assert (Hhead : Js.after ";" ("data:" ++ mime)%string = None)
      by (simpl; exact Hmime).
    rewrite Hshape at 1. rewrite (indexOf_append _ _ rest Hhead).
    unfold JsMore.substring.
    change (String.length ("data:" ++ mime)%string)
      with (5 + String.length mime).
    rewrite Nat.min_l, Nat.max_r by lia.
    replace (5 + String.length mime - 5) with (String.length mime) by lia.
    change (String.substring 5 (String.length mime)
              ("data:" ++ mime ++ ";" ++ rest)%string)
      with (String.substring 0 (String.length mime)
              (mime ++ ";" ++ rest)%string).
    rewrite substring_head. reflexivity.
  - unfold MessageView.getFileName. rewrite startsWith_append.
    rewrite indexOf_without by (simpl; exact Hmime).
    unfold JsMore.substring. simpl. destruct mime; reflexivity.
Qed.

(** The theorem above for the reference of a PNG picture. *)
Lemma getFileName_of_data_url_witness :
  MessageView.getFileName (fun s => s) "data:image/png;base64,iVBORw0KGgo="
  = "file.png".
Proof.
  apply (proj1 (@getFileName_of_data_url (fun s => s) "image/png" eq_refl)
           "base64,iVBORw0KGgo=").
Defined.

(** ** Renaming, new chats and provider loads *)

(** X26. [handleRenameConversation] changes the list only after the store:
    with a store that answers, every conversation of that identifier has the
    new title in the store and in the list, and the others keep theirs; when
    the store refuses, the list is not touched. *)
Theorem handleRenameConversation_store_first :
  forall (id newTitle : string) (st : App.AppState),
    (Store.db_faults (App.db st) = [] ->
     let st' := snd (Handlers.handleRenameConversation id newTitle st) in
     (forall c, In c (App.conversations st') ->
                conv_id c = id -> conv_title c = newTitle)
     /\ (forall c, In c (Store.db_conversations (App.db st')) ->
                   conv_id c = id -> conv_title c = newTitle)
     /\ map conv_id (App.conversations st')
        = map conv_id (App.conversations st)
     /\ (forall c, In c (App.conversations st) ->
                   String.eqb (conv_id c) id = false ->
                   In c (App.conversations st')))
    /\ (forall e rest,
           Store.db_faults (App.db st) = Some e :: rest ->
           let st' := snd (Handlers.handleRenameConversation id newTitle st) in
           App.conversations st' = App.conversations st
           /\ Store.db_conversations (App.db st')
              = Store.db_conversations (App.db st)).
Proof.
  intros id newTitle st.
  destruct st as [ses convs cur msgs load provs [dm dc dr df] trs tr].
  cbn [App.db Store.db_faults App.conversations Store.db_conversations].
  assert (Hrenamed : forall (l : list Conversation) c,
             In c (map (fun c0 =>
                          if String.eqb (conv_id c0) id
                          then mkConversation (conv_id c0) (conv_user_id c0)
                                 newTitle (conv_created_at c0)
                                 (conv_updated_at c0)
                          else c0) l) ->
             conv_id c = id -> conv_title c = newTitle).
  { intros l c Hin Hid. apply in_map_iff in Hin.
    destruct Hin as (c0 & Hc & _).
    destruct (String.eqb (conv_id c0) id) eqn:E.
    - subst c. reflexivity.
    - subst c. apply String.eqb_neq in E. contradiction. }
  split.
  - intros ->. simpl.
    split; [apply Hrenamed |]. split; [apply Hrenamed |]. split.
    + rewrite map_map. apply map_ext. intros c.
      destruct (String.eqb (conv_id c) id); reflexivity.
    + intros c Hin Hne. apply in_map_iff. exists c.
      rewrite Hne. split; [reflexivity | exact Hin].
  - intros e rest ->. simpl. split; reflexivity.
Qed.

(** The theorem above at the sample state. *)
Lemma handleRenameConversation_store_first_witness :
  Forall (fun c => conv_id c = "conv-1" -> conv_title c = "Kites")
    (App.conversations
       (snd (Handlers.handleRenameConversation "conv-1" "Kites"
               Scenario.start))).
Proof.
  apply Forall_forall.
  exact (proj1 (proj1 (@handleRenameConversation_store_first "conv-1" "Kites"
                         Scenario.start) eq_refl)).
Defined.

(** X27. [deleteProvider] with a UUID, over a store that answers, removes
    every row of that identifier and no other: no user gets the provider
    from [getProviders] any more, and all the other providers are returned as
    before, in their order. *)
Theorem deleteProvider_then_getProviders :
  forall (id userId : string) (rows : list (string * AIProvider)) (n : nat),
    Providers.isValidUUID id = true ->
    exists db1,
      Providers.deleteProvider id (Providers.mkProviderDb rows n [])
      = (Ok tt, db1)
      /\ fst (Providers.getProviders userId db1)
         = filter (fun p => negb (String.eqb (prov_id p) id))
             (fst (Providers.getProviders userId
                     (Providers.mkProviderDb rows n []))).
Proof.
  intros id userId rows n Hvalid.
  unfold Providers.deleteProvider. rewrite Hvalid. cbn [negb].
  cbn [Providers.take_fault Providers.pdb_faults].
  eexists. split; [reflexivity |].
  unfold Providers.getProviders.
  cbn [Providers.take_fault Providers.pdb_faults Providers.pdb_rows fst].
  induction rows as [| [owner p] rows IH]; [reflexivity |].
  cbn [filter fst snd].
  destruct (String.eqb (prov_id p) id) eqn:Eid;
    destruct (String.eqb owner userId) eqn:Eowner;
    cbn [negb filter map fst snd]; rewrite ?Eid, ?Eowner;
    cbn [negb filter map fst snd]; rewrite ?Eid; cbn [negb];
    rewrite IH; reflexivity.
Qed.

(** The theorem above for a table with two providers of one user. *)
Lemma deleteProvider_then_getProviders_witness :
  fst (Providers.getProviders "u-1"
         (snd (Providers.deleteProvider "123e4567-e89b-12d3-a456-426614174000"
                 (Providers.mkProviderDb
                    [("u-1", Scenario.chat_provider);
                     ("u-1",
                      mkAIProvider "123e4567-e89b-12d3-a456-426614174000"
                        "Pro" None None (Some CHAT) "gemini-2.5-pro" true)]
                    2 []))))
  = [Scenario.chat_provider].
Proof.
  destruct (@deleteProvider_then_getProviders
              "123e4567-e89b-12d3-a456-426614174000" "u-1"
              [("u-1", Scenario.chat_provider);
               ("u-1",
                mkAIProvider "123e4567-e89b-12d3-a456-426614174000"
                  "Pro" None None (Some CHAT) "gemini-2.5-pro" true)]
              2 eq_refl)
    as (db1 & Hdelete & Hget).
  rewrite Hdelete. cbn [snd]. rewrite Hget. reflexivity.
Defined.

(** X28. When the provider table cannot be read, [loadProviders] gets an
    empty list, without an error, and the selection stays as it was; with no
    provider loaded, a send asks nothing of the store or of the model: the
    store, the transcript and the loading flag stay as they were. *)
Theorem failed_provider_load_blocks_sends :
  forall (userId selected : string) (rows : list (string * AIProvider))
         (n : nat) (e : exn) (rest : list (option exn)),
    Providers.loadProviders userId selected
      (Providers.mkProviderDb rows n (Some e :: rest))
    = ([], selected, Providers.mkProviderDb rows n rest)
    /\ forall (env : Env) (text providerId : string) (file : option File)
              (preview : option string) (st : App.AppState),
         App.providers st = [] ->
         let st' :=
           snd (App.handleSendMessage env text providerId file preview st) in
         fst (App.handleSendMessage env text providerId file preview st)
           = Ok tt
         /\ App.db st' = App.db st
         /\ App.messages st' = App.messages st
         /\ App.isLoading st' = App.isLoading st
         /\ existsb App.is_generation (App.trace st')
            = existsb App.is_generation (App.trace st).
Proof.
  intros userId selected rows n e rest. split.
  - unfold Providers.loadProviders, Providers.getProviders.
    cbn [Providers.take_fault Providers.pdb_faults].
    unfold Providers.select_provider. cbn [find].
    rewrite orb_true_r. reflexivity.
  - intros env text providerId file preview st Hnone.
    unfold App.handleSendMessage. rewrite Hnone. cbn [find].
    destruct (App.session st).
    + cbn [fst snd App.log App.db App.messages App.isLoading App.trace].
      repeat split. rewrite existsb_app. cbn [existsb App.is_generation].
      rewrite !orb_false_r. reflexivity.
    + repeat split.
Qed.

(** The theorem above for a component whose providers could not be
    loaded. *)
Lemma failed_provider_load_blocks_sends_witness :
  App.db
    (snd (App.handleSendMessage Scenario.chat_env "Hello again" "p-chat" None
            None
            (App.mkAppState (Some Scenario.a_session) [] (Some "conv-1")
               [Scenario.hello] false [] (Store.mkDb [Scenario.hello] [] 1 [])
               [] [])))
  = Store.mkDb [Scenario.hello] [] 1 [].
Proof.
  apply (proj2 (@failed_provider_load_blocks_sends "u-1" "p-chat" [] 0
                  (Foreign "timeout") [])
           Scenario.chat_env "Hello again" "p-chat" None None
           (App.mkAppState (Some Scenario.a_session) [] (Some "conv-1")
              [Scenario.hello] false [] (Store.mkDb [Scenario.hello] [] 1 [])
              [] [])
           eq_refl).
Defined.

(** X29. [handleNewChat] opens the conversation it creates: with a session
    and a store that answers, a conversation titled 'New Chat', owned by the
    user, is stored, put at the head of the list and opened; when the store
    refuses, the error goes no further and the list and the open
    conversation stay as they were; without a session nothing is asked. *)
Theorem handleNewChat_opens_new_conversation :
  forall (env : Env) (st : App.AppState),
    (forall sess,
        App.session st = Some sess ->
        Store.db_faults (App.db st) = [] ->
        exists conv,
          Handlers.handleNewChat env st
          = (Ok tt, snd (Handlers.handleNewChat env st))
          /\ conv_title conv = "New Chat"
          /\ conv_user_id conv = App.session_user_id sess
          /\ App.conversations (snd (Handlers.handleNewChat env st))
             = conv :: App.conversations st
          /\ App.currentConversationId (snd (Handlers.handleNewChat env st))
             = Some (conv_id conv)
          /\ Store.db_conversations
               (App.db (snd (Handlers.handleNewChat env st)))
             = Store.db_conversations (App.db st) ++ [conv])
    /\ (forall e rest,
           Store.db_faults (App.db st) = Some e :: rest ->
           fst (Handlers.handleNewChat env st) = Ok tt
           /\ App.conversations (snd (Handlers.handleNewChat env st))
              = App.conversations st
           /\ App.currentConversationId (snd (Handlers.handleNewChat env st))
              = App.currentConversationId st)
    /\ (App.session st = None -> Handlers.handleNewChat env st = (Ok tt, st)).
Proof.
  intros env st.
  destruct st as [ses convs cur msgs load provs [dm dc dr df] trs tr].
  cbn [App.session App.db Store.db_faults App.conversations
       App.currentConversationId Store.db_conversations].
  unfold Handlers.handleNewChat, App.bind, App.try_catch,
    App.effect_on_change, App.conversation_effect.
  split; [| split].
  - intros sess -> ->.
    exists (mkConversation (env_row_id env dr) (App.session_user_id sess)
              "New Chat" (env_row_time env dr) (env_row_time env dr)).
    cbn [App.session]. simpl.
    destruct (App.same_id cur (Some (env_row_id env dr))); simpl;
      [repeat split |].
    destruct (Js.truthy (env_row_id env dr)); simpl; repeat split.
  - intros e rest ->. destruct ses as [sess |]; simpl;
      [rewrite same_id_refl |]; repeat split.
  - intros ->. reflexivity.
Qed.

(** The theorem above at the sample state. *)
Lemma handleNewChat_opens_new_conversation_witness :
  exists conv,
    conv_title conv = "New Chat"
    /\ App.currentConversationId
         (snd (Handlers.handleNewChat Scenario.chat_env Scenario.start))
       = Some (conv_id conv).
Proof.
  destruct (proj1 (@handleNewChat_opens_new_conversation Scenario.chat_env
                     Scenario.start)
              Scenario.a_session eq_refl eq_refl)
    as (conv & _ & Htitle & _ & _ & Hcur & _).
  exists conv. split; [exact Htitle | exact Hcur].
Defined.
